(** * Weekly reaction award: store, tally and scheduler

    A shallow embedding of [src/bot/features/weeklyAwards/db.js] and
    [src/bot/features/weeklyAwards/weeklyAward.js], with the part of
    [src/bot/features/util.js] the scheduler calls.

    Conventions of the embedding.
    - Instants are integers: milliseconds since the Unix epoch.  The text
      columns [timestamp], [created_at] and [updated_at] are represented by
      the instant their text denotes ([created_at] and [updated_at] are
      written by [datetime('now')], which has a resolution of one second).
    - SQL [integer] columns and JavaScript numbers that hold counts are [Z].
    - A table with a composite text primary key is a list of rows in rowid
      order; the two single-key tables are finite maps.
    - Every execution of a prepared statement consumes one [Attempt]: the
      clock value seen by [datetime('now')] / [julianday('now')] and the
      exception, if any, that better-sqlite3 raises instead of running it.
      A finite list of attempts plays the role of fuel: when it is used up
      the call is still [Pending]. *)

From Stdlib Require Import ZArith String DecimalString List Permutation Sorted Lia.
From stdpp Require Import gmap strings list sorting.

Local Open Scope string_scope.
Local Open Scope list_scope.
Local Open Scope Z_scope.

(** ** JavaScript exceptions and the busy test *)

Inductive ErrorClass := TypeError | RangeError | SqliteError | OtherError.

Record JsError := { e_class : ErrorClass; e_message : string }.

(** [String.prototype.includes]. *)
Fixpoint includes (s needle : string) : bool :=
  String.prefix needle s ||
  match s with
  | EmptyString => false
  | String _ s' => includes s' needle
  end.

(** [e instanceof TypeError && e.message.includes('database connection is busy')] *)
Definition is_busy (e : JsError) : bool :=
  match e_class e with
  | TypeError => includes (e_message e) "database connection is busy"
  | _ => false
  end.

Record Attempt := { clock : Z; fault : option JsError }.

Definition ok_at (now : Z) : Attempt := {| clock := now; fault := None |}.
Definition failing (now : Z) (e : JsError) : Attempt := {| clock := now; fault := Some e |}.

Inductive Completion (A : Type) :=
| Returned (a : A)
| Thrown (e : JsError)
| Pending.
Arguments Returned {A} a.
Arguments Thrown {A} e.
Arguments Pending {A}.

(** What a store method does besides touching its table: [Slept] is
    [await setTimeout()] (a turn of the event loop), [Yielded v] a value
    produced by the generator [deleteOutdated] ([None] is the bare [yield]). *)
Inductive StoreEvent :=
| Slept
| Yielded (v : option Z).

Definition StoreRun (A : Type) : Type := list StoreEvent * Completion A.

Definition emit {A} (ev : StoreEvent) (r : StoreRun A) : StoreRun A :=
  (ev :: r.1, r.2).

(** The body shared by every promise-returning mutating method of db.js:
    run the prepared statement; on the busy [TypeError] await
    [setTimeout()] and call the method again with the same arguments;
    rethrow anything else. *)
Fixpoint stmt_run_retry {S : Type} (stmt : Z -> S -> S)
    (atts : list Attempt) (s : S) : StoreRun S :=
  match atts with
  | [] => ([], Pending)
  | a :: rest =>
      match fault a with
      | None => ([], Returned (stmt (clock a) s))
      | Some e =>
          if is_busy e then emit Slept (stmt_run_retry stmt rest s)
          else ([], Thrown e)
      end
  end.

(** ** Messages as discord.js hands them to the feature *)

Record User := { username : string; bot : bool }.

Record Message := {
  id : string;
  channelId : string;
  guildId : string;            (* meaningful when [inGuild] *)
  inGuild : bool;              (* message.inGuild() *)
  guildName : option string;   (* message.guild?.name *)
  channelName : option string; (* 'name' in channel ? channel.name : absent *)
  content : string;
  author : User;
  url : string;
  createdTimestamp : Z;
  reactions : list Z;          (* reaction.count over reactions.cache *)
}.

(** ** Table reacted_messages *)

Record Row := {
  guild_id : string;
  channel_id : string;
  message_id : string;
  guild_name : string;
  channel_name : string;
  r_content : string;
  r_author : string;
  r_url : string;
  reactions_count : Z;
  timestamp : Z;
  created_at : Z;
  updated_at : Z;
}.

Record WeeklyAwardRecord := {
  rec_guildId : string;
  rec_channelId : string;
  rec_messageId : string;
  rec_guildName : string;
  rec_channelName : string;
  rec_content : string;
  rec_author : string;
  rec_url : string;
  reactionsCount : Z;
  rec_timestamp : Z;
  createdAt : Z;
  updatedAt : Z;
}.

Definition Key : Type := string * string * string.

Definition row_key (r : Row) : Key := (guild_id r, channel_id r, message_id r).

(** [datetime('now')]: the current instant cut to whole seconds. *)
Definition datetime_now (now : Z) : Z := 1000 * (now / 1000).

Definition day_ms : Z := 86400 * 1000.

(** The bound parameters of the upsert in [WeeklyAward.set]. *)
Definition set_params (message : Message) (count : Z) (now : Z) : Row :=
  {| guild_id := guildId message;
     channel_id := channelId message;
     message_id := id message;
     guild_name := default "" (guildName message);
     channel_name := default "" (channelName message);
     r_content := content message;
     r_author := username (author message);
     r_url := url message;
     reactions_count := count;
     timestamp := createdTimestamp message;
     created_at := datetime_now now;
     updated_at := datetime_now now |}.

(** [on conflict (guild_id, channel_id, message_id) do update set ...]:
    url, timestamp and created_at keep the stored value. *)
Definition on_conflict (p old : Row) : Row :=
  {| guild_id := guild_id old;
     channel_id := channel_id old;
     message_id := message_id old;
     guild_name := guild_name p;
     channel_name := channel_name p;
     r_content := r_content p;
     r_author := r_author p;
     r_url := r_url old;
     reactions_count := reactions_count p;
     timestamp := timestamp old;
     created_at := created_at old;
     updated_at := updated_at p |}.

Fixpoint upsert_stmt (p : Row) (tbl : list Row) : list Row :=
  match tbl with
  | [] => [p]
  | r :: rest =>
      if bool_decide (row_key r = row_key p) then on_conflict p r :: rest
      else r :: upsert_stmt p rest
  end.

Definition delete_stmt (k : Key) (tbl : list Row) : list Row :=
  filter (fun r => row_key r <> k) tbl.

(** [guild_id = @guildId and julianday('now') - julianday(timestamp) > @days],
    the difference of Julian days taken exactly (in milliseconds). *)
Definition outdated (now : Z) (g : string) (days : Z) (r : Row) : bool :=
  bool_decide (guild_id r = g) && (days * day_ms <? now - timestamp r).

Definition count_outdated_stmt (now : Z) (g : string) (days : Z) (tbl : list Row) : Z :=
  Z.of_nat (length (filter (fun r => outdated now g days r = true) tbl)).

Definition delete_outdated_stmt (now : Z) (g : string) (days : Z) (tbl : list Row) : list Row :=
  filter (fun r => outdated now g days r = false) tbl.

Definition to_record (row : Row) : WeeklyAwardRecord :=
  {| rec_guildId := guild_id row;
     rec_channelId := channel_id row;
     rec_messageId := message_id row;
     rec_guildName := guild_name row;
     rec_channelName := channel_name row;
     rec_content := r_content row;
     rec_author := r_author row;
     rec_url := r_url row;
     reactionsCount := reactions_count row;
     rec_timestamp := timestamp row;
     createdAt := created_at row;
     updatedAt := updated_at row |}.

(** ** Tables post_target and times (primary key guild_id) *)

Record ConfigRow := {
  c_guild_name : string;
  c_channel_id : string;
  c_channel_name : string;
  c_created_at : Z;
  c_updated_at : Z;
}.

Record TimeRow := {
  t_weekday : Z;
  t_hour : Z;
  t_minute : Z;
  t_created_at : Z;
  t_updated_at : Z;
}.

Record Db := {
  reacted_messages : list Row;
  post_target : gmap string ConfigRow;
  times : gmap string TimeRow;
}.

Definition with_messages (f : list Row -> list Row) (db : Db) : Db :=
  {| reacted_messages := f (reacted_messages db);
     post_target := post_target db;
     times := times db |}.

Definition with_config (f : gmap string ConfigRow -> gmap string ConfigRow) (db : Db) : Db :=
  {| reacted_messages := reacted_messages db;
     post_target := f (post_target db);
     times := times db |}.

Definition with_times (f : gmap string TimeRow -> gmap string TimeRow) (db : Db) : Db :=
  {| reacted_messages := reacted_messages db;
     post_target := post_target db;
     times := f (times db) |}.

Definition register_stmt (now : Z) (g gname cid cname : string)
    (t : gmap string ConfigRow) : gmap string ConfigRow :=
  <[ g := {| c_guild_name := gname;
             c_channel_id := cid;
             c_channel_name := cname;
             c_created_at := from_option c_created_at (datetime_now now) (t !! g);
             c_updated_at := datetime_now now |} ]> t.

Definition time_set_stmt (now : Z) (g : string) (wd h mi : Z)
    (t : gmap string TimeRow) : gmap string TimeRow :=
  <[ g := {| t_weekday := wd;
             t_hour := h;
             t_minute := mi;
             t_created_at := from_option t_created_at (datetime_now now) (t !! g);
             t_updated_at := datetime_now now |} ]> t.

(** ** Collaborators that live outside the two modelled files *)

Class Collaborators := {
  (** [isUrl] of lib/util, used by the row check of reacted_messages *)
  isUrl : string -> bool;
  (** [fromNumber] of ./weekday *)
  fromNumber : Z -> Z;
  (** offset of the default zone of lib/dayjsSetup, in milliseconds east of UTC *)
  tzOffset : Z;
  (** an [APIEmbed], and the rendering done by [messageToEmbeds] of ../util *)
  Embed : Type;
  messageToEmbeds : Message -> bool -> list Embed;
}.

(** ** The methods of db.js *)

Module WeeklyAward.
Section Methods.
Context {C : Collaborators}.

(** [#isRow]: the columns are typed by the schema; what is left of the
    check is the url test. *)
Definition isRow (row : Row) : bool := isUrl (r_url row).

Definition get (g c m : string) (db : Db) : option WeeklyAwardRecord :=
  match filter (fun r => row_key r = (g, c, m)) (reacted_messages db) with
  | row :: _ => if isRow row then Some (to_record row) else None
  | [] => None
  end.

Definition set (message : Message) (count : Z) : list Attempt -> Db -> StoreRun Db :=
  stmt_run_retry (fun now => with_messages (upsert_stmt (set_params message count now))).

Definition all (db : Db) : list WeeklyAwardRecord :=
  map to_record (filter (fun r => isRow r = true) (reacted_messages db)).

(** The generator re-queries at every call and is consumed in one
    synchronous loop: the sequence it yields. *)
Definition iterate (db : Db) : list WeeklyAwardRecord :=
  map to_record (filter (fun r => isRow r = true) (reacted_messages db)).

Definition delete (g c m : string) : list Attempt -> Db -> StoreRun Db :=
  stmt_run_retry (fun _ => with_messages (delete_stmt (g, c, m))).

(** The asynchronous generator.  [cntStmt.get] and [delStmt.run] consume
    one attempt each; a busy failure of either restarts the whole
    generator ([yield*] of a fresh call) after [await setTimeout()].
    The count query always gives a number, so the branch that throws
    the 'count must be a number' TypeError is never taken. *)
Fixpoint deleteOutdated (g : string) (days : Z)
    (atts : list Attempt) (db : Db) : StoreRun Db :=
  match atts with
  | [] => ([], Pending)
  | a1 :: rest1 =>
      match fault a1 with
      | Some e =>
          if is_busy e then emit Slept (deleteOutdated g days rest1 db)
          else ([], Thrown e)
      | None =>
          let count := count_outdated_stmt (clock a1) g days (reacted_messages db) in
          emit (Yielded (Some count))
            (if 0 <? count then
               match rest1 with
               | [] => ([], Pending)
               | a2 :: rest2 =>
                   match fault a2 with
                   | Some e =>
                       if is_busy e then emit Slept (deleteOutdated g days rest2 db)
                       else ([], Thrown e)
                   | None =>
                       emit (Yielded None)
                         ([], Returned
                                (with_messages (delete_outdated_stmt (clock a2) g days) db))
                   end
               end
             else ([], Returned db))
      end
  end.
End Methods.
End WeeklyAward.

Module WeeklyAwardConfig.
Definition records (db : Db) : list (string * ConfigRow) :=
  map_to_list (post_target db).

Definition register (g gname cid cname : string) : list Attempt -> Db -> StoreRun Db :=
  stmt_run_retry (fun now => with_config (register_stmt now g gname cid cname)).

Definition unregister (g : string) : list Attempt -> Db -> StoreRun Db :=
  stmt_run_retry (fun _ => with_config (base.delete g)).

Definition get (g : string) (db : Db) : option ConfigRow := post_target db !! g.
End WeeklyAwardConfig.

Module WeeklyAwardTime.
Section Methods.
Context {C : Collaborators}.

Definition set (g : string) (wd h mi : Z) : list Attempt -> Db -> StoreRun Db :=
  stmt_run_retry (fun now => with_times (time_set_stmt now g wd h mi)).

Definition delete (g : string) : list Attempt -> Db -> StoreRun Db :=
  stmt_run_retry (fun _ => with_times (base.delete g)).

Definition get (g : string) (db : Db) : option TimeRow :=
  (fun row =>
     {| t_weekday := fromNumber (t_weekday row);
        t_hour := t_hour row;
        t_minute := t_minute row;
        t_created_at := t_created_at row;
        t_updated_at := t_updated_at row |}) <$> times db !! g.
End Methods.
End WeeklyAwardTime.

(** ** The part of Discord the scheduler looks at *)

Inductive ChannelType :=
| GuildText | DM | GuildVoice | GroupDM | GuildCategory | GuildAnnouncement
| AnnouncementThread | PublicThread | PrivateThread | GuildStageVoice
| GuildDirectory | GuildForum | GuildMedia.

Record Channel := {
  ch_id : string;
  ch_name : string;
  ch_type : ChannelType;
  isTextBased : bool;
  isVoiceBased : bool;
  ch_messages : list Message;
}.

Record Guild := {
  g_id : string;
  g_name : string;
  g_channels : list Channel;
}.

(** [fetchMessageByIds] of ../util: every lookup that fails raises an
    [Error], which the function logs and turns into [null]. *)
Definition fetchMessageByIds (world : list Guild) (g c m : string) : option Message :=
  match find (fun guild => bool_decide (g_id guild = g)) world with
  | Some guild =>
      match find (fun channel => bool_decide (ch_id channel = c)) (g_channels guild) with
      | Some channel =>
          if isTextBased channel && negb (isVoiceBased channel)
          then find (fun message => bool_decide (id message = m)) (ch_messages channel)
          else None
      | None => None
      end
  | None => None
  end.

(** ** Tally *)

(** [Array.prototype.sort] (stable) with a comparator that returns a
    number: [a] stays before [b] unless [cmp a b] is positive. *)
Fixpoint sort_insert {A} (cmp : A -> A -> Z) (x : A) (l : list A) : list A :=
  match l with
  | [] => [x]
  | y :: l' => if cmp x y <=? 0 then x :: l else y :: sort_insert cmp x l'
  end.

Definition Array_sort {A} (cmp : A -> A -> Z) (l : list A) : list A :=
  foldr (sort_insert cmp) [] l.

(** [Array.prototype.filter] with the index argument. *)
Fixpoint filter_index {A} (p : A -> nat -> bool) (i : nat) (l : list A) : list A :=
  match l with
  | [] => []
  | x :: l' => if p x i then x :: filter_index p (S i) l' else filter_index p (S i) l'
  end.

(** An object whose property names are numbers: the properties in
    creation order.  Assigning to an existing name keeps its place. *)
Fixpoint obj_get {V} (k : Z) (o : list (Z * V)) : option V :=
  match o with
  | [] => None
  | (k', v) :: o' => if k =? k' then Some v else obj_get k o'
  end.

Fixpoint obj_set {V} (k : Z) (v : V) (o : list (Z * V)) : list (Z * V) :=
  match o with
  | [] => [(k, v)]
  | (k', v') :: o' => if k =? k' then (k, v) :: o' else (k', v') :: obj_set k v o'
  end.

(** A property name is an array index when it is the canonical text of an
    integer in [0, 2^32 - 2]. *)
Definition is_array_index (k : Z) : bool := (0 <=? k) && (k <? 2 ^ 32 - 1).

(** [Object.entries]: array indices in ascending order, then the other
    names in creation order. *)
Definition Object_entries {V} (o : list (Z * V)) : list (Z * V) :=
  Array_sort (fun a b => a.1 - b.1) (filter (fun e => is_array_index e.1 = true) o)
  ++ filter (fun e => is_array_index e.1 = false) o.

Definition talliedMessages (messages : list (Message * Z)) : list (Z * list Message) :=
  fold_left
    (fun acc mr => obj_set mr.2 (default [] (obj_get mr.2 acc) ++ [mr.1]) acc)
    messages [].

(** [Object.entries(talliedMessages).sort(([a, ], [b, ]) => (+b) - (+a))] *)
Definition messagesArray (messages : list (Message * Z)) : list (Z * list Message) :=
  Array_sort (fun a b => b.1 - a.1) (Object_entries (talliedMessages messages)).

(** [messagesArray.filter((_, i) => i < Math.min(messagesArray.length, 3))] *)
Definition take3 {A} (arr : list A) : list A :=
  filter_index (fun _ i => (i <? Nat.min (length arr) 3)%nat) 0%nat arr.

Definition number_to_string (z : Z) : string := NilZero.string_of_int (Z.to_int z).

Definition rankText (rank : Z) : string :=
  if rank =? 1 then "最も" else " " +:+ number_to_string rank +:+ "番目に".

Definition title_of (rank : Z) (count : Z) (messages : list Message) : string :=
  "**先週" +:+ rankText rank +:+ "リアクションが多かった投稿"
  +:+ (if (2 <=? length messages)%nat then "たち" else "")
  +:+ "です！！** [" +:+ number_to_string count +:+ "個]".

Section Tally.
Context {C : Collaborators}.

Record Content := { title : string; embeds : list Embed }.

(** One block pushed onto [contents] by the loop body. *)
Definition block (rank : Z) (count : Z) (messages : list Message) : Content :=
  {| title := title_of rank count messages;
     embeds := flat_map (fun message => messageToEmbeds message false) messages |}.

(** The loop over the kept groups, started with [rank]. *)
Fixpoint contents_from (rank : Z) (groups : list (Z * list Message)) : list Content :=
  match groups with
  | [] => []
  | (count, messages) :: rest =>
      block rank count messages
      :: contents_from (rank + Z.of_nat (length messages)) rest
  end.

Definition contents (messages : list (Message * Z)) : list Content :=
  contents_from 1 (take3 (messagesArray messages)).
End Tally.

(** ** Scheduler *)

(** The arguments a tick is called with, and re-armed with. *)
Record TickArgs := {
  a_guildId : string;
  a_guildName : string;
  a_channelName : string;
  a_weekday : Z;
  a_hour : Z;
  a_minute : Z;
}.

(** A pending [setTimeout(() => tick(...), delay)]. *)
Record Timer := { delay : Z; callback : TickArgs }.

Record State := {
  db : Db;
  instances : gmap string nat;   (* guild id to Timeout *)
  timers : gmap nat Timer;       (* the timeouts the event loop still holds *)
  next_timeout : nat;
}.

Definition with_db (st : State) (d : Db) : State :=
  {| db := d; instances := instances st; timers := timers st;
     next_timeout := next_timeout st |}.

(** [const timeout = setTimeout(cb, ms); instances.set(guildId, timeout)] *)
Definition arm (args : TickArgs) (ms : Z) (st : State) : State :=
  {| db := db st;
     instances := <[ a_guildId args := next_timeout st ]> (instances st);
     timers := <[ next_timeout st := {| delay := ms; callback := args |} ]> (timers st);
     next_timeout := S (next_timeout st) |}.

Definition clearTimeout (h : nat) (st : State) : State :=
  {| db := db st; instances := instances st;
     timers := base.delete h (timers st);
     next_timeout := next_timeout st |}.

(** [86400 * 1000 * 6.9] *)
Definition almost_a_week : Z := 596160000.

(** [dayjs().tz()] read at the instant [now]; the zone has a fixed offset. *)
Definition local_ms {C : Collaborators} (now : Z) : Z := now + tzOffset.
Definition now_minute {C : Collaborators} (now : Z) : Z := (local_ms now / 60000) mod 60.
Definition now_hour {C : Collaborators} (now : Z) : Z := (local_ms now / 3600000) mod 24.
(** the epoch fell on a Thursday *)
Definition now_day {C : Collaborators} (now : Z) : Z := (local_ms now / day_ms + 4) mod 7.

Definition matches {C : Collaborators} (now : Z) (args : TickArgs) : bool :=
  (now_day now =? a_weekday args) && (now_hour now =? a_hour args)
  && (now_minute now =? a_minute args).

Inductive LogLine :=
| ReportInitiated
| OutdatedRecords (count : Z)
| RecordsDeleted
| ReportFinished
| StartNotRegistered (g : string)
| Starting (c : ConfigRow)
| StopNotRegistered (g : string)
| Stopping (c : ConfigRow).

Definition newline : string := String (Ascii.ascii_of_nat 10) EmptyString.

Definition notice : string :=
  "【リアクション大賞】" +:+ newline +:+ "先週はリアクションが付いた投稿はありませんでした！！".

Section Scheduler.
Context {C : Collaborators}.

Inductive Effect :=
| Waited                                     (* await setTimeout() in db.js *)
| Logged (who : option string) (l : LogLine)
| Vacuumed
| Sent (channel : string * string) (text : string) (es : list Embed)
| ThreadStarted (name : string)
| ThreadSent (text : string) (es : list Embed).

Definition Run (A : Type) : Type := list Effect * Completion A.

(** A promise-returning store method awaited by a handler. *)
Definition await_store (st : State) (r : StoreRun Db) : Run State :=
  (flat_map (fun ev => match ev with Slept => [Waited] | Yielded _ => [] end) r.1,
   match r.2 with
   | Returned d => Returned (with_db st d)
   | Thrown e => Thrown e
   | Pending => Pending
   end).

(** The guild found by name, then the channel found by name in it. *)
Definition resolve (world : list Guild) (args : TickArgs) : option (Guild * Channel) :=
  match find (fun guild => bool_decide (g_name guild = a_guildName args)) world with
  | Some guild =>
      match find (fun channel => bool_decide (ch_name channel = a_channelName args))
                 (g_channels guild) with
      | Some channel => Some (guild, channel)
      | None => None
      end
  | None => None
  end.

Definition is_GuildText (t : ChannelType) : bool :=
  match t with GuildText => true | _ => false end.

(** [fetchesMessage] *)
Definition fetchesMessage (world : list Guild) (g : string)
    (record : WeeklyAwardRecord) : option (Message * Z) :=
  if bool_decide (rec_guildId record <> g) then None
  else match fetchMessageByIds world g (rec_channelId record) (rec_messageId record) with
       | Some message => Some (message, reactionsCount record)
       | None => None
       end.

(** The body of [for await (const count of db.deleteOutdated(guildId, 7))]. *)
Definition cleanup_effects (who : string) (evs : list StoreEvent) : list Effect :=
  flat_map (fun ev =>
              match ev with
              | Slept => [Waited]
              | Yielded (Some count) => [Logged (Some who) (OutdatedRecords count)]
              | Yielded None => [Vacuumed; Logged (Some who) RecordsDeleted]
              end) evs.

(** [if (isNonEmpty(contents)) { ... }] *)
Definition post (channel : string * string) (cs : list Content) : list Effect :=
  match cs with
  | [] => []
  | first :: restContents =>
      Sent channel ("**【リアクション大賞】**" +:+ newline +:+ title first) (embeds first)
      :: (if (0 <? length restContents)%nat
          then ThreadStarted "リアクション大賞全体"
               :: map (fun c => ThreadSent (title c) (embeds c)) restContents
          else [])
  end.

(** What is sent once the clean-up is over. *)
Definition report (world : list Guild) (args : TickArgs)
    (channel : string * string) (d : Db) : list Effect :=
  if existsb (fun r => 0 <? reactionsCount r) (WeeklyAward.all d) then
    let messages :=
      omap (fetchesMessage world (a_guildId args)) (WeeklyAward.iterate d) in
    post channel (contents messages)
  else [Sent channel notice []].

Definition tick (args : TickArgs) (now : Z) (world : list Guild)
    (atts : list Attempt) (st : State) : Run State :=
  let who := Some (a_guildName args) in
  if matches now args then
    match resolve world args with
    | Some (guild, channel) =>
        if is_GuildText (ch_type channel) then
          let cleanup := WeeklyAward.deleteOutdated (a_guildId args) 7 atts (db st) in
          let before := Logged who ReportInitiated
                        :: cleanup_effects (a_guildName args) cleanup.1 in
          match cleanup.2 with
          | Returned d =>
              (before ++ report world args (g_id guild, ch_id channel) d
                      ++ [Logged who ReportFinished],
               Returned (arm args almost_a_week (with_db st d)))
          | Thrown e => (before, Thrown e)
          | Pending => (before, Pending)
          end
        else
          ([Logged who ReportInitiated; Logged who ReportFinished],
           Returned (arm args almost_a_week st))
    | None =>
        ([Logged who ReportInitiated; Logged who ReportFinished],
         Returned (arm args almost_a_week st))
    end
  else ([], Returned (arm args 1000 st)).

Definition stopAward (g : string) (st : State) : list Effect * State :=
  match WeeklyAwardConfig.get g (db st) with
  | None => ([Logged None (StopNotRegistered g)], st)
  | Some configRecord =>
      ([Logged None (Stopping configRecord)],
       match instances st !! g with
       | Some h => clearTimeout h st
       | None => st
       end)
  end.

Definition startAward (g : string) (now : Z) (world : list Guild)
    (atts : list Attempt) (st : State) : Run State :=
  match WeeklyAwardConfig.get g (db st), WeeklyAwardTime.get g (db st) with
  | Some configRecord, Some timeRecord =>
      let args := {| a_guildId := g;
                     a_guildName := c_guild_name configRecord;
                     a_channelName := c_channel_name configRecord;
                     a_weekday := t_weekday timeRecord;
                     a_hour := t_hour timeRecord;
                     a_minute := t_minute timeRecord |} in
      let stopped :=
        match instances st !! g with
        | Some _ => stopAward g st
        | None => ([], st)
        end in
      let ticked := tick args now world atts stopped.2 in
      (Logged None (Starting configRecord) :: stopped.1 ++ ticked.1, ticked.2)
  | _, _ => ([Logged None (StartNotRegistered g)], Returned st)
  end.

(** [reactions.cache.reduce((acc, reaction) => acc + reaction.count, 0)] *)
Definition total_count (message : Message) : Z :=
  fold_left Z.add (reactions message) 0.

(** [client.on(Events.MessageReactionAdd, ...)], from the fetched message on. *)
Definition onMessageReactionAdd (message : Message)
    (atts : list Attempt) (st : State) : Run State :=
  if bot (author message) || negb (inGuild message) then ([], Returned st)
  else match WeeklyAwardConfig.get (guildId message) (db st) with
       | None => ([], Returned st)
       | Some _ =>
           await_store st (WeeklyAward.set message (total_count message) atts (db st))
       end.

(** [client.on(Events.MessageReactionRemove, ...)] *)
Definition onMessageReactionRemove (message : Message)
    (atts : list Attempt) (st : State) : Run State :=
  if bot (author message) || negb (inGuild message) then ([], Returned st)
  else
    let reactionsCount := total_count message in
    if 0 <? reactionsCount
    then await_store st (WeeklyAward.set message reactionsCount atts (db st))
    else await_store st
           (WeeklyAward.delete (guildId message) (channelId message) (id message)
                               atts (db st)).
End Scheduler.

(** ** The mutating calls of the store, as one family *)

Inductive MutatingCall :=
| CallSet (message : Message) (count : Z)
| CallDelete (g c m : string)
| CallDeleteOutdated (g : string) (days : Z)
| CallRegister (g gname cid cname : string)
| CallUnregister (g : string)
| CallTimeSet (g : string) (wd h mi : Z)
| CallTimeDelete (g : string).

Definition call (op : MutatingCall) : list Attempt -> Db -> StoreRun Db :=
  match op with
  | CallSet message count => WeeklyAward.set message count
  | CallDelete g c m => WeeklyAward.delete g c m
  | CallDeleteOutdated g days => WeeklyAward.deleteOutdated g days
  | CallRegister g gname cid cname => WeeklyAwardConfig.register g gname cid cname
  | CallUnregister g => WeeklyAwardConfig.unregister g
  | CallTimeSet g wd h mi => WeeklyAwardTime.set g wd h mi
  | CallTimeDelete g => WeeklyAwardTime.delete g
  end.

(** The attempt fails with the busy TypeError. *)
Definition busy_attempt (a : Attempt) : bool :=
  match fault a with
  | Some e => is_busy e
  | None => false
  end.

(** ** Vocabulary of the statements *)

(** The record belongs to tenant [g] and its age, measured from the item
    timestamp, exceeds [days] days at the instant [now]. *)
Definition older_than (now : Z) (g : string) (days : Z) (r : Row) : Prop :=
  guild_id r = g /\ days * day_ms < now - timestamp r.

(** The attempts one pass of [deleteOutdated] uses up when it ends in the
    busy failure and the generator starts over: the failure is that of the
    count query, or that of the delete after a positive count. *)
Definition restarts (g : string) (days : Z) (d : Db) (round : list Attempt) : Prop :=
  exists now e,
    is_busy e = true
    /\ (round = [failing now e]
        \/ exists now1,
             round = [ok_at now1; failing now e]
             /\ 0 < count_outdated_stmt now1 g days (reacted_messages d)).

(** The call ran on [atts] like this: it started over after each of some
    passes, then its count query ran at the clock [now1]; [tail] is what
    is left of the attempts behind that query. *)
Definition counted_at (g : string) (days : Z) (d : Db) (atts : list Attempt)
    (now1 : Z) (tail : list Attempt) : Prop :=
  exists rounds,
    Forall (restarts g days d) rounds
    /\ atts = concat rounds ++ ok_at now1 :: tail.

(** The delete statement of the call ran, at the clock [now2]: it is the
    attempt right behind a count query that gave a positive count. *)
Definition deleted_at (g : string) (days : Z) (d : Db) (atts : list Attempt)
    (now2 : Z) : Prop :=
  exists now1 rest,
    counted_at g days d atts now1 (ok_at now2 :: rest)
    /\ 0 < count_outdated_stmt now1 g days (reacted_messages d).

(** The comparator of [messagesArray]: larger counts first. *)
Definition by_count_desc {V : Type} (a b : Z * V) : Z := b.1 - a.1.

(** The messages whose record carries exactly the count [k], in the
    order they were resolved. *)
Definition group_of (k : Z) (messages : list (Message * Z)) : list Message :=
  map fst (filter (fun mr => mr.2 = k) messages).

(** The number of items in the groups placed before position [i]. *)
Definition items_above (i : nat) (groups : list (Z * list Message)) : Z :=
  Z.of_nat (length (concat (map snd (take i groups)))).

(** The channel a matched tick reports to: the guild found by display
    name, the channel found by display name in it, provided it is a
    guild text channel. *)
Definition target (world : list Guild) (args : TickArgs) : option (string * string) :=
  match resolve world args with
  | Some (guild, channel) =>
      if is_GuildText (ch_type channel) then Some (g_id guild, ch_id channel) else None
  | None => None
  end.

(** A [channel.send] on the target channel. *)
Definition is_primary_post {C : Collaborators} (e : Effect) : bool :=
  match e with Sent _ _ _ => true | _ => false end.

Definition reports {C : Collaborators} (effs : list Effect) : nat :=
  length (List.filter is_primary_post effs).

(** Anything a tick does beyond logging that the report starts and ends. *)
Definition is_report_work {C : Collaborators} (e : Effect) : bool :=
  match e with
  | Logged _ ReportInitiated | Logged _ ReportFinished => false
  | _ => true
  end.

(** ** Scenarios used to exercise the statements *)

Definition demo : Collaborators :=
  {| isUrl := fun s => String.prefix "https://" s;
     fromNumber := fun z => z;
     tzOffset := 9 * 3600000;
     Embed := string;
     messageToEmbeds := fun message _ => [url message] |}.

Definition busy_error : JsError :=
  {| e_class := TypeError;
     e_message := "This database connection is busy executing a query" |}.

Definition disk_error : JsError :=
  {| e_class := SqliteError; e_message := "disk I/O error" |}.

Definition empty_db : Db :=
  {| reacted_messages := []; post_target := ∅; times := ∅ |}.

Definition demo_message (i g : string) (is_bot : bool) (created : Z) (rs : list Z) : Message :=
  {| id := i; channelId := "c1"; guildId := g; inGuild := true;
     guildName := Some "Inugoya"; channelName := Some "general";
     content := "hello";
     author := {| username := "pochi"; bot := is_bot |};
     url := "https://discord.com/channels/" +:+ g +:+ "/c1/" +:+ i;
     createdTimestamp := created; reactions := rs |}.

Definition demo_row (i g : string) (count ts : Z) : Row :=
  set_params (demo_message i g false ts [count]) count ts.

Definition aged_rows (now : Z) : list Row :=
  [demo_row "five" "g1" 1 (now - 5 * day_ms);
   demo_row "eight" "g1" 2 (now - 8 * day_ms);
   demo_row "ten" "g1" 3 (now - 10 * day_ms)].

Definition demo_args : TickArgs :=
  {| a_guildId := "g1"; a_guildName := "Inugoya"; a_channelName := "awards";
     a_weekday := 3; a_hour := 9; a_minute := 0 |}.

Definition demo_config : ConfigRow :=
  {| c_guild_name := "Inugoya"; c_channel_id := "c9"; c_channel_name := "awards";
     c_created_at := 0; c_updated_at := 0 |}.

(** A tenant with a waiting loop (timeout 0) and no row in post_target. *)
Definition waiting_unregistered : State :=
  {| db := empty_db;
     instances := {[ "g1" := 0%nat ]};
     timers := {[ 0%nat := {| delay := 1000; callback := demo_args |} ]};
     next_timeout := 1 |}.

(** The same tenant, registered. *)
Definition waiting_registered : State :=
  with_db waiting_unregistered
    (with_config (fun _ => {[ "g1" := demo_config ]}) empty_db).

Definition demo_state (rows : list Row) : State :=
  {| db := with_messages (fun _ => rows) empty_db;
     instances := ∅; timers := ∅; next_timeout := 0 |}.

Definition msg_a : Message := demo_message "a" "g1" false 0 [5].
Definition msg_b : Message := demo_message "b" "g1" false 0 [5].
Definition msg_c : Message := demo_message "c" "g1" false 0 [3].
Definition msg_d : Message := demo_message "d" "g1" false 0 [1].
Definition msg_e : Message := demo_message "e" "g1" false 0 [9].
Definition msg_f : Message := demo_message "f" "g1" false 0 [7].

Definition demo_world : list Guild :=
  [ {| g_id := "g1"; g_name := "Inugoya";
       g_channels :=
         [ {| ch_id := "c9"; ch_name := "awards"; ch_type := GuildText;
              isTextBased := true; isVoiceBased := false; ch_messages := [] |};
           {| ch_id := "c1"; ch_name := "general"; ch_type := GuildText;
              isTextBased := true; isVoiceBased := false;
              ch_messages := [demo_message "m1" "g1" false 0 [2]] |} ] |};
    {| g_id := "g2"; g_name := "Nekogoya";
       g_channels :=
         [ {| ch_id := "c1"; ch_name := "general"; ch_type := GuildText;
              isTextBased := true; isVoiceBased := false;
              ch_messages := [demo_message "m9" "g2" false 0 [4]] |} ] |} ].

(** The awards channel was renamed: the configured name finds nothing. *)
Definition renamed_world : list Guild :=
  [ {| g_id := "g1"; g_name := "Inugoya";
       g_channels :=
         [ {| ch_id := "c9"; ch_name := "hall-of-fame"; ch_type := GuildText;
              isTextBased := true; isVoiceBased := false; ch_messages := [] |} ] |} ].

(** A Wednesday, 09:00 in the zone of [demo]. *)
Definition report_time : Z := 20 * day_ms.

(** ** The guild-removal handler and the event loop *)

Section OtherHandlers.
Context {C : Collaborators}.

(** [client.on(Events.GuildDelete, ...)]: [await stopAward(guild.id)] and
    then [await db.config.unregister(guild.id)]. *)
Definition onGuildDelete (g : string) (atts : list Attempt) (st : State) : Run State :=
  let stopped := stopAward g st in
  let unregistered :=
    await_store stopped.2 (WeeklyAwardConfig.unregister g atts (db stopped.2)) in
  (stopped.1 ++ unregistered.1, unregistered.2).

(** The event loop runs the callback of the pending timeout [h]; a
    timeout that has fired is no longer pending. *)
Definition fire (h : nat) (now : Z) (world : list Guild)
    (atts : list Attempt) (st : State) : Run State :=
  match timers st !! h with
  | Some timer => tick (callback timer) now world atts (clearTimeout h st)
  | None => ([], Returned st)
  end.



End OtherHandlers.

(** Every pending timeout is the one the registry holds for the tenant its
    callback is for, and was handed out by an earlier [setTimeout]. *)
Definition one_loop_per_tenant (st : State) : Prop :=
  forall h timer,
    timers st !! h = Some timer ->
    instances st !! a_guildId (callback timer) = Some h /\ (h < next_timeout st)%nat.

(** Every tracked record has a positive count. *)
Definition counts_positive (d : Db) : Prop :=
  Forall (fun r => 0 < reactions_count r) (reacted_messages d).

(** ** Colour of an embed *)

(** [ToInt32], and [x << n] on numbers that hold integers. *)
Definition to_int32 (z : Z) : Z := (z + 2 ^ 31) mod 2 ^ 32 - 2 ^ 31.

Definition shift_left (x n : Z) : Z := to_int32 (Z.shiftl (to_int32 x) (n mod 32)).

(** [(red << 16) + (green << 8) + blue], of [getAverageColor] in ../util
    and of [getColorAsInt]. *)
Definition rgb_number (red green blue : Z) : Z :=
  shift_left red 16 + shift_left green 8 + blue.

(** [getAverageColor] of [messageToEmbeds]: nothing for a missing avatar
    url, else the packed average colour the library computed. *)
Definition getAverageColor (average : string -> Z * Z * Z)
    (avatarUrl : option string) : option Z :=
  match avatarUrl with
  | None => None
  | Some resource =>
      let '(red, green, blue) := average resource in Some (rgb_number red green blue)
  end.

(** [getColorAsInt] of noExpandedExpand: the packed average colour, or
    black when the library raises an [Error]. *)
Definition getColorAsInt (average : option (Z * Z * Z)) : Z :=
  match average with
  | Some (red, green, blue) => rgb_number red green blue
  | None => 0
  end.

(** ** Links to Discord messages (discordUrlExpand.js) *)

(** [\d] and [\w] of a regular expression without the unicode flag. *)
Definition is_digit (c : Ascii.ascii) : bool :=
  (48 <=? Ascii.nat_of_ascii c)%nat && (Ascii.nat_of_ascii c <=? 57)%nat.

Definition is_word_char (c : Ascii.ascii) : bool :=
  is_digit c
  || ((65 <=? Ascii.nat_of_ascii c)%nat && (Ascii.nat_of_ascii c <=? 90)%nat)
  || ((97 <=? Ascii.nat_of_ascii c)%nat && (Ascii.nat_of_ascii c <=? 122)%nat)
  || (Ascii.nat_of_ascii c =? 95)%nat.

(** The longest run of digits at the head of a string, and what follows. *)
Fixpoint span_digits (s : string) : string * string :=
  match s with
  | EmptyString => (EmptyString, EmptyString)
  | String c s' =>
      if is_digit c
      then (String c (span_digits s').1, (span_digits s').2)
      else (EmptyString, s)
  end.

(** What is left of [s] after the literal [p], if [s] starts with it. *)
Fixpoint strip_prefix (p s : string) : option string :=
  match p with
  | EmptyString => Some s
  | String a p' =>
      match s with
      | EmptyString => None
      | String b s' => if Ascii.eqb a b then strip_prefix p' s' else None
      end
  end.

Definition message_url_prefix : string := "https://discord.com/channels/".

(** One attempt of
    [/https:\/\/discord\.com\/channels\/(\d+)\/(\d+)\/(\d+)\b/]
    at the head of [s]: the three captures and what follows the match.
    Each [\d+] can only take its whole run of digits: the first two are
    followed by a slash, and a shorter third run would leave a digit on
    both sides of [\b]. *)
Definition match_here (s : string) : option (string * string * string * string) :=
  match strip_prefix message_url_prefix s with
  | None => None
  | Some after_prefix =>
      let g := span_digits after_prefix in
      if bool_decide (g.1 = EmptyString) then None
      else match strip_prefix "/" g.2 with
           | None => None
           | Some after_g =>
               let c := span_digits after_g in
               if bool_decide (c.1 = EmptyString) then None
               else match strip_prefix "/" c.2 with
                    | None => None
                    | Some after_c =>
                        let m := span_digits after_c in
                        if bool_decide (m.1 = EmptyString) then None
                        else match m.2 with
                             | EmptyString => Some (g.1, c.1, m.1, m.2)
                             | String next _ =>
                                 if is_word_char next then None
                                 else Some (g.1, c.1, m.1, m.2)
                             end
                    end
           end
  end.

(** [content.matchAll(...)] with the [g] flag: after a match the search
    goes on behind it, after a failure one character further.  [fuel]
    bounds the number of attempts. *)
Fixpoint matchAll_fuel (fuel : nat) (s : string) : list (string * string * string) :=
  match fuel with
  | O => []
  | S fuel' =>
      match match_here s with
      | Some (g, c, m, rest) => (g, c, m) :: matchAll_fuel fuel' rest
      | None =>
          match s with
          | EmptyString => []
          | String _ s' => matchAll_fuel fuel' s'
          end
      end
  end.

Definition matchAll (s : string) : list (string * string * string) :=
  matchAll_fuel (S (String.length s)) s.

Section UrlExpand.
Context {C : Collaborators}.

(** [client.on(Events.MessageCreate, ...)] of discordUrlExpand.js: the
    embeds of each [message.channel.send({ embeds })], in order. *)
Definition onMessageCreate_urlExpand (world : list Guild) (message : Message)
    (channelIsVoiceBased : bool) : list (list Embed) :=
  if bot (author message) || channelIsVoiceBased then []
  else
    flat_map
      (fun ids =>
         match fetchMessageByIds world ids.1.1 ids.1.2 ids.2 with
         | Some referredMessage =>
             let embeds := messageToEmbeds referredMessage true in
             if (0 <? length embeds)%nat then [embeds] else []
         | None => []
         end)
      (matchAll (content message)).
End UrlExpand.

(** ** Previews for links left unexpanded (noExpandedExpand.js) *)

(** [urls.filter(url => !embedUrls.includes(url))
         .filter(url => !url.startsWith('https://discord.com/channels/'))] *)
Definition targetUrls (urls embedUrls : list string) : list string :=
  List.filter (fun url => negb (String.prefix "https://discord.com/channels/" url))
    (List.filter (fun url => negb (bool_decide (url ∈ embedUrls))) urls).

Section NoExpanded.
Context {C : Collaborators}.
(** [urlsOfText] of lib/util; [core], which fetches and renders one url;
    the type of an [AttachmentBuilder]. *)
Context {Attachment : Type}.
Context (urlsOfText : string -> list string).
Context (core : string -> nat -> list Embed * option Attachment).

(** The handler after the five seconds it waits: the embeds and files of
    the reply, if it replies.  [embedUrls] are the [url]s of the embeds the
    message already has, absent for an embed without one. *)
Definition onMessageCreate_noExpanded (message : Message)
    (messageEmbeds : list (option string)) : option (list Embed * list Attachment) :=
  if bot (author message) then None
  else
    let urls := urlsOfText (content message) in
    if (length messageEmbeds <? length urls)%nat then
      let embedUrls := omap (fun url => url) messageEmbeds in
      let results := imap (fun index url => core url index) (targetUrls urls embedUrls) in
      let embeds := flat_map fst results in
      let files := omap snd results in
      if (0 <? length embeds)%nat then Some (embeds, files) else None
    else None.
End NoExpanded.

(** The [content] attribute of the first element a selector finds, and the
    title of the document. *)
Record Document := {
  content_of : string -> option string;
  doc_title : string;
}.

(** [acc || x] and [acc ?? x] on values that are a string or absent. *)
Definition or_else (acc x : option string) : option string :=
  match acc with
  | Some EmptyString | None => x
  | Some _ => acc
  end.

Definition nullish_else (acc x : option string) : option string :=
  match acc with
  | Some _ => acc
  | None => x
  end.

Definition double_quote : string := String (Ascii.ascii_of_nat 34) EmptyString.

(** [meta[property="..."]] and [meta[name="..."]] *)
Definition meta_property (p : string) : string :=
  "meta[property=" +:+ double_quote +:+ p +:+ double_quote +:+ "]".

Definition meta_name (n : string) : string :=
  "meta[name=" +:+ double_quote +:+ n +:+ double_quote +:+ "]".

Definition getTitle (document : Document) : option string :=
  let title :=
    fold_left (fun acc selector => or_else acc (content_of document selector))
      [meta_property "og:title"; meta_name "twitter:title"] None in
  or_else (or_else title (Some (doc_title document))) None.

Definition getDescription (document : Document) : option string :=
  let desc :=
    fold_left (fun acc selector => or_else acc (content_of document selector))
      [meta_property "og:description"; meta_name "twitter:description";
       meta_property "description"; meta_name "description"] None in
  or_else desc None.

Definition getImage {C : Collaborators} (document : Document) : option string :=
  let imageUrl :=
    fold_left (fun acc selector => nullish_else acc (content_of document selector))
      [meta_property "og:image"; meta_name "twitter:image:src"] None in
  match imageUrl with
  | Some u => if isUrl u then Some u else None
  | None => None
  end.

(** Every character of the string is a digit. *)
Fixpoint all_digits (s : string) : bool :=
  match s with
  | EmptyString => true
  | String c s' => is_digit c && all_digits s'
  end.

(** The text of a link to the message [m] of channel [c] of guild [g]. *)
Definition message_url (g c m : string) : string :=
  message_url_prefix +:+ g +:+ "/" +:+ c +:+ "/" +:+ m.

(** The first instant from [now] on at which the clock shows the weekday,
    hour and minute of [args] (for values in their ranges). *)
Definition next_occurrence {C : Collaborators} (now : Z) (args : TickArgs) : Z :=
  let q := local_ms now / 60000 in
  let wanted := ((a_weekday args - 4) mod 7) * 1440 + a_hour args * 60 + a_minute args in
  now + ((wanted - q) mod 10080) * 60000.



(** * Properties *)

(** ** Busy retry *)

Section Retry.
Context {S : Type} (stmt : Z -> S -> S).

Lemma stmt_run_retry_busy_prefix (prefix rest : list Attempt) (s : S) :
  forallb busy_attempt prefix = true ->
  stmt_run_retry stmt (prefix ++ rest) s
  = (repeat Slept (length prefix) ++ (stmt_run_retry stmt rest s).1,
     (stmt_run_retry stmt rest s).2).
Proof.
  induction prefix as [|a prefix IH]; simpl; intros Hb.
  - by destruct (stmt_run_retry stmt rest s).
  - apply andb_true_iff in Hb as [Ha Hb]. unfold busy_attempt in Ha.
    destruct (fault a) as [e|]; [|done]. rewrite Ha, (IH Hb). reflexivity.
Qed.

Lemma stmt_run_retry_thrown (atts : list Attempt) (s : S) tr e :
  stmt_run_retry stmt atts s = (tr, Thrown e) ->
  is_busy e = false /\ exists a, In a atts /\ fault a = Some e.
Proof.
  revert tr. induction atts as [|a atts IH]; simpl; intros tr Hr; [done|].
  destruct (fault a) as [e'|] eqn:Hf; [|done].
  destruct (is_busy e') eqn:Hbusy.
  - unfold emit in Hr. simpl in Hr.
    destruct (stmt_run_retry stmt atts s) as [tr' c] eqn:Hrec. simpl in Hr.
    inversion Hr; subst. destruct (IH _ eq_refl) as [? (a' & ? & ?)]. eauto.
  - inversion Hr; subst. eauto.
Qed.

Lemma stmt_run_retry_returned (atts : list Attempt) (s s' : S) tr :
  stmt_run_retry stmt atts s = (tr, Returned s') ->
  exists prefix now rest,
    atts = prefix ++ ok_at now :: rest /\ forallb busy_attempt prefix = true
    /\ s' = stmt now s /\ tr = repeat Slept (length prefix).
Proof.
  revert tr. induction atts as [|a atts IH]; simpl; intros tr Hr; [done|].
  destruct a as [now f]. simpl in Hr. destruct f as [e|].
  - destruct (is_busy e) eqn:Hbusy; [|done].
    unfold emit in Hr. simpl in Hr.
    destruct (stmt_run_retry stmt atts s) as [tr' c] eqn:Hrec. simpl in Hr.
    inversion Hr; subst.
    destruct (IH _ eq_refl) as (prefix & now' & rest & -> & Hb & -> & ->).
    exists (failing now e :: prefix), now', rest. simpl.
    unfold busy_attempt at 1. simpl. rewrite Hbusy. done.
  - inversion Hr; subst. exists [], now, atts. done.
Qed.
End Retry.

Section DeleteOutdated.
Lemma deleteOutdated_busy_prefix g days (prefix rest : list Attempt) (d : Db) :
  forallb busy_attempt prefix = true ->
  WeeklyAward.deleteOutdated g days (prefix ++ rest) d
  = (repeat Slept (length prefix) ++ (WeeklyAward.deleteOutdated g days rest d).1,
     (WeeklyAward.deleteOutdated g days rest d).2).
Proof.
  induction prefix as [|a prefix IH]; simpl; intros Hb.
  - by destruct (WeeklyAward.deleteOutdated g days rest d).
  - apply andb_true_iff in Hb as [Ha Hb]. unfold busy_attempt in Ha.
    destruct (fault a) as [e|]; [|done]. rewrite Ha, (IH Hb). reflexivity.
Qed.

Lemma deleteOutdated_thrown_bounded g days (n : nat) :
  forall (atts : list Attempt) (d : Db) tr e,
    (length atts <= n)%nat ->
    WeeklyAward.deleteOutdated g days atts d = (tr, Thrown e) ->
    is_busy e = false /\ exists a, In a atts /\ fault a = Some e.
Proof.
  induction n as [|n IH]; intros atts d tr e Hlen Hr.
  - destruct atts; [done | simpl in Hlen; lia].
  - destruct atts as [|a1 rest1]; [done|]. simpl in Hlen, Hr.
    destruct (fault a1) as [e1|] eqn:Hf1.
    + destruct (is_busy e1) eqn:Hb1.
      * unfold emit in Hr. simpl in Hr.
        destruct (WeeklyAward.deleteOutdated g days rest1 d) as [tr' c] eqn:Hrec.
        simpl in Hr. inversion Hr; subst.
        destruct (IH rest1 d tr' e ltac:(lia) Hrec) as [? (a' & ? & ?)].
        split; [done|]. exists a'. split; [by right | done].
      * inversion Hr; subst. split; [done|]. exists a1. split; [by left | done].
    + unfold emit in Hr. simpl in Hr.
      destruct (0 <? _); [|done].
      destruct rest1 as [|a2 rest2]; [done|]. simpl in Hlen.
      destruct (fault a2) as [e2|] eqn:Hf2; [|done].
      destruct (is_busy e2) eqn:Hb2.
      * unfold emit in Hr. simpl in Hr.
        destruct (WeeklyAward.deleteOutdated g days rest2 d) as [tr' c] eqn:Hrec.
        simpl in Hr. inversion Hr; subst.
        destruct (IH rest2 d tr' e ltac:(lia) Hrec) as [? (a' & ? & ?)].
        split; [done|]. exists a'. split; [by right; right | done].
      * simpl in Hr. inversion Hr; subst. split; [done|].
        exists a2. split; [by right; left | done].
Qed.
End DeleteOutdated.

(** C7. Every mutating store call ([set], [delete], [deleteOutdated],
    [register], [unregister], and [set]/[delete] of the times table)
    treats the busy failure alike: it is never the error the caller sees
    (a thrown error is always one of the non-busy faults, as raised); each
    busy failure is followed by one [await setTimeout()] and a fresh call
    with the same arguments, for any number of busy failures in a row; once
    the statements run the call returns; and a failure that is not the busy
    one is thrown to the caller as it is.  For the generator the same holds
    when the second statement (the delete) is the one that fails. *)
Theorem busy_retry_contract (op : MutatingCall) (d : Db) :
  (forall atts tr e,
      call op atts d = (tr, Thrown e) ->
      is_busy e = false /\ exists a, In a atts /\ fault a = Some e)
  /\ (forall prefix rest,
         forallb busy_attempt prefix = true ->
         call op (prefix ++ rest) d
         = (repeat Slept (length prefix) ++ (call op rest d).1, (call op rest d).2))
  /\ (forall prefix t1 t2 rest,
         forallb busy_attempt prefix = true ->
         exists tr d',
           call op (prefix ++ ok_at t1 :: ok_at t2 :: rest) d
           = (repeat Slept (length prefix) ++ tr, Returned d')
           /\ ~ In Slept tr)
  /\ (forall now e rest,
         is_busy e = false ->
         call op (failing now e :: rest) d = ([], Thrown e))
  /\ (forall g days t1 now e rest,
         op = CallDeleteOutdated g days ->
         0 < count_outdated_stmt t1 g days (reacted_messages d) ->
         call op (ok_at t1 :: failing now e :: rest) d
         = emit (Yielded (Some (count_outdated_stmt t1 g days (reacted_messages d))))
             (if is_busy e then emit Slept (call op rest d) else ([], Thrown e))).
Proof.
  split; [|split; [|split; [|split]]].
  - intros atts tr e Hr. destruct op; simpl in Hr;
      try (eapply stmt_run_retry_thrown; exact Hr).
    eapply deleteOutdated_thrown_bounded; [reflexivity | exact Hr].
  - intros prefix rest Hb. destruct op; simpl;
      try (by apply stmt_run_retry_busy_prefix).
    by apply deleteOutdated_busy_prefix.
  - intros prefix t1 t2 rest Hb.
    destruct op; simpl;
      unfold WeeklyAward.set, WeeklyAward.delete, WeeklyAwardConfig.register,
        WeeklyAwardConfig.unregister, WeeklyAwardTime.set, WeeklyAwardTime.delete;
      try (eexists [], _; rewrite (stmt_run_retry_busy_prefix _ _ _ _ Hb);
           simpl; split; [reflexivity | by intros []]).
    rewrite (deleteOutdated_busy_prefix _ _ _ _ _ Hb). simpl.
    destruct (0 <? _); simpl.
    + eexists [_; _], _. split; [reflexivity|]. by intros [|[|[]]].
    + eexists [_], _. split; [reflexivity|]. by intros [|[]].
  - intros now e rest He.
    destruct op; simpl;
      unfold WeeklyAward.set, WeeklyAward.delete, WeeklyAwardConfig.register,
        WeeklyAwardConfig.unregister, WeeklyAwardTime.set, WeeklyAwardTime.delete;
      simpl; by rewrite He.
  - intros g days t1 now e rest -> Hc. simpl.
    apply Z.ltb_lt in Hc. rewrite Hc. reflexivity.
Qed.

Lemma busy_retry_contract_witness :
  let m := demo_message "m1" "g1" false 0 [3] in
  let busy2 := [failing 10 busy_error; failing 20 busy_error] in
  forallb busy_attempt busy2 = true
  /\ is_busy disk_error = false
  /\ call (CallSet m 3) (busy2 ++ [ok_at 3000; ok_at 4000]) empty_db
     = ([Slept; Slept],
        Returned (with_messages (upsert_stmt (set_params m 3 3000)) empty_db))
  /\ call (CallSet m 3) (busy2 ++ [failing 30 disk_error]) empty_db
     = ([Slept; Slept], Thrown disk_error).
Proof.
  intros m busy2.
  destruct (busy_retry_contract (CallSet m 3) empty_db)
    as (_ & Hretry & _ & Hthrow & _).
  split; [reflexivity|]. split; [reflexivity|]. split.
  - rewrite (Hretry busy2 [ok_at 3000; ok_at 4000] eq_refl). reflexivity.
  - rewrite (Hretry busy2 [failing 30 disk_error] eq_refl).
    rewrite (Hthrow 30 disk_error [] eq_refl). reflexivity.
Defined.

(** ** Upsert *)

Lemma row_key_on_conflict (p r : Row) : row_key (on_conflict p r) = row_key r.
Proof. reflexivity. Qed.

Lemma upsert_stmt_keys (p : Row) (tbl : list Row) :
  map row_key (upsert_stmt p tbl)
  = if bool_decide (row_key p ∈ map row_key tbl) then map row_key tbl
    else map row_key tbl ++ [row_key p].
Proof.
  induction tbl as [|r tbl IH]; simpl; [done|].
  destruct (decide (row_key r = row_key p)) as [Hk|Hk].
  - rewrite (bool_decide_true (row_key r = _)) by done.
    rewrite bool_decide_true; [reflexivity|]. rewrite Hk. by left.
  - rewrite (bool_decide_false (row_key r = _)) by done. simpl. rewrite IH.
    destruct (decide (row_key p ∈ map row_key tbl)) as [Hin|Hin].
    + rewrite !bool_decide_true; [done | by right | done].
    + rewrite !bool_decide_false; [done | | done].
      intros [Heq | Hin']%elem_of_cons; [by symmetry in Heq | done].
Qed.

(** The primary key stays a key. *)
Lemma upsert_stmt_NoDup (p : Row) (tbl : list Row) :
  NoDup (map row_key tbl) -> NoDup (map row_key (upsert_stmt p tbl)).
Proof.
  intros Hnd. rewrite upsert_stmt_keys. case_bool_decide as Hin; [done|].
  apply NoDup_app. split; [done|]. split; [|apply NoDup_singleton].
  intros k Hk Hk'%list_elem_of_singleton. by subst.
Qed.

Lemma filter_key_absent (k : Key) (tbl : list Row) :
  k ∉ map row_key tbl -> filter (fun r => row_key r = k) tbl = [].
Proof.
  induction tbl as [|r tbl IH]; simpl; intros Hk; [done|].
  rewrite not_elem_of_cons in Hk. destruct Hk as [Hne Hk].
  rewrite filter_cons_False by done. by apply IH.
Qed.

Lemma upsert_stmt_lookup (p : Row) (tbl : list Row) :
  NoDup (map row_key tbl) ->
  filter (fun r => row_key r = row_key p) (upsert_stmt p tbl)
  = [from_option (on_conflict p) p
       (head (filter (fun r => row_key r = row_key p) tbl))].
Proof.
  induction tbl as [|r tbl IH]; simpl; intros Hnd.
  - by rewrite filter_cons_True, filter_nil.
  - apply NoDup_cons in Hnd as [Hr Hnd].
    destruct (decide (row_key r = row_key p)) as [Hk|Hk];
      [rewrite bool_decide_true by done | rewrite bool_decide_false by done].
    + rewrite filter_cons_True by done.
      rewrite (filter_cons_True _ r) by done. simpl.
      rewrite filter_key_absent; [done|]. by rewrite <- Hk.
    + rewrite !filter_cons_False by done. by apply IH.
Qed.

Lemma upsert_stmt_frame (p : Row) (tbl : list Row) :
  filter (fun r => row_key r <> row_key p) (upsert_stmt p tbl)
  = filter (fun r => row_key r <> row_key p) tbl.
Proof.
  induction tbl as [|r tbl IH]; simpl.
  - rewrite filter_cons_False; [done|]. by intros Hne.
  - destruct (decide (row_key r = row_key p)) as [Hk|Hk];
      [rewrite bool_decide_true by done | rewrite bool_decide_false by done].
    + rewrite !filter_cons_False; [done| |]; intros Hne; by apply Hne.
    + rewrite !filter_cons_True by done. by rewrite IH.
Qed.

Lemma set_returned (message : Message) (count : Z)
    (atts : list Attempt) (d d' : Db) tr :
  WeeklyAward.set message count atts d = (tr, Returned d') ->
  exists now, In (ok_at now) atts
              /\ d' = with_messages (upsert_stmt (set_params message count now)) d.
Proof.
  intros (prefix & now & rest & -> & _ & -> & _)%stmt_run_retry_returned.
  exists now. split; [|done]. apply in_app_iff. right. by left.
Qed.

(** C5. Two upserts of one key, whatever the two counts, on a table whose
    primary key is unique: after the second there is exactly one row with
    the key; it carries the second count, keeps the [created_at] and the
    item [timestamp] the row had after the first upsert (those written by
    the first upsert when the key was new), and its [updated_at] is the
    clock of the second statement; the rows with other keys, in their
    order, and the two other tables are as they were. *)
Theorem upsert_twice (m1 m2 : Message) (c1 c2 : Z)
    (atts1 atts2 : list Attempt) (d0 d1 d2 : Db) (tr1 tr2 : list StoreEvent) :
  let k := (guildId m1, channelId m1, id m1) in
  NoDup (map row_key (reacted_messages d0)) ->
  (guildId m2, channelId m2, id m2) = k ->
  WeeklyAward.set m1 c1 atts1 d0 = (tr1, Returned d1) ->
  WeeklyAward.set m2 c2 atts2 d1 = (tr2, Returned d2) ->
  exists r1 r2 now1 now2,
    In (ok_at now1) atts1 /\ In (ok_at now2) atts2
    /\ filter (fun r => row_key r = k) (reacted_messages d1) = [r1]
    /\ filter (fun r => row_key r = k) (reacted_messages d2) = [r2]
    /\ reactions_count r2 = c2
    /\ created_at r2 = created_at r1
    /\ timestamp r2 = timestamp r1
    /\ updated_at r2 = datetime_now now2
    /\ (k ∉ map row_key (reacted_messages d0) ->
        r1 = set_params m1 c1 now1)
    /\ filter (fun r => row_key r <> k) (reacted_messages d2)
       = filter (fun r => row_key r <> k) (reacted_messages d0)
    /\ NoDup (map row_key (reacted_messages d2))
    /\ post_target d2 = post_target d0 /\ times d2 = times d0.
Proof.
  intros k Hnd Hk (now1 & Hin1 & ->)%set_returned (now2 & Hin2 & ->)%set_returned.
  set (p1 := set_params m1 c1 now1). set (p2 := set_params m2 c2 now2).
  assert (Hk1 : row_key p1 = k) by reflexivity.
  assert (Hk2 : row_key p2 = k) by (unfold p2, row_key; simpl; done).
  simpl reacted_messages.
  pose proof (upsert_stmt_NoDup p1 _ Hnd) as Hnd1.
  pose proof (upsert_stmt_lookup p1 _ Hnd) as Hl1.
  pose proof (upsert_stmt_lookup p2 _ Hnd1) as Hl2.
  rewrite Hk1 in Hl1. rewrite Hk2 in Hl2. rewrite Hl1 in Hl2. simpl in Hl2.
  eexists _, _, now1, now2.
  split; [done|]. split; [done|]. split; [exact Hl1|]. split; [exact Hl2|].
  split; [done|]. split; [done|]. split; [done|]. split; [done|].
  split; [|split; [|split; [by apply upsert_stmt_NoDup | done]]].
  - intros Hfresh. by rewrite filter_key_absent.
  - pose proof (upsert_stmt_frame p2 (upsert_stmt p1 (reacted_messages d0))) as F2.
    pose proof (upsert_stmt_frame p1 (reacted_messages d0)) as F1.
    rewrite Hk2 in F2. rewrite Hk1 in F1. by rewrite F2, F1.
Qed.

Lemma upsert_twice_witness :
  let m := demo_message "m1" "g1" false 500 [2] in
  let d0 := with_messages (fun _ => [demo_row "m0" "g2" 4 100]) empty_db in
  let d1 := with_messages (upsert_stmt (set_params m 2 1000500)) d0 in
  let d2 := with_messages (upsert_stmt (set_params m 5 2000999)) d1 in
  NoDup (map row_key (reacted_messages d0))
  /\ WeeklyAward.set m 2 [ok_at 1000500] d0 = ([], Returned d1)
  /\ WeeklyAward.set m 5 [failing 2000000 busy_error; ok_at 2000999] d1
     = ([Slept], Returned d2)
  /\ reacted_messages d2
     = [demo_row "m0" "g2" 4 100;
        on_conflict (set_params m 5 2000999) (set_params m 2 1000500)]
  /\ exists r1 r2 now1 now2,
      In (ok_at now1) [ok_at 1000500]
      /\ In (ok_at now2) [failing 2000000 busy_error; ok_at 2000999]
      /\ filter (fun r => row_key r = ("g1", "c1", "m1")) (reacted_messages d1) = [r1]
      /\ filter (fun r => row_key r = ("g1", "c1", "m1")) (reacted_messages d2) = [r2]
      /\ reactions_count r2 = 5
      /\ created_at r2 = created_at r1
      /\ timestamp r2 = timestamp r1
      /\ updated_at r2 = datetime_now now2
      /\ (("g1", "c1", "m1") ∉ map row_key (reacted_messages d0) ->
          r1 = set_params m 2 now1)
      /\ filter (fun r => row_key r <> ("g1", "c1", "m1")) (reacted_messages d2)
         = filter (fun r => row_key r <> ("g1", "c1", "m1")) (reacted_messages d0)
      /\ NoDup (map row_key (reacted_messages d2))
      /\ post_target d2 = post_target d0 /\ times d2 = times d0.
Proof.
  intros m d0 d1 d2.
  assert (Hnd : NoDup (map row_key (reacted_messages d0))).
  { apply NoDup_singleton. }
  split; [exact Hnd|]. split; [reflexivity|]. split; [reflexivity|].
  split; [reflexivity|].
  exact (upsert_twice m m 2 5 [ok_at 1000500]
           [failing 2000000 busy_error; ok_at 2000999] d0 d1 d2 [] [Slept]
           Hnd eq_refl eq_refl eq_refl).
Defined.

(** ** Outdated clean-up *)

Lemma outdated_spec (now : Z) (g : string) (days : Z) (r : Row) :
  outdated now g days r = true <-> older_than now g days r.
Proof.
  unfold outdated, older_than.
  rewrite andb_true_iff, bool_decide_eq_true, Z.ltb_lt. done.
Qed.

Lemma count_outdated_stmt_spec (now : Z) (g : string) (days : Z) (tbl : list Row) :
  count_outdated_stmt now g days tbl
  = Z.of_nat (length (filter (older_than now g days) tbl)).
Proof.
  unfold count_outdated_stmt. f_equal. f_equal.
  apply list_filter_iff. intros r. apply outdated_spec.
Qed.

Lemma delete_outdated_stmt_spec (now : Z) (g : string) (days : Z) (tbl : list Row) :
  delete_outdated_stmt now g days tbl
  = filter (fun r => ~ older_than now g days r) tbl.
Proof.
  unfold delete_outdated_stmt. apply list_filter_iff. intros r.
  rewrite <- outdated_spec. by destruct (outdated now g days r).
Qed.

(** C6, as stated, fails.  The count query and the delete statement each
    read the clock for themselves, and the generator hands the count to
    its caller in between.  Here one record is 8 days old and one exactly
    7 days old when the count is taken, and the delete runs a millisecond
    later: the count is 1, and both records are deleted, the second one
    without having been counted. *)
Lemma deleteOutdated_deletes_uncounted :
  let t1 := 20 * day_ms in
  let eight := demo_row "eight" "g1" 2 (t1 - 8 * day_ms) in
  let seven := demo_row "seven" "g1" 1 (t1 - 7 * day_ms) in
  let d := with_messages (fun _ => [eight; seven]) empty_db in
  filter (older_than t1 "g1" 7) (reacted_messages d) = [eight]
  /\ WeeklyAward.deleteOutdated "g1" 7 [ok_at t1; ok_at (t1 + 1)] d
     = ([Yielded (Some 1); Yielded None], Returned empty_db)
  /\ ~ older_than t1 "g1" 7 seven.
Proof.
  split; [reflexivity|]. split; [reflexivity|].
  intros [_ Hage]. vm_compute in Hage. discriminate Hage.
Qed.

(** C6, amended.  For every tenant and window, [deleteOutdated] first
    yields the number of the tenant's records whose age exceeds [days] at
    the clock of the count query.  Only when that number is positive it
    then deletes the tenant's records whose age exceeds [days] at the
    clock of the delete statement and yields the completion signal; when
    it is zero it stops after the count and leaves the table alone.  A
    delete that does not run before the count deletes every record that
    was counted, and when both statements read the same clock it deletes
    exactly those.  With records aged 5, 8 and 10 days at the count and a
    window of 7 days it yields 2, deletes the two older records and keeps
    the 5-day one, as long as the delete runs within two days of the
    count. *)
Theorem deleteOutdated_two_phase (g : string) (days now1 now2 : Z)
    (rest : list Attempt) (d : Db) :
  let count := Z.of_nat (length (filter (older_than now1 g days) (reacted_messages d))) in
  WeeklyAward.deleteOutdated g days (ok_at now1 :: ok_at now2 :: rest) d
  = (if 0 <? count
     then ([Yielded (Some count); Yielded None],
           Returned (with_messages
                       (filter (fun r => ~ older_than now2 g days r)) d))
     else ([Yielded (Some count)], Returned d))
  /\ WeeklyAward.deleteOutdated g days [ok_at now1] d
     = (if 0 <? count then ([Yielded (Some count)], Pending)
        else ([Yielded (Some count)], Returned d))
  /\ (now1 <= now2 ->
      forall r, older_than now1 g days r -> older_than now2 g days r)
  /\ (now1 = now2 ->
      filter (fun r => ~ older_than now2 g days r) (reacted_messages d)
      = filter (fun r => ~ older_than now1 g days r) (reacted_messages d))
  /\ (forall late,
         0 <= late <= 2 * day_ms ->
         WeeklyAward.deleteOutdated "g1" 7 [ok_at (20 * day_ms); ok_at (20 * day_ms + late)]
           (with_messages (fun _ => aged_rows (20 * day_ms)) empty_db)
         = ([Yielded (Some 2); Yielded None],
            Returned (with_messages
                        (fun _ => [demo_row "five" "g1" 1 (15 * day_ms)]) empty_db))).
Proof.
  intros count. split; [|split; [|split; [|split]]].
  - simpl. rewrite count_outdated_stmt_spec. fold count.
    destruct (0 <? count); [|reflexivity].
    unfold emit, with_messages. simpl. by rewrite delete_outdated_stmt_spec.
  - simpl. rewrite count_outdated_stmt_spec. fold count.
    by destruct (0 <? count).
  - intros Hle r [Hg Hage]. split; [done | lia].
  - by intros ->.
  - intros late Hlate.
    assert (Hcount : count_outdated_stmt (20 * day_ms) "g1" 7
                       (aged_rows (20 * day_ms)) = 2) by reflexivity.
    assert (Hdel : delete_outdated_stmt (20 * day_ms + late) "g1" 7
                     (aged_rows (20 * day_ms))
                   = [demo_row "five" "g1" 1 (15 * day_ms)]).
    { unfold delete_outdated_stmt, aged_rows.
      assert (Hfive : outdated (20 * day_ms + late) "g1" 7
                        (demo_row "five" "g1" 1 (20 * day_ms - 5 * day_ms)) = false).
      { unfold outdated. apply andb_false_iff. right. apply Z.ltb_ge.
        change (timestamp (demo_row "five" "g1" 1 (20 * day_ms - 5 * day_ms)))
          with (20 * day_ms - 5 * day_ms). unfold day_ms in *. lia. }
      assert (Height : outdated (20 * day_ms + late) "g1" 7
                         (demo_row "eight" "g1" 2 (20 * day_ms - 8 * day_ms)) = true).
      { unfold outdated. apply andb_true_iff. split; [reflexivity|]. apply Z.ltb_lt.
        change (timestamp (demo_row "eight" "g1" 2 (20 * day_ms - 8 * day_ms)))
          with (20 * day_ms - 8 * day_ms). unfold day_ms in *. lia. }
      assert (Hten : outdated (20 * day_ms + late) "g1" 7
                       (demo_row "ten" "g1" 3 (20 * day_ms - 10 * day_ms)) = true).
      { unfold outdated. apply andb_true_iff. split; [reflexivity|]. apply Z.ltb_lt.
        change (timestamp (demo_row "ten" "g1" 3 (20 * day_ms - 10 * day_ms)))
          with (20 * day_ms - 10 * day_ms). unfold day_ms in *. lia. }
      rewrite filter_cons_True by (by rewrite Hfive).
      rewrite filter_cons_False by (by rewrite Height).
      rewrite filter_cons_False by (by rewrite Hten).
      reflexivity. }
    unfold WeeklyAward.deleteOutdated, ok_at, emit, with_messages, empty_db.
    cbn [fault clock reacted_messages post_target times fst snd].
    rewrite Hcount, Hdel. reflexivity.
Qed.

Lemma deleteOutdated_two_phase_witness :
  WeeklyAward.deleteOutdated "g1" 7 [ok_at (20 * day_ms); ok_at (20 * day_ms + 1000)]
    (with_messages (fun _ => aged_rows (20 * day_ms)) empty_db)
  = ([Yielded (Some 2); Yielded None],
     Returned (with_messages
                 (fun _ => [demo_row "five" "g1" 1 (15 * day_ms)]) empty_db)).
Proof.
  apply (proj2 (proj2 (proj2 (proj2
           (deleteOutdated_two_phase "g1" 7 (20 * day_ms) (20 * day_ms + 1000) []
              empty_db)))) 1000).
  vm_compute. split; discriminate.
Defined.

(** ** Stopping a tenant's loop *)

(** C2, as stated, fails.  With a pending timeout and no config row,
    [stopAward] returns the state it was given: the timeout is still armed
    and the registry still maps the tenant to it.  With a config row the
    timeout is cleared, and the registry still maps the tenant to it. *)
Lemma stopAward_keeps_registry_entry :
  instances waiting_unregistered !! "g1" = Some 0%nat
  /\ (stopAward (C:=demo) "g1" waiting_unregistered).2 = waiting_unregistered
  /\ timers (stopAward (C:=demo) "g1" waiting_unregistered).2 !! 0%nat
     = Some {| delay := 1000; callback := demo_args |}
  /\ instances (stopAward (C:=demo) "g1" waiting_unregistered).2 !! "g1" = Some 0%nat
  /\ timers (stopAward (C:=demo) "g1" waiting_registered).2 !! 0%nat = None
  /\ instances (stopAward (C:=demo) "g1" waiting_registered).2 !! "g1" = Some 0%nat.
Proof. repeat split; reflexivity. Qed.

(** C2, amended.  [stopAward] never changes the registry nor the store.
    When a config row for the tenant is found and the registry holds a
    timeout for it, that timeout, and no other, is cleared; when no config
    row is found the whole state is left as it was. *)
Theorem stopAward_clears_only_with_config {C : Collaborators} (g : string) (st : State) :
  let st' := (stopAward g st).2 in
  instances st' = instances st
  /\ db st' = db st
  /\ next_timeout st' = next_timeout st
  /\ (forall configRecord h,
         WeeklyAwardConfig.get g (db st) = Some configRecord ->
         instances st !! g = Some h ->
         timers st' = base.delete h (timers st) /\ timers st' !! h = None)
  /\ (forall configRecord,
         WeeklyAwardConfig.get g (db st) = Some configRecord ->
         instances st !! g = None -> st' = st)
  /\ (WeeklyAwardConfig.get g (db st) = None -> st' = st).
Proof.
  unfold stopAward.
  destruct (WeeklyAwardConfig.get g (db st)) as [configRecord|] eqn:Hc; simpl.
  - destruct (instances st !! g) as [h|] eqn:Hi; simpl.
    + do 3 (split; [reflexivity|]). split; [|split; [|done]].
      * intros ? h' _ [= <-]. split; [reflexivity | apply lookup_delete_eq].
      * by intros.
    + do 3 (split; [reflexivity|]). split; [|split; [|done]]; by intros.
  - do 3 (split; [reflexivity|]). split; [|split; [|done]]; by intros.
Qed.

Lemma stopAward_clears_only_with_config_witness :
  WeeklyAwardConfig.get "g1" (db waiting_registered) = Some demo_config
  /\ instances waiting_registered !! "g1" = Some 0%nat
  /\ timers (stopAward (C:=demo) "g1" waiting_registered).2
     = base.delete 0%nat (timers waiting_registered)
  /\ WeeklyAwardConfig.get "g1" (db waiting_unregistered) = None
  /\ (stopAward (C:=demo) "g1" waiting_unregistered).2 = waiting_unregistered.
Proof.
  destruct (stopAward_clears_only_with_config (C:=demo) "g1" waiting_registered)
    as (_ & _ & _ & Hclear & _ & _).
  destruct (stopAward_clears_only_with_config (C:=demo) "g1" waiting_unregistered)
    as (_ & _ & _ & _ & _ & Hnone).
  split; [reflexivity|]. split; [reflexivity|].
  split; [exact (proj1 (Hclear demo_config 0%nat eq_refl eq_refl))|].
  split; [reflexivity|]. exact (Hnone eq_refl).
Defined.

(** ** Reaction events *)

Lemma upsert_stmt_has_row (p : Row) (tbl : list Row) :
  exists row, row ∈ upsert_stmt p tbl
              /\ row_key row = row_key p
              /\ reactions_count row = reactions_count p.
Proof.
  induction tbl as [|r tbl (row & Hin & Hk & Hc)]; simpl.
  - exists p. split; [by left | done].
  - destruct (decide (row_key r = row_key p)) as [Hr|Hr];
      [rewrite bool_decide_true by done | rewrite bool_decide_false by done].
    + exists (on_conflict p r). split; [by left | done].
    + exists row. split; [by right | done].
Qed.

Lemma delete_stmt_gone (k : Key) (tbl : list Row) :
  k ∉ map row_key (delete_stmt k tbl).
Proof.
  unfold delete_stmt. intros (r & -> & Hin)%list_elem_of_fmap.
  apply list_elem_of_filter in Hin as [Hne _]. done.
Qed.

(** C10, as stated, fails.  Both handlers return at once for a message
    written by a bot (and for one outside a guild).  A reaction-removed
    event on a bot's message that still has three reactions puts no record
    in the table, and one on a bot's message whose total has reached zero
    leaves the record that is there. *)
Lemma reaction_removed_skips_bot_messages :
  let reacted := demo_message "m1" "g1" true 500 [2; 1] in
  let bare := demo_message "m1" "g1" true 500 [] in
  let row := demo_row "m1" "g1" 3 500 in
  total_count reacted = 3
  /\ onMessageReactionRemove (C:=demo) reacted [ok_at 7000] (demo_state [])
     = ([], Returned (demo_state []))
  /\ total_count bare = 0
  /\ row_key row = (guildId bare, channelId bare, id bare)
  /\ onMessageReactionRemove (C:=demo) bare [ok_at 9000] (demo_state [row])
     = ([], Returned (demo_state [row])).
Proof. repeat split; reflexivity. Qed.

(** C10, amended.  For a message posted in a guild and not written by a
    bot: the reaction-added handler upserts the record only when the
    message's guild has a row in post_target, and leaves the state alone
    otherwise; the reaction-removed handler never looks at post_target,
    it upserts the record when the total of the reaction counts is
    positive, which puts a row with that total under the message's key
    whether or not the guild is registered, and otherwise it deletes the
    record, after which no row has the key.  For a message written by a
    bot or posted outside a guild both handlers return at once and change
    nothing. *)
Theorem reaction_handlers {C : Collaborators} (message : Message)
    (atts : list Attempt) (st : State) :
  let k := (guildId message, channelId message, id message) in
  (WeeklyAwardConfig.get (guildId message) (db st) = None ->
   onMessageReactionAdd message atts st = ([], Returned st))
  /\ (bot (author message) = false -> inGuild message = true ->
      (is_Some (WeeklyAwardConfig.get (guildId message) (db st)) ->
       onMessageReactionAdd message atts st
       = await_store st (WeeklyAward.set message (total_count message) atts (db st)))
      /\ onMessageReactionRemove message atts st
         = (if 0 <? total_count message
            then await_store st
                   (WeeklyAward.set message (total_count message) atts (db st))
            else await_store st
                   (WeeklyAward.delete (guildId message) (channelId message)
                      (id message) atts (db st)))
      /\ (forall now rest,
             exists st',
               onMessageReactionRemove message (ok_at now :: rest) st
               = ([], Returned st')
               /\ post_target (db st') = post_target (db st)
               /\ if 0 <? total_count message
                  then exists row, row ∈ reacted_messages (db st')
                                   /\ row_key row = k
                                   /\ reactions_count row = total_count message
                  else k ∉ map row_key (reacted_messages (db st'))))
  /\ (bot (author message) = true \/ inGuild message = false ->
      onMessageReactionAdd message atts st = ([], Returned st)
      /\ onMessageReactionRemove message atts st = ([], Returned st)).
Proof.
  intros k. unfold onMessageReactionAdd, onMessageReactionRemove.
  split; [|split].
  - intros ->. by destruct (bot (author message) || negb (inGuild message)).
  - intros -> ->. simpl. split; [|split].
    + by intros [c ->].
    + reflexivity.
    + intros now rest. destruct (0 <? total_count message) eqn:Hpos.
      * eexists. split; [reflexivity|]. split; [reflexivity|]. simpl.
        apply (upsert_stmt_has_row (set_params message (total_count message) now)).
      * eexists. split; [reflexivity|]. split; [reflexivity|]. simpl.
        apply delete_stmt_gone.
  - intros [-> | ->]; simpl; [done|]. rewrite orb_true_r. done.
Qed.

Lemma reaction_handlers_witness :
  let message := demo_message "m1" "g1" false 500 [2; 1] in
  let gone := demo_message "m1" "g1" false 500 [] in
  let st := demo_state [] in
  WeeklyAwardConfig.get "g1" (db st) = None
  /\ bot (author message) = false /\ inGuild message = true
  /\ onMessageReactionAdd (C:=demo) message [ok_at 7000] st = ([], Returned st)
  /\ onMessageReactionRemove (C:=demo) message [ok_at 7000] st
     = ([], Returned (demo_state [set_params message 3 7000]))
  /\ onMessageReactionRemove (C:=demo) gone [ok_at 9000]
       (demo_state [set_params message 3 7000])
     = ([], Returned st).
Proof.
  intros message gone st.
  destruct (reaction_handlers (C:=demo) message [ok_at 7000] st)
    as (Hadd & Hhuman & _).
  destruct (Hhuman eq_refl eq_refl) as (_ & Hremove & _).
  destruct (reaction_handlers (C:=demo) gone [ok_at 9000]
              (demo_state [set_params message 3 7000])) as (_ & Hhuman' & _).
  destruct (Hhuman' eq_refl eq_refl) as (_ & Hremove' & _).
  split; [reflexivity|]. split; [reflexivity|]. split; [reflexivity|].
  split; [exact (Hadd eq_refl)|].
  split; [rewrite Hremove | rewrite Hremove']; reflexivity.
Defined.

(** ** Tally *)

Section SortFacts.
Context {A : Type} (cmp : A -> A -> Z).

Lemma sort_insert_perm (x : A) (l : list A) : sort_insert cmp x l ≡ₚ x :: l.
Proof.
  induction l as [|y l IH]; simpl; [done|].
  destruct (cmp x y <=? 0); [done|]. rewrite IH. apply Permutation_swap.
Qed.

Lemma Array_sort_perm (l : list A) : Array_sort cmp l ≡ₚ l.
Proof.
  induction l as [|x l IH]; simpl; [done|].
  rewrite sort_insert_perm. by rewrite IH.
Qed.
End SortFacts.

Section KeyOrder.
Context {V : Type}.
Implicit Types (o l : list (Z * V)) (e : Z * V).

Lemma sort_insert_desc e l :
  StronglySorted (fun a b => b.1 <= a.1) l ->
  StronglySorted (fun a b => b.1 <= a.1) (sort_insert by_count_desc e l).
Proof.
  induction 1 as [|y l Hs IH Hy]; simpl.
  - repeat constructor.
  - unfold by_count_desc at 1. destruct (Z.leb_spec (y.1 - e.1) 0) as [Hle|Hgt].
    + constructor; [by constructor|]. constructor; [lia|].
      eapply Forall_impl; [exact Hy|]. simpl. intros; lia.
    + constructor; [done|].
      rewrite sort_insert_perm. constructor; [lia | done].
Qed.

Lemma Array_sort_desc l :
  StronglySorted (fun a b => b.1 <= a.1) (Array_sort by_count_desc l).
Proof.
  induction l as [|e l IH]; simpl; [constructor|]. by apply sort_insert_desc.
Qed.

Lemma sorted_desc_strict l :
  NoDup (map fst l) ->
  StronglySorted (fun a b => b.1 <= a.1) l ->
  StronglySorted (fun a b => b.1 < a.1) l.
Proof.
  intros Hnd Hs. induction Hs as [|e l Hs IH He]; [constructor|].
  simpl in Hnd. apply NoDup_cons in Hnd as [Hnotin Hnd].
  constructor; [by apply IH|].
  apply Forall_forall. intros b Hb.
  pose proof (proj1 (Forall_forall _ _) He b Hb) as Hle. simpl in Hle.
  assert (b.1 <> e.1); [|lia].
  intros Heq. apply Hnotin. rewrite <- Heq.
  apply list_elem_of_fmap. by exists b.
Qed.

Lemma obj_get_set k k' (v : V) o :
  obj_get k (obj_set k' v o) = if k =? k' then Some v else obj_get k o.
Proof.
  induction o as [|[k0 v0] o IH]; simpl.
  - by destruct (Z.eqb_spec k k').
  - destruct (Z.eqb_spec k' k0) as [->|Hne]; simpl.
    + by destruct (Z.eqb_spec k k0).
    + rewrite IH. destruct (Z.eqb_spec k k0) as [->|]; [|done].
      destruct (Z.eqb_spec k0 k'); [by subst | done].
Qed.

Lemma obj_set_keys k (v : V) o :
  map fst (obj_set k v o)
  = if bool_decide (k ∈ map fst o) then map fst o else map fst o ++ [k].
Proof.
  induction o as [|[k0 v0] o IH]; simpl; [done|].
  destruct (Z.eqb_spec k k0) as [->|Hne]; simpl.
  - rewrite bool_decide_true; [done | by left].
  - rewrite IH. destruct (decide (k ∈ map fst o)) as [Hin|Hin].
    + rewrite !bool_decide_true; [done | by right | done].
    + rewrite !bool_decide_false; [done | | done].
      by intros [?|?]%elem_of_cons.
Qed.

Lemma obj_set_NoDup k (v : V) o :
  NoDup (map fst o) -> NoDup (map fst (obj_set k v o)).
Proof.
  intros Hnd. rewrite obj_set_keys. case_bool_decide as Hin; [done|].
  apply NoDup_app. split; [done|]. split; [|apply NoDup_singleton].
  intros k' Hk' ->%list_elem_of_singleton. done.
Qed.

Lemma obj_get_elem k (v : V) o :
  NoDup (map fst o) -> (k, v) ∈ o <-> obj_get k o = Some v.
Proof.
  induction o as [|[k0 v0] o IH]; simpl; intros Hnd.
  - split; [by intros ?%elem_of_nil | done].
  - apply NoDup_cons in Hnd as [Hnotin Hnd].
    destruct (Z.eqb_spec k k0) as [->|Hne].
    + split.
      * intros [[= ->]|Hin]%elem_of_cons; [done|].
        exfalso. apply Hnotin. apply list_elem_of_fmap. by exists (k0, v).
      * intros [= ->]. by left.
    + rewrite <- (IH Hnd). split.
      * intros [[= -> ->]|Hin]%elem_of_cons; done.
      * by right.
Qed.

Lemma Object_entries_perm o : Object_entries o ≡ₚ o.
Proof.
  unfold Object_entries. rewrite Array_sort_perm.
  rewrite <- (filter_app_complement (fun e => is_array_index e.1 = true) o) at 3.
  f_equiv. erewrite list_filter_iff; [done|].
  intros e. simpl. by destruct (is_array_index e.1).
Qed.
End KeyOrder.

Lemma group_of_snoc (k : Z) (messages : list (Message * Z)) (mr : Message * Z) :
  group_of k (messages ++ [mr])
  = group_of k messages ++ (if bool_decide (mr.2 = k) then [mr.1] else []).
Proof.
  unfold group_of. rewrite filter_app, map_app. f_equal.
  case_bool_decide; [by rewrite filter_cons_True | by rewrite filter_cons_False].
Qed.

Lemma talliedMessages_snoc (messages : list (Message * Z)) (mr : Message * Z) :
  talliedMessages (messages ++ [mr])
  = obj_set mr.2 (default [] (obj_get mr.2 (talliedMessages messages)) ++ [mr.1])
      (talliedMessages messages).
Proof. unfold talliedMessages. by rewrite fold_left_app. Qed.

Lemma talliedMessages_NoDup (messages : list (Message * Z)) :
  NoDup (map fst (talliedMessages messages)).
Proof.
  induction messages as [|mr messages IH] using rev_ind; [constructor|].
  rewrite talliedMessages_snoc. by apply obj_set_NoDup.
Qed.

Lemma talliedMessages_get (messages : list (Message * Z)) (k : Z) :
  obj_get k (talliedMessages messages)
  = match group_of k messages with [] => None | g => Some g end.
Proof.
  induction messages as [|mr messages IH] using rev_ind; [done|].
  rewrite talliedMessages_snoc, obj_get_set, group_of_snoc.
  destruct (Z.eqb_spec k mr.2) as [->|Hne].
  - rewrite bool_decide_true by done. rewrite IH.
    by destruct (group_of mr.2 messages).
  - rewrite bool_decide_false by done. by rewrite app_nil_r.
Qed.

Lemma messagesArray_perm (messages : list (Message * Z)) :
  messagesArray messages ≡ₚ talliedMessages messages.
Proof. unfold messagesArray. by rewrite Array_sort_perm, Object_entries_perm. Qed.

Lemma messagesArray_NoDup (messages : list (Message * Z)) :
  NoDup (map fst (messagesArray messages)).
Proof.
  assert (map fst (messagesArray messages) ≡ₚ map fst (talliedMessages messages)) as ->
    by (apply Permutation_map, messagesArray_perm).
  apply talliedMessages_NoDup.
Qed.

Lemma messagesArray_elem (messages : list (Message * Z)) (k : Z) (g : list Message) :
  (k, g) ∈ messagesArray messages <-> g = group_of k messages /\ g <> [].
Proof.
  rewrite messagesArray_perm.
  rewrite (obj_get_elem _ _ _ (talliedMessages_NoDup messages)).
  rewrite talliedMessages_get.
  destruct (group_of k messages) as [|m g']; split.
  - done.
  - by intros [-> ?].
  - by intros [= <-].
  - by intros [-> _].
Qed.

Lemma messagesArray_nonempty (messages : list (Message * Z)) :
  messages <> [] -> messagesArray messages <> [].
Proof.
  destruct messages as [|mr messages]; [done|]. intros _ Hnil.
  assert ((mr.2, group_of mr.2 (mr :: messages)) ∈ messagesArray (mr :: messages)) as Hin.
  { apply messagesArray_elem. split; [done|].
    unfold group_of. by rewrite filter_cons_True. }
  rewrite Hnil in Hin. by apply elem_of_nil in Hin.
Qed.

Lemma filter_index_below {A} (m i : nat) (l : list A) :
  filter_index (fun _ j => (j <? m)%nat) i l = take (m - i) l.
Proof.
  revert i. induction l as [|x l IH]; intros i; simpl; [by destruct (m - i)%nat|].
  rewrite IH. destruct (Nat.ltb_spec i m) as [Hlt|Hge].
  - by replace (m - i)%nat with (S (m - S i)) by lia.
  - replace (m - i)%nat with 0%nat by lia. by replace (m - S i)%nat with 0%nat by lia.
Qed.

Lemma take3_take {A} (arr : list A) : take3 arr = take 3 arr.
Proof.
  unfold take3. rewrite filter_index_below, Nat.sub_0_r.
  destruct (Nat.le_ge_cases (length arr) 3) as [Hle|Hge].
  - rewrite Nat.min_l by done. by rewrite !take_ge by lia.
  - by rewrite Nat.min_r.
Qed.

Section Ranking.
Context {C : Collaborators}.

Lemma contents_from_length (rank : Z) (groups : list (Z * list Message)) :
  length (contents_from rank groups) = length groups.
Proof.
  revert rank. induction groups as [|[count group] groups IH]; intros rank; simpl;
    [done | by rewrite IH].
Qed.

Lemma contents_from_lookup (rank : Z) (groups : list (Z * list Message)) (i : nat) :
  contents_from rank groups !! i
  = match groups !! i with
    | Some (count, group) => Some (block (rank + items_above i groups) count group)
    | None => None
    end.
Proof.
  revert rank i. induction groups as [|[count group] groups IH]; intros rank i.
  - by destruct i.
  - destruct i as [|i]; simpl.
    + unfold items_above. simpl. by rewrite Z.add_0_r.
    + rewrite IH. destruct (groups !! i) as [[count' group']|]; [|done].
      assert (items_above (S i) ((count, group) :: groups)
              = Z.of_nat (length group) + items_above i groups) as ->.
      { unfold items_above. cbn [take map snd concat].
        rewrite length_app. by rewrite Nat2Z.inj_add. }
      by rewrite Z.add_assoc.
Qed.
End Ranking.

(** C3.  The block built for the group at position [i] of the kept groups
    carries the rank 1 plus the number of items in the groups before it;
    so the first group has rank 1 (shown as the superlative).  For the
    count groups 5: a, b; 3: c; 1: d the ranks are 1, 3 and 4. *)
Theorem display_ranks {C : Collaborators} (messages : list (Message * Z))
    (i : nat) (count : Z) (group : list Message) :
  take3 (messagesArray messages) !! i = Some (count, group) ->
  contents messages !! i
  = Some (block (1 + items_above i (take3 (messagesArray messages))) count group)
  /\ (i = 0%nat -> contents messages !! i = Some (block 1 count group))
  /\ contents (C:=demo) [(msg_c, 3); (msg_a, 5); (msg_d, 1); (msg_b, 5)]
     = [block 1 5 [msg_a; msg_b]; block 3 3 [msg_c]; block 4 1 [msg_d]]
  /\ map title (contents (C:=demo) [(msg_c, 3); (msg_a, 5); (msg_d, 1); (msg_b, 5)])
     = ["**先週最もリアクションが多かった投稿たちです！！** [5個]";
        "**先週 3番目にリアクションが多かった投稿です！！** [3個]";
        "**先週 4番目にリアクションが多かった投稿です！！** [1個]"].
Proof.
  intros Hi. unfold contents.
  split; [|split; [|split; reflexivity]].
  - by rewrite contents_from_lookup, Hi.
  - intros ->. rewrite contents_from_lookup, Hi. unfold items_above. simpl.
    done.
Qed.

Lemma display_ranks_witness :
  let messages := [(msg_c, 3); (msg_a, 5); (msg_d, 1); (msg_b, 5)] in
  take3 (messagesArray messages) !! 1%nat = Some (3, [msg_c])
  /\ items_above 1 (take3 (messagesArray messages)) = 2
  /\ contents (C:=demo) messages !! 1%nat = Some (block 3 3 [msg_c]).
Proof.
  intros messages. split; [reflexivity|]. split; [reflexivity|].
  exact (proj1 (display_ranks (C:=demo) messages 1 3 [msg_c] eq_refl)).
Defined.

(** C4.  The tally has one group for every count that occurs, holding
    exactly the messages with that count in the order given; the groups
    come in strictly descending order of count; the blocks are built from
    the first three groups, one block for each and in that order, so there
    are min(3, number of groups) blocks and no block for any later group.
    With five distinct counts only the three largest give a block. *)
Theorem tally_top_three {C : Collaborators} (messages : list (Message * Z)) :
  let groups := messagesArray messages in
  (forall k g, (k, g) ∈ groups <-> g = group_of k messages /\ g <> [])
  /\ StronglySorted (fun a b => b.1 < a.1) groups
  /\ (forall i,
         contents messages !! i
         = match take 3 groups !! i with
           | Some (count, group) =>
               Some (block (1 + items_above i (take 3 groups)) count group)
           | None => None
           end)
  /\ length (contents messages) = Nat.min 3 (length groups)
  /\ map fst (messagesArray
                [(msg_d, 1); (msg_e, 9); (msg_c, 3); (msg_a, 5); (msg_f, 7); (msg_b, 5)])
     = [9; 7; 5; 3; 1]
  /\ contents (C:=demo)
       [(msg_d, 1); (msg_e, 9); (msg_c, 3); (msg_a, 5); (msg_f, 7); (msg_b, 5)]
     = [block 1 9 [msg_e]; block 2 7 [msg_f]; block 3 5 [msg_a; msg_b]].
Proof.
  intros groups.
  split; [apply messagesArray_elem|].
  split; [apply sorted_desc_strict; [apply messagesArray_NoDup | apply Array_sort_desc]|].
  split; [|split; [|split; reflexivity]].
  - intros i. unfold contents. rewrite take3_take. apply contents_from_lookup.
  - unfold contents. by rewrite contents_from_length, take3_take, length_take.
Qed.

(** ** Ticks *)

Section TickFacts.
Context {C : Collaborators}.

Lemma reports_app (a b : list Effect) : reports (a ++ b) = (reports a + reports b)%nat.
Proof. unfold reports. by rewrite List.filter_app, length_app. Qed.

Lemma reports_cleanup (who : string) (evs : list StoreEvent) :
  reports (cleanup_effects who evs) = 0%nat.
Proof.
  induction evs as [|ev evs IH]; [done|].
  unfold cleanup_effects in *. simpl. rewrite reports_app, IH.
  by destruct ev as [|[count|]].
Qed.

Lemma reports_thread (cs : list Content) :
  reports (map (fun c => ThreadSent (title c) (embeds c)) cs) = 0%nat.
Proof. by induction cs. Qed.

Lemma reports_post (channel : string * string) (cs : list Content) :
  reports (post channel cs) = match cs with [] => 0%nat | _ => 1%nat end.
Proof.
  destruct cs as [|first restContents]; [done|]. unfold post.
  destruct (0 <? length restContents)%nat; [|done].
  change (reports (Sent channel ("**【リアクション大賞】**" +:+ newline +:+ title first)
                     (embeds first)
                   :: ThreadStarted "リアクション大賞全体"
                   :: map (fun c => ThreadSent (title c) (embeds c)) restContents))
    with (S (reports (map (fun c => ThreadSent (title c) (embeds c)) restContents))).
  by rewrite reports_thread.
Qed.

Lemma tick_unmatched (args : TickArgs) (now : Z) (world : list Guild)
    (atts : list Attempt) (st : State) :
  matches now args = false ->
  tick args now world atts st = ([], Returned (arm args 1000 st)).
Proof. unfold tick. by intros ->. Qed.

Lemma tick_unresolved (args : TickArgs) (now : Z) (world : list Guild)
    (atts : list Attempt) (st : State) :
  matches now args = true ->
  target world args = None ->
  tick args now world atts st
  = ([Logged (Some (a_guildName args)) ReportInitiated;
      Logged (Some (a_guildName args)) ReportFinished],
     Returned (arm args almost_a_week st)).
Proof.
  unfold tick, target. intros -> Ht.
  destruct (resolve world args) as [[guild channel]|]; [|done].
  by destruct (is_GuildText (ch_type channel)).
Qed.

Lemma tick_resolved (args : TickArgs) (now : Z) (world : list Guild)
    (atts : list Attempt) (st : State) (ch : string * string) :
  matches now args = true ->
  target world args = Some ch ->
  tick args now world atts st
  = let cleanup := WeeklyAward.deleteOutdated (a_guildId args) 7 atts (db st) in
    let before := Logged (Some (a_guildName args)) ReportInitiated
                  :: cleanup_effects (a_guildName args) cleanup.1 in
    match cleanup.2 with
    | Returned d =>
        (before ++ report world args ch d
                ++ [Logged (Some (a_guildName args)) ReportFinished],
         Returned (arm args almost_a_week (with_db st d)))
    | Thrown e => (before, Thrown e)
    | Pending => (before, Pending)
    end.
Proof.
  unfold tick, target. intros -> Ht.
  destruct (resolve world args) as [[guild channel]|]; [|done].
  destruct (is_GuildText (ch_type channel)); [|done].
  by injection Ht as <-.
Qed.
Lemma matches_spec (now : Z) (args : TickArgs) :
  matches now args = true
  <-> now_day now = a_weekday args /\ now_hour now = a_hour args
      /\ now_minute now = a_minute args.
Proof. unfold matches. rewrite !andb_true_iff, !Z.eqb_eq. tauto. Qed.

(** A check that comes 6.9 days after a matching instant, or up to
    2 h 23 min later than that, falls strictly between that occurrence of
    the configured minute and the next one. *)
Lemma next_check_between_occurrences (args : TickArgs) (now t : Z) :
  matches now args = true ->
  now + almost_a_week <= t <= now + 7 * day_ms - 60000 ->
  matches t args = false.
Proof.
  intros Hm Ht. apply not_true_is_false. intros Hm'.
  apply matches_spec in Hm as (Hd & Hh & Hmi).
  apply matches_spec in Hm' as (Hd' & Hh' & Hmi').
  unfold now_day, now_hour, now_minute, local_ms, day_ms, almost_a_week in *.
  rewrite <- Hd' in Hd. rewrite <- Hh' in Hh. rewrite <- Hmi' in Hmi.
  clear Hd' Hh' Hmi'. Z.div_mod_to_equations. lia.
Qed.

Lemma same_time_next_week (args : TickArgs) (now : Z) :
  matches (now + 7 * day_ms) args = matches now args.
Proof.
  unfold matches, now_day, now_hour, now_minute, local_ms, day_ms.
  replace (now + 7 * (86400 * 1000) + tzOffset) with (now + tzOffset + 604800000) by lia.
  f_equal; [f_equal|]; f_equal.
  all: Z.div_mod_to_equations; lia.
Qed.
End TickFacts.

(** C9.  On a matched tick whose configured names do not resolve to a
    guild text channel, nothing but the two log lines happens: the
    clean-up generator is not even started (the outcome does not depend on
    the attempts), the store is the one the tick was given, nothing is
    sent, and the next check is armed 6.9 days later.  Conversely, a
    matched tick that does any report work (clean-up, vacuum, sending) or
    changes the store had its names resolved to a guild text channel. *)
Theorem tick_unresolved_skips_report {C : Collaborators} (args : TickArgs) (now : Z)
    (world : list Guild) (atts : list Attempt) (st : State) :
  matches now args = true ->
  (target world args = None ->
   tick args now world atts st
   = ([Logged (Some (a_guildName args)) ReportInitiated;
       Logged (Some (a_guildName args)) ReportFinished],
      Returned (arm args almost_a_week st))
   /\ db (arm args almost_a_week st) = db st
   /\ instances (arm args almost_a_week st) !! a_guildId args = Some (next_timeout st)
   /\ timers (arm args almost_a_week st) !! next_timeout st
      = Some {| delay := almost_a_week; callback := args |}
   /\ 10 * almost_a_week = 69 * day_ms)
  /\ (forall effs c,
         tick args now world atts st = (effs, c) ->
         (exists e, In e effs /\ is_report_work e = true)
         \/ (exists st', c = Returned st' /\ db st' <> db st) ->
         exists guild channel,
           resolve world args = Some (guild, channel)
           /\ g_name guild = a_guildName args
           /\ ch_name channel = a_channelName args
           /\ ch_type channel = GuildText).
Proof.
  intros Hm. split.
  - intros Ht. split; [by apply tick_unresolved|].
    split; [reflexivity|]. split; [apply lookup_insert_eq|].
    split; [apply lookup_insert_eq | reflexivity].
  - intros effs c Htick Hwork.
    destruct (target world args) as [ch|] eqn:Ht.
    + unfold target in Ht. unfold resolve in *.
      destruct (find _ world) as [guild|] eqn:Hg; [|done].
      destruct (find _ (g_channels guild)) as [channel|] eqn:Hc; [|done].
      exists guild, channel. split; [done|].
      apply find_some in Hg as [_ Hg%bool_decide_eq_true].
      apply find_some in Hc as [_ Hc%bool_decide_eq_true].
      split; [done|]. split; [done|].
      by destruct (ch_type channel).
    + rewrite (tick_unresolved _ _ _ _ _ Hm Ht) in Htick.
      injection Htick as <- <-.
      destruct Hwork as [(e & [<- | [<- | []]] & He) | (st' & [= <-] & Hdb)]; done.
Qed.

Lemma tick_unresolved_skips_report_witness :
  let st := demo_state [demo_row "m1" "g1" 2 0] in
  matches (C:=demo) report_time demo_args = true
  /\ target renamed_world demo_args = None
  /\ tick (C:=demo) demo_args report_time renamed_world [ok_at report_time] st
     = ([Logged (Some "Inugoya") ReportInitiated;
         Logged (Some "Inugoya") ReportFinished],
        Returned (arm demo_args almost_a_week st)).
Proof.
  intros st. split; [reflexivity|]. split; [reflexivity|].
  exact (proj1 (proj1 (tick_unresolved_skips_report (C:=demo) demo_args report_time
                         renamed_world [ok_at report_time] st eq_refl) eq_refl)).
Defined.

(** C8, as stated, fails: a tick at the configured weekday, hour and
    minute whose channel name resolves to nothing posts no report at all
    (and still arms the next check 6.9 days later). *)
Lemma matched_tick_without_report :
  let st := demo_state [demo_row "m1" "g1" 2 0] in
  let run := tick (C:=demo) demo_args report_time renamed_world [ok_at report_time] st in
  matches (C:=demo) report_time demo_args = true
  /\ reports run.1 = 0%nat
  /\ run.2 = Returned (arm demo_args almost_a_week st).
Proof. repeat split; reflexivity. Qed.

(** C8, amended.  For every tick that returns, the tenant's registry entry
    becomes the fresh timeout.  When the current time matches the
    configured weekday, hour and minute, that timeout is armed 596160000
    ms (6.9 days) later and at most one report is posted: none when the
    configured names do not resolve to a guild text channel; exactly one
    when they do and either no stored record has a positive count (the
    notice) or at least one record of the tenant resolves to a message
    (the leaderboard).  When the time does not match, nothing happens but
    arming the timeout 1000 ms later.  The delay of 6.9 days brings the
    next check after the matched minute and before its next occurrence a
    week later, even when that check is up to 2 h 23 min late. *)
Theorem tick_reschedules {C : Collaborators} (args : TickArgs) (now : Z)
    (world : list Guild) (atts : list Attempt) (st st' : State) (effs : list Effect) :
  tick args now world atts st = (effs, Returned st') ->
  let h := next_timeout st in
  instances st' = <[ a_guildId args := h ]> (instances st)
  /\ next_timeout st' = S h
  /\ (matches now args = true ->
      timers st' = <[ h := {| delay := almost_a_week; callback := args |} ]> (timers st)
      /\ 10 * almost_a_week = 69 * day_ms
      /\ (forall t, now + almost_a_week <= t <= now + 7 * day_ms - 60000 ->
                    matches t args = false)
      /\ matches (now + 7 * day_ms) args = true
      /\ (reports effs <= 1)%nat
      /\ (target world args = None -> reports effs = 0%nat /\ db st' = db st)
      /\ (forall ch,
             target world args = Some ch ->
             existsb (fun r => 0 <? reactionsCount r) (WeeklyAward.all (db st')) = false ->
             reports effs = 1%nat /\ In (Sent ch notice []) effs)
      /\ (forall ch,
             target world args = Some ch ->
             omap (fetchesMessage world (a_guildId args)) (WeeklyAward.iterate (db st'))
             <> [] ->
             reports effs = 1%nat))
  /\ (matches now args = false ->
      effs = [] /\ db st' = db st
      /\ timers st' = <[ h := {| delay := 1000; callback := args |} ]> (timers st)).
Proof.
  intros Htick h. destruct (matches now args) eqn:Hm.
  - destruct (target world args) as [ch|] eqn:Ht.
    + rewrite (tick_resolved _ _ _ _ _ _ Hm Ht) in Htick. simpl in Htick.
      destruct (WeeklyAward.deleteOutdated (a_guildId args) 7 atts (db st))
        as [evs [d|e|]] eqn:Hclean; simpl in Htick; [|done|done].
      injection Htick as <- <-.
      assert (Hrep : forall es,
                 reports (Logged (Some (a_guildName args)) ReportInitiated
                            :: cleanup_effects (a_guildName args) evs
                          ++ es ++ [Logged (Some (a_guildName args)) ReportFinished])
                 = reports es).
      { intros es.
        change (reports (cleanup_effects (a_guildName args) evs
                           ++ es ++ [Logged (Some (a_guildName args)) ReportFinished])
                = reports es).
        rewrite !reports_app, reports_cleanup. simpl. unfold reports at 2. simpl. lia. }
      split; [reflexivity|]. split; [reflexivity|]. split; [|done].
      intros _. split; [reflexivity|]. split; [reflexivity|].
      split; [intros t; exact (next_check_between_occurrences args now t Hm)|].
      split; [by rewrite same_time_next_week|].
      simpl. rewrite Hrep. unfold report.
      split; [|split; [done|split]].
      * destruct (existsb _ _); [|done]. rewrite reports_post.
        destruct (contents _); lia.
      * intros ch' [= <-] Hnone. simpl in Hnone. rewrite Hnone.
        split; [reflexivity|]. right. apply in_app_iff. right. by left.
      * intros ch' _ Hsome. destruct (existsb _ _); [|done].
        rewrite reports_post. unfold contents.
        destruct (take3 _) as [|[count messages] rest] eqn:Htake; [|done].
        exfalso. rewrite take3_take in Htake. simpl in Hsome.
        apply (messagesArray_nonempty _ Hsome).
        by destruct (messagesArray _).
    + rewrite (tick_unresolved _ _ _ _ _ Hm Ht) in Htick.
      injection Htick as <- <-.
      split; [reflexivity|]. split; [reflexivity|]. split; [|done].
      intros _. split; [reflexivity|]. split; [reflexivity|].
      split; [intros t; exact (next_check_between_occurrences args now t Hm)|].
      split; [by rewrite same_time_next_week|].
      split; [unfold reports; simpl; lia|]. split; [done|]. split; done.
  - rewrite (tick_unmatched _ _ _ _ _ Hm) in Htick. injection Htick as <- <-.
    split; [reflexivity|]. split; [reflexivity|]. split; done.
Qed.


Lemma tick_reschedules_witness :
  let st := demo_state [demo_row "m1" "g1" 2 (report_time - day_ms)] in
  let run := tick (C:=demo) demo_args report_time demo_world [ok_at report_time] st in
  run.2 = Returned (arm demo_args almost_a_week st)
  /\ matches (C:=demo) report_time demo_args = true
  /\ target demo_world demo_args = Some ("g1", "c9")
  /\ reports run.1 = 1%nat
  /\ timers (arm demo_args almost_a_week st) !! 0%nat
     = Some {| delay := almost_a_week; callback := demo_args |}
  /\ matches (C:=demo) (report_time + 30000) demo_args = true
  /\ matches (C:=demo) (report_time + 30000 + almost_a_week) demo_args = false.
Proof.
  intros st run.
  destruct (tick_reschedules (C:=demo) demo_args report_time demo_world
              [ok_at report_time] st (arm demo_args almost_a_week st) run.1 eq_refl)
    as (_ & _ & Hmatch & _).
  destruct (Hmatch eq_refl) as (Htimers & _ & _ & _ & _ & _ & _ & Hboard).
  split; [reflexivity|]. split; [reflexivity|]. split; [reflexivity|].
  split; [apply (Hboard ("g1", "c9") eq_refl); discriminate|].
  split; [rewrite Htimers; reflexivity|]. split; reflexivity.
Defined.

(** C1 fails on the code.  Tenant g1 has no tracked item at all, the time
    matches and the channel of g1 resolves.  When the shared store is
    empty the tick of g1 sends the notice.  When tenant g2 has one item
    with four reactions, the tick of g1 logs the clean-up count and sends
    nothing, neither the notice nor a leaderboard. *)
Lemma tick_silent_when_only_other_tenants_have_reactions :
  let st := demo_state [demo_row "m9" "g2" 4 (report_time - day_ms)] in
  matches (C:=demo) report_time demo_args = true
  /\ target demo_world demo_args = Some ("g1", "c9")
  /\ filter (fun r => rec_guildId r = "g1" /\ 0 < reactionsCount r)
            (WeeklyAward.all (C:=demo) (db st)) = []
  /\ tick (C:=demo) demo_args report_time demo_world
          [ok_at report_time; ok_at report_time] (demo_state [])
     = ([Logged (Some "Inugoya") ReportInitiated;
         Logged (Some "Inugoya") (OutdatedRecords 0);
         Sent ("g1", "c9") notice [];
         Logged (Some "Inugoya") ReportFinished],
        Returned (arm demo_args almost_a_week (demo_state [])))
  /\ tick (C:=demo) demo_args report_time demo_world
          [ok_at report_time; ok_at report_time] st
     = ([Logged (Some "Inugoya") ReportInitiated;
         Logged (Some "Inugoya") (OutdatedRecords 0);
         Logged (Some "Inugoya") ReportFinished],
        Returned (arm demo_args almost_a_week st)).
Proof. repeat split; reflexivity. Qed.

(** * Further properties of the store *)

(** ** Reading back what was written *)

Lemma upsert_stmt_fresh (p : Row) (tbl : list Row) :
  row_key p ∉ map row_key tbl -> upsert_stmt p tbl = tbl ++ [p].
Proof.
  induction tbl as [|r tbl IH]; simpl; intros Hk; [done|].
  apply not_elem_of_cons in Hk as [Hne Hk].
  rewrite bool_decide_false by done. by rewrite IH.
Qed.

Lemma delete_stmt_absent (k : Key) (tbl : list Row) :
  k ∉ map row_key tbl -> delete_stmt k tbl = tbl.
Proof.
  unfold delete_stmt. induction tbl as [|r tbl IH]; simpl; intros Hk; [done|].
  apply not_elem_of_cons in Hk as [Hne Hk].
  rewrite filter_cons_True by done. by rewrite IH.
Qed.

Lemma delete_returned (g c m : string) (atts : list Attempt) (d d' : Db) tr :
  WeeklyAward.delete g c m atts d = (tr, Returned d') ->
  d' = with_messages (delete_stmt (g, c, m)) d.
Proof. by intros (prefix & now & rest & _ & _ & -> & _)%stmt_run_retry_returned. Qed.

Lemma with_messages_id (d : Db) : with_messages (fun rows => rows) d = d.
Proof. by destruct d. Qed.

(** After [set] has returned, [get] on the message's key sees the row the
    upsert left: any record it returns carries the count just written, and
    it returns one exactly when the url kept in that row passes [isUrl].
    For a key that was not in the table the row is the inserted one, so a
    message whose url fails [isUrl] is stored and yet never read back. *)
Theorem get_after_set {C : Collaborators} (message : Message) (count : Z)
    (atts : list Attempt) (d d' : Db) (tr : list StoreEvent) :
  NoDup (map row_key (reacted_messages d)) ->
  WeeklyAward.set message count atts d = (tr, Returned d') ->
  let k := (guildId message, channelId message, id message) in
  exists now row,
    In (ok_at now) atts
    /\ filter (fun r => row_key r = k) (reacted_messages d') = [row]
    /\ reactions_count row = count
    /\ updated_at row = datetime_now now
    /\ WeeklyAward.get (guildId message) (channelId message) (id message) d'
       = (if isUrl (r_url row) then Some (to_record row) else None)
    /\ (k ∉ map row_key (reacted_messages d) -> row = set_params message count now).
Proof.
  intros Hnd (now & Hin & ->)%set_returned k.
  pose proof (upsert_stmt_lookup (set_params message count now) _ Hnd) as Hl.
  change (row_key (set_params message count now)) with k in Hl.
  eexists now, _. split; [done|]. split; [exact Hl|].
  split; [by destruct (head _)|]. split; [by destruct (head _)|].
  split.
  - unfold WeeklyAward.get. simpl reacted_messages. fold k. by rewrite Hl.
  - intros Hfresh. by rewrite filter_key_absent.
Qed.

Lemma get_after_set_witness :
  let good := demo_message "m1" "g1" false 500 [2] in
  let odd := {| id := "m2"; channelId := "c1"; guildId := "g1"; inGuild := true;
                guildName := None; channelName := None; content := "";
                author := {| username := "pochi"; bot := false |};
                url := "ftp://example"; createdTimestamp := 0; reactions := [1] |} in
  NoDup (map row_key (reacted_messages empty_db))
  /\ WeeklyAward.get (C:=demo) "g1" "c1" "m1"
       (with_messages (upsert_stmt (set_params good 2 7000)) empty_db)
     = Some (to_record (set_params good 2 7000))
  /\ WeeklyAward.get (C:=demo) "g1" "c1" "m2"
       (with_messages (upsert_stmt (set_params odd 1 7000)) empty_db)
     = None
  /\ exists now row,
      In (ok_at now) [ok_at 7000]
      /\ filter (fun r => row_key r = ("g1", "c1", "m2"))
           (reacted_messages (with_messages (upsert_stmt (set_params odd 1 7000)) empty_db))
         = [row]
      /\ reactions_count row = 1
      /\ updated_at row = datetime_now now
      /\ WeeklyAward.get (C:=demo) "g1" "c1" "m2"
           (with_messages (upsert_stmt (set_params odd 1 7000)) empty_db)
         = (if isUrl (Collaborators:=demo) (r_url row) then Some (to_record row) else None)
      /\ (("g1", "c1", "m2") ∉ map row_key (reacted_messages empty_db) ->
          row = set_params odd 1 now).
Proof.
  intros good odd. split; [constructor|]. split; [reflexivity|]. split; [reflexivity|].
  exact (get_after_set (C:=demo) odd 1 [ok_at 7000] empty_db _ [] (NoDup_nil_2) eq_refl).
Defined.

(** ** Deleting *)

(** After [delete] has returned no row has the key and [get] finds
    nothing; the rows with other keys keep their order and content, the
    other two tables are untouched, and deleting a key that is not in the
    table changes nothing at all. *)
Theorem delete_removes_only_the_key {C : Collaborators} (g c m : string)
    (atts : list Attempt) (d d' : Db) (tr : list StoreEvent) :
  WeeklyAward.delete g c m atts d = (tr, Returned d') ->
  ((g, c, m) ∉ map row_key (reacted_messages d'))
  /\ WeeklyAward.get g c m d' = None
  /\ filter (fun r => row_key r <> (g, c, m)) (reacted_messages d')
     = filter (fun r => row_key r <> (g, c, m)) (reacted_messages d)
  /\ reacted_messages d' `sublist_of` reacted_messages d
  /\ post_target d' = post_target d /\ times d' = times d
  /\ ((g, c, m) ∉ map row_key (reacted_messages d) -> d' = d).
Proof.
  intros ->%delete_returned. simpl.
  split; [apply delete_stmt_gone|]. split.
  - unfold WeeklyAward.get. simpl.
    rewrite filter_key_absent; [done | apply delete_stmt_gone].
  - split; [|split; [apply sublist_filter|split; [done|split; [done|]]]].
    + unfold delete_stmt. rewrite list_filter_filter.
      apply list_filter_iff. intros r. tauto.
    + intros Habs. destruct d as [rows cfg tms]. unfold with_messages. simpl in *.
      by rewrite delete_stmt_absent.
Qed.

Lemma delete_removes_only_the_key_witness :
  let d := with_messages (fun _ => [demo_row "m0" "g2" 4 100; demo_row "m1" "g1" 2 200])
             empty_db in
  WeeklyAward.delete "g1" "c1" "m1" [failing 5 busy_error; ok_at 9] d
  = ([Slept], Returned (with_messages (fun _ => [demo_row "m0" "g2" 4 100]) empty_db))
  /\ WeeklyAward.get (C:=demo) "g1" "c1" "m1"
       (with_messages (fun _ => [demo_row "m0" "g2" 4 100]) empty_db) = None.
Proof.
  intros d. split; [reflexivity|].
  exact (proj1 (proj2 (delete_removes_only_the_key (C:=demo) "g1" "c1" "m1"
                         [failing 5 busy_error; ok_at 9] d _ [Slept] eq_refl))).
Defined.

(** Inserting a record under a key the table does not have and then
    deleting that key gives back the table as it was. *)
Theorem set_then_delete_restores (message : Message) (count : Z)
    (atts1 atts2 : list Attempt) (d d1 d2 : Db) (tr1 tr2 : list StoreEvent) :
  (guildId message, channelId message, id message) ∉ map row_key (reacted_messages d) ->
  WeeklyAward.set message count atts1 d = (tr1, Returned d1) ->
  WeeklyAward.delete (guildId message) (channelId message) (id message) atts2 d1
  = (tr2, Returned d2) ->
  d2 = d.
Proof.
  intros Hfresh (now & _ & ->)%set_returned ->%delete_returned.
  destruct d as [rows cfg tms]. unfold with_messages. simpl in *. f_equal.
  rewrite upsert_stmt_fresh by done.
  unfold delete_stmt. rewrite filter_app, filter_cons_False, filter_nil, app_nil_r.
  - by apply delete_stmt_absent.
  - by intros Hne.
Qed.

Lemma set_then_delete_restores_witness :
  let d := with_messages (fun _ => [demo_row "m0" "g2" 4 100]) empty_db in
  let message := demo_message "m1" "g1" false 500 [2] in
  (("g1", "c1", "m1") ∉ map row_key (reacted_messages d))
  /\ WeeklyAward.delete "g1" "c1" "m1" [ok_at 9000]
       (with_messages (upsert_stmt (set_params message 2 7000)) d)
     = ([], Returned d).
Proof.
  intros d message.
  assert (Hfresh : ("g1", "c1", "m1") ∉ map row_key (reacted_messages d)).
  { intros Hin. apply list_elem_of_singleton in Hin. discriminate Hin. }
  split; [exact Hfresh|].
  rewrite <- (set_then_delete_restores message 2 [ok_at 7000] [ok_at 9000] d
                (with_messages (upsert_stmt (set_params message 2 7000)) d)
                (with_messages (delete_stmt ("g1", "c1", "m1"))
                   (with_messages (upsert_stmt (set_params message 2 7000)) d))
                [] [] Hfresh eq_refl eq_refl) at 2.
  reflexivity.
Defined.

(** ** Row validation *)

(** On a table whose primary key is unique, [all] and [get] agree: a
    record is listed by [all] exactly when [get] on its key returns it.
    Rows whose url fails [isUrl] are in neither. *)
Theorem all_agrees_with_get {C : Collaborators} (d : Db) (record : WeeklyAwardRecord) :
  NoDup (map row_key (reacted_messages d)) ->
  (record ∈ WeeklyAward.all d
   <-> WeeklyAward.get (rec_guildId record) (rec_channelId record)
         (rec_messageId record) d = Some record)
  /\ (record ∈ WeeklyAward.all d -> isUrl (rec_url record) = true)
  /\ WeeklyAward.iterate d = WeeklyAward.all d
  /\ (length (WeeklyAward.all d) <= length (reacted_messages d))%nat.
Proof.
  intros Hnd. unfold WeeklyAward.all, WeeklyAward.iterate, WeeklyAward.get.
  split; [|split; [|split; [done|]]].
  - split.
    + intros (row & -> & [Hok Hin]%list_elem_of_filter)%list_elem_of_fmap. simpl.
      change (guild_id row, channel_id row, message_id row) with (row_key row).
      induction (reacted_messages d) as [|r rows IH]; [by apply elem_of_nil in Hin|].
      simpl in Hnd. apply NoDup_cons in Hnd as [Hr Hnd].
      apply elem_of_cons in Hin as [<-|Hin].
      * rewrite filter_cons_True by done. by rewrite Hok.
      * rewrite filter_cons_False; [by apply IH|].
        intros Heq. apply Hr. rewrite Heq. apply list_elem_of_fmap. by exists row.
    + destruct (filter _ _) as [|row rest] eqn:Hf; [done|].
      destruct (WeeklyAward.isRow row) eqn:Hok; [|done]. intros [= <-].
      assert (row ∈ filter (fun r => row_key r
                = (rec_guildId (to_record row), rec_channelId (to_record row),
                   rec_messageId (to_record row))) (reacted_messages d)) as Hin
        by (rewrite Hf; by left).
      apply list_elem_of_filter in Hin as [_ Hin].
      apply list_elem_of_fmap. exists row. split; [done|].
      by apply list_elem_of_filter.
  - by intros (row & -> & [Hok Hin]%list_elem_of_filter)%list_elem_of_fmap.
  - rewrite length_map. apply length_filter.
Qed.

Lemma all_agrees_with_get_witness :
  let odd := {| id := "m2"; channelId := "c1"; guildId := "g1"; inGuild := true;
                guildName := None; channelName := None; content := "";
                author := {| username := "pochi"; bot := false |};
                url := "ftp://example"; createdTimestamp := 0; reactions := [1] |} in
  let d := with_messages (fun _ => [demo_row "m1" "g1" 2 200; set_params odd 1 7000])
             empty_db in
  NoDup (map row_key (reacted_messages d))
  /\ WeeklyAward.all (C:=demo) d = [to_record (demo_row "m1" "g1" 2 200)]
  /\ WeeklyAward.get (C:=demo) "g1" "c1" "m1" d = Some (to_record (demo_row "m1" "g1" 2 200)).
Proof.
  intros odd d.
  assert (Hnd : NoDup (map row_key (reacted_messages d))).
  { apply NoDup_cons. split; [|apply NoDup_singleton].
    intros Hin. apply list_elem_of_singleton in Hin. discriminate Hin. }
  split; [exact Hnd|]. split; [reflexivity|].
  apply (proj1 (proj1 (all_agrees_with_get (C:=demo) d
                         (to_record (demo_row "m1" "g1" 2 200)) Hnd))).
  apply list_elem_of_In. left. reflexivity.
Defined.

(** ** What the clean-up leaves alone *)

Lemma deleteOutdated_returned_bounded (g : string) (days : Z) (n : nat) :
  forall (atts : list Attempt) (d d' : Db) tr,
    (length atts <= n)%nat ->
    WeeklyAward.deleteOutdated g days atts d = (tr, Returned d') ->
    (exists now, In (ok_at now) atts
                 /\ count_outdated_stmt now g days (reacted_messages d) <= 0
                 /\ d' = d)
    \/ (exists now1 now2,
           In (ok_at now1) atts /\ In (ok_at now2) atts
           /\ 0 < count_outdated_stmt now1 g days (reacted_messages d)
           /\ d' = with_messages (delete_outdated_stmt now2 g days) d).
Proof.
  induction n as [|n IH]; intros atts d d' tr Hlen Hr.
  - destruct atts; [done | simpl in Hlen; lia].
  - destruct atts as [|[now1 f1] rest1]; [done|]. simpl in Hlen, Hr.
    assert (Hweaken : forall rest,
               (exists rest', rest1 = rest' ++ rest) ->
               (length rest <= n)%nat ->
               forall tr', WeeklyAward.deleteOutdated g days rest d = (tr', Returned d') ->
               (exists now, In (ok_at now) ({| clock := now1; fault := f1 |} :: rest1)
                            /\ count_outdated_stmt now g days (reacted_messages d) <= 0
                            /\ d' = d)
               \/ (exists now1' now2,
                      In (ok_at now1') ({| clock := now1; fault := f1 |} :: rest1)
                      /\ In (ok_at now2) ({| clock := now1; fault := f1 |} :: rest1)
                      /\ 0 < count_outdated_stmt now1' g days (reacted_messages d)
                      /\ d' = with_messages (delete_outdated_stmt now2 g days) d)).
    { intros rest [rest' ->] Hl tr' Hrec.
      destruct (IH rest d d' tr' Hl Hrec)
        as [(now & Hin & Hc & ->) | (na & nb & Hina & Hinb & Hc & ->)].
      - left. exists now. split; [|done]. right. apply in_app_iff. by right.
      - right. exists na, nb.
        split; [right; apply in_app_iff; by right|].
        split; [right; apply in_app_iff; by right | done]. }
    destruct f1 as [e1|].
    + destruct (is_busy e1); [|done]. unfold emit in Hr.
      destruct (WeeklyAward.deleteOutdated g days rest1 d) as [tr' c] eqn:Hrec.
      simpl in Hr. injection Hr as _ ->.
      eapply (Hweaken rest1); [by exists [] | lia | exact Hrec].
    + unfold emit in Hr. simpl in Hr.
      destruct (Z.ltb_spec 0 (count_outdated_stmt now1 g days (reacted_messages d)))
        as [Hpos|Hzero].
      * destruct rest1 as [|[now2 f2] rest2]; [done|]. simpl in Hlen, Hr.
        destruct f2 as [e2|].
        -- destruct (is_busy e2); [|done]. unfold emit in Hr.
           destruct (WeeklyAward.deleteOutdated g days rest2 d) as [tr' c] eqn:Hrec.
           simpl in Hr. injection Hr as _ ->.
           eapply (Hweaken rest2); [by eexists [_] | lia | exact Hrec].
        -- simpl in Hr. injection Hr as _ <-. right. exists now1, now2.
           split; [by left|]. split; [right; by left | done].
      * simpl in Hr. injection Hr as _ <-. left. exists now1.
        split; [by left | done].
Qed.

Lemma delete_outdated_stmt_other_tenants (now : Z) (g : string) (days : Z) (tbl : list Row) :
  filter (fun r => guild_id r <> g) (delete_outdated_stmt now g days tbl)
  = filter (fun r => guild_id r <> g) tbl.
Proof.
  unfold delete_outdated_stmt. rewrite list_filter_filter.
  apply list_filter_iff. intros r. unfold outdated. split; [tauto|].
  intros Hne. split; [done|]. by rewrite bool_decide_false.
Qed.

Lemma deleteOutdated_changes (g : string) (days : Z) (atts : list Attempt)
    (d d' : Db) (tr : list StoreEvent) :
  WeeklyAward.deleteOutdated g days atts d = (tr, Returned d') ->
  filter (fun r => guild_id r <> g) (reacted_messages d')
  = filter (fun r => guild_id r <> g) (reacted_messages d)
  /\ reacted_messages d' `sublist_of` reacted_messages d
  /\ (forall r, r ∈ reacted_messages d -> r ∉ reacted_messages d' ->
                exists now, In (ok_at now) atts /\ older_than now g days r)
  /\ post_target d' = post_target d /\ times d' = times d
  /\ (d' <> d -> exists now, In (ok_at now) atts
                             /\ 0 < count_outdated_stmt now g days (reacted_messages d)).
Proof.
  intros Hr.
  destruct (deleteOutdated_returned_bounded g days _ atts d d' tr (le_n _) Hr)
    as [(now & Hin & Hc & ->) | (now1 & now2 & Hin1 & Hin2 & Hc & ->)].
  - repeat split; done.
  - simpl. split; [apply delete_outdated_stmt_other_tenants|].
    split; [apply sublist_filter|]. split; [|split; [done|split; [done|]]].
    + intros r Hin Hout. exists now2. split; [done|]. apply outdated_spec.
      destruct (outdated now2 g days r) eqn:Ho; [done|].
      exfalso. apply Hout. unfold delete_outdated_stmt. by apply list_elem_of_filter.
    + intros _. by exists now1.
Qed.

Lemma counted_at_after_round (g : string) (days : Z) (d : Db)
    (round atts : list Attempt) (now1 : Z) (tail : list Attempt) :
  restarts g days d round ->
  counted_at g days d atts now1 tail ->
  counted_at g days d (round ++ atts) now1 tail.
Proof.
  intros Hround (rounds & Hrounds & ->). exists (round :: rounds).
  split; [by constructor|]. simpl. by rewrite <- app_assoc.
Qed.

Lemma deleteOutdated_returned_rounds (g : string) (days : Z) (n : nat) :
  forall (atts : list Attempt) (d d' : Db) tr,
    (length atts <= n)%nat ->
    WeeklyAward.deleteOutdated g days atts d = (tr, Returned d') ->
    exists now1 tail,
      counted_at g days d atts now1 tail
      /\ if 0 <? count_outdated_stmt now1 g days (reacted_messages d)
         then exists now2 rest,
                tail = ok_at now2 :: rest
                /\ d' = with_messages (delete_outdated_stmt now2 g days) d
         else d' = d.
Proof.
  induction n as [|n IH]; intros atts d d' tr Hlen Hr.
  - destruct atts; [done | simpl in Hlen; lia].
  - destruct atts as [|[now1 f1] rest1]; [done|]. simpl in Hlen, Hr.
    destruct f1 as [e1|].
    + destruct (is_busy e1) eqn:Hbusy; [|done]. unfold emit in Hr.
      destruct (WeeklyAward.deleteOutdated g days rest1 d) as [tr' c] eqn:Hrec.
      simpl in Hr. injection Hr as _ ->.
      destruct (IH rest1 d d' tr' ltac:(lia) Hrec) as (now & tail & Hat & Hres).
      exists now, tail. split; [|done].
      apply (counted_at_after_round g days d [failing now1 e1]); [|done].
      exists now1, e1. split; [done | by left].
    + unfold emit in Hr. simpl in Hr.
      destruct (0 <? count_outdated_stmt now1 g days (reacted_messages d)) eqn:Hpos.
      * destruct rest1 as [|[now2 f2] rest2]; [done|]. simpl in Hlen, Hr.
        destruct f2 as [e2|].
        -- destruct (is_busy e2) eqn:Hbusy; [|done]. unfold emit in Hr.
           destruct (WeeklyAward.deleteOutdated g days rest2 d) as [tr' c] eqn:Hrec.
           simpl in Hr. injection Hr as _ ->.
           destruct (IH rest2 d d' tr' ltac:(lia) Hrec) as (now & tail & Hat & Hres).
           exists now, tail. split; [|done].
           apply (counted_at_after_round g days d [ok_at now1; failing now2 e2]); [|done].
           exists now2, e2. split; [done|]. right. exists now1.
           split; [done | by apply Z.ltb_lt].
        -- simpl in Hr. injection Hr as _ <-.
           exists now1, (ok_at now2 :: rest2). split; [by exists [] |].
           rewrite Hpos. by exists now2, rest2.
      * simpl in Hr. injection Hr as _ <-.
        exists now1, rest1. split; [by exists [] |]. by rewrite Hpos.
Qed.

Lemma delete_outdated_stmt_gone (now : Z) (g : string) (days : Z) (tbl : list Row) (r : Row) :
  r ∈ tbl -> (r ∉ delete_outdated_stmt now g days tbl <-> older_than now g days r).
Proof.
  intros Hin. rewrite <- outdated_spec. unfold delete_outdated_stmt.
  rewrite list_elem_of_filter. destruct (outdated now g days r); split; intros H.
  - done.
  - by intros [? _].
  - exfalso. by apply H.
  - done.
Qed.

(** When [deleteOutdated] returns, whatever busy failures it met on the
    way: the rows of other tenants are as they were, in their order; the
    rows that stay are in their old order; the other two tables are
    untouched.  The call started over after each busy failure and then
    took its count; when that count was not positive the store is exactly
    the one given, and when it was positive the next attempt was the delete
    statement, and the rows that went are exactly the tenant's rows older
    than [days] days at the clock of that statement. *)
Theorem deleteOutdated_frame (g : string) (days : Z) (atts : list Attempt)
    (d d' : Db) (tr : list StoreEvent) :
  WeeklyAward.deleteOutdated g days atts d = (tr, Returned d') ->
  filter (fun r => guild_id r <> g) (reacted_messages d')
  = filter (fun r => guild_id r <> g) (reacted_messages d)
  /\ reacted_messages d' `sublist_of` reacted_messages d
  /\ post_target d' = post_target d /\ times d' = times d
  /\ exists now1 tail,
       counted_at g days d atts now1 tail
       /\ if 0 <? count_outdated_stmt now1 g days (reacted_messages d)
          then exists now2 rest,
                 tail = ok_at now2 :: rest
                 /\ reacted_messages d'
                    = filter (fun r => ~ older_than now2 g days r) (reacted_messages d)
                 /\ (forall r, r ∈ reacted_messages d ->
                                (r ∉ reacted_messages d' <-> older_than now2 g days r))
          else d' = d.
Proof.
  intros Hr.
  destruct (deleteOutdated_changes _ _ _ _ _ _ Hr) as (Hother & Hsub & _ & Hcfg & Htms & _).
  split; [done|]. split; [done|]. split; [done|]. split; [done|].
  destruct (deleteOutdated_returned_rounds g days _ atts d d' tr (le_n _) Hr)
    as (now1 & tail & Hat & Hres).
  exists now1, tail. split; [done|].
  destruct (0 <? count_outdated_stmt now1 g days (reacted_messages d)); [|done].
  destruct Hres as (now2 & rest & -> & ->). exists now2, rest.
  split; [done|]. simpl. split; [apply delete_outdated_stmt_spec|].
  intros r Hin. by apply delete_outdated_stmt_gone.
Qed.

Lemma deleteOutdated_frame_witness :
  let d := with_messages
             (fun _ => demo_row "old" "g2" 4 0 :: aged_rows (20 * day_ms)) empty_db in
  let atts := [ok_at (20 * day_ms); failing (20 * day_ms + 1) busy_error;
               ok_at (20 * day_ms + 2); ok_at (23 * day_ms); ok_at (400 * day_ms)] in
  WeeklyAward.deleteOutdated "g1" 7 atts d
  = ([Yielded (Some 2); Slept; Yielded (Some 2); Yielded None],
     Returned (with_messages (fun _ => [demo_row "old" "g2" 4 0]) empty_db))
  /\ filter (fun r => guild_id r <> "g1") [demo_row "old" "g2" 4 0]
     = filter (fun r => guild_id r <> "g1") (reacted_messages d)
  /\ counted_at "g1" 7 d atts (20 * day_ms + 2) [ok_at (23 * day_ms); ok_at (400 * day_ms)].
Proof.
  intros d atts. split; [reflexivity|].
  split.
  - exact (proj1 (deleteOutdated_frame "g1" 7 atts d
                    (with_messages (fun _ => [demo_row "old" "g2" 4 0]) empty_db)
                    [Yielded (Some 2); Slept; Yielded (Some 2); Yielded None] eq_refl)).
  - exists [[ok_at (20 * day_ms); failing (20 * day_ms + 1) busy_error]].
    split; [|reflexivity]. constructor; [|constructor].
    exists (20 * day_ms + 1), busy_error. split; [reflexivity|]. right.
    exists (20 * day_ms). split; [reflexivity|]. reflexivity.
Defined.

(** ** The primary key *)

(** Every mutating call that returns keeps the primary key of
    reacted_messages unique. *)
Theorem calls_keep_primary_key (op : MutatingCall) (atts : list Attempt)
    (d d' : Db) (tr : list StoreEvent) :
  NoDup (map row_key (reacted_messages d)) ->
  call op atts d = (tr, Returned d') ->
  NoDup (map row_key (reacted_messages d')).
Proof.
  intros Hnd Hr.
  destruct op; simpl in Hr;
    try (apply stmt_run_retry_returned in Hr
           as (prefix & now & rest & _ & _ & -> & _); simpl; try done).
  - by apply upsert_stmt_NoDup.
  - eapply sublist_NoDup; [exact Hnd|]. apply fmap_sublist, sublist_filter.
  - apply deleteOutdated_changes in Hr as (_ & Hsub & _).
    eapply sublist_NoDup; [exact Hnd|]. by apply fmap_sublist.
Qed.

Lemma calls_keep_primary_key_witness :
  let d := with_messages (fun _ => [demo_row "m0" "g2" 4 100]) empty_db in
  let message := demo_message "m0" "g2" false 100 [6] in
  NoDup (map row_key (reacted_messages d))
  /\ NoDup (map row_key
              (reacted_messages (with_messages (upsert_stmt (set_params message 6 7000)) d))).
Proof.
  intros d message.
  assert (Hnd : NoDup (map row_key (reacted_messages d))) by apply NoDup_singleton.
  split; [exact Hnd|].
  exact (calls_keep_primary_key (CallSet message 6) [ok_at 7000] d _ [] Hnd eq_refl).
Defined.

(** * Further properties of the registration tables *)

Lemma register_returned (g gname cid cname : string) (atts : list Attempt)
    (d d' : Db) tr :
  WeeklyAwardConfig.register g gname cid cname atts d = (tr, Returned d') ->
  exists now, In (ok_at now) atts
              /\ d' = with_config (register_stmt now g gname cid cname) d.
Proof.
  intros (prefix & now & rest & -> & _ & -> & _)%stmt_run_retry_returned.
  exists now. split; [|done]. apply in_app_iff. right. by left.
Qed.

(** After [register] has returned, [get] gives the names just registered
    with a fresh [updated_at]; [created_at] is the one of the row that was
    there, or the clock of the statement for a new tenant.  The rows of
    other tenants, the listing of [records] for them, and the other two
    tables are unchanged, and [records] lists the tenant once. *)
Theorem register_then_get (g gname cid cname : string) (atts : list Attempt)
    (d d' : Db) (tr : list StoreEvent) :
  WeeklyAwardConfig.register g gname cid cname atts d = (tr, Returned d') ->
  exists now,
    In (ok_at now) atts
    /\ WeeklyAwardConfig.get g d'
       = Some {| c_guild_name := gname; c_channel_id := cid; c_channel_name := cname;
                 c_created_at :=
                   from_option c_created_at (datetime_now now) (WeeklyAwardConfig.get g d);
                 c_updated_at := datetime_now now |}
    /\ (forall g', g' <> g -> WeeklyAwardConfig.get g' d' = WeeklyAwardConfig.get g' d)
    /\ (forall g' row, g' <> g ->
           (g', row) ∈ WeeklyAwardConfig.records d' <-> (g', row) ∈ WeeklyAwardConfig.records d)
    /\ length (filter (fun gr => gr.1 = g) (WeeklyAwardConfig.records d')) = 1%nat
    /\ reacted_messages d' = reacted_messages d /\ times d' = times d.
Proof.
  intros (now & Hin & ->)%register_returned. exists now.
  unfold WeeklyAwardConfig.get, WeeklyAwardConfig.records, register_stmt. simpl.
  split; [done|]. split; [apply lookup_insert_eq|].
  split; [intros g' Hne; by apply lookup_insert_ne|].
  split; [|split; [|done]].
  - intros g' row Hne. rewrite !elem_of_map_to_list. by rewrite lookup_insert_ne.
  - set (row := {| c_guild_name := gname |}).
    set (m := <[g:=row]> (post_target d)).
    assert (Hperm : filter (fun gr : string * ConfigRow => gr.1 = g) (map_to_list m)
                    ≡ₚ [(g, row)]).
    { apply NoDup_Permutation.
      - apply NoDup_filter, NoDup_map_to_list.
      - apply NoDup_singleton.
      - intros [g' row']. rewrite list_elem_of_filter, elem_of_map_to_list,
          list_elem_of_singleton. simpl. split.
        + intros [-> Hl]. unfold m in Hl. rewrite lookup_insert_eq in Hl. congruence.
        + intros [= -> ->]. split; [done|]. apply lookup_insert_eq. }
    by rewrite Hperm.
Qed.

Lemma register_then_get_witness :
  let d1 := with_config (register_stmt 5000 "g1" "Inugoya" "c9" "awards") empty_db in
  let d2 := with_config (register_stmt 9999 "g1" "Inugoya" "c8" "hall") d1 in
  WeeklyAwardConfig.register "g1" "Inugoya" "c8" "hall" [ok_at 9999] d1 = ([], Returned d2)
  /\ WeeklyAwardConfig.get "g1" d2
     = Some {| c_guild_name := "Inugoya"; c_channel_id := "c8"; c_channel_name := "hall";
               c_created_at := 5000; c_updated_at := 9000 |}.
Proof.
  intros d1 d2. split; [reflexivity|].
  destruct (register_then_get "g1" "Inugoya" "c8" "hall" [ok_at 9999] d1 d2 [] eq_refl)
    as (now & [Hnow|[]] & Hget & _).
  injection Hnow as <-. exact Hget.
Defined.

(** After [unregister] has returned the tenant has no row, [records] does
    not list it, and every other row and table is as it was; for a tenant
    that had no row nothing changes, and unregistering right after a first
    registration gives back the tables as they were. *)
Theorem unregister_forgets (g : string) (atts : list Attempt)
    (d d' : Db) (tr : list StoreEvent) :
  WeeklyAwardConfig.unregister g atts d = (tr, Returned d') ->
  WeeklyAwardConfig.get g d' = None
  /\ (forall row, (g, row) ∉ WeeklyAwardConfig.records d')
  /\ (forall g', g' <> g -> WeeklyAwardConfig.get g' d' = WeeklyAwardConfig.get g' d)
  /\ reacted_messages d' = reacted_messages d /\ times d' = times d
  /\ (WeeklyAwardConfig.get g d = None -> d' = d)
  /\ (forall d0 now gname cid cname,
         WeeklyAwardConfig.get g d0 = None ->
         d = with_config (register_stmt now g gname cid cname) d0 ->
         d' = d0).
Proof.
  intros (prefix & now & rest & _ & _ & -> & _)%stmt_run_retry_returned.
  unfold WeeklyAwardConfig.get, WeeklyAwardConfig.records. simpl.
  split; [apply lookup_delete_eq|].
  split; [intros row; rewrite elem_of_map_to_list, lookup_delete_eq; done|].
  split; [intros g' Hne; by apply lookup_delete_ne|].
  split; [done|]. split; [done|]. split.
  - intros Hnone. destruct d as [rows cfg tms]. unfold with_config. simpl in *.
    f_equal. by apply delete_id.
  - intros d0 now' gname cid cname Hnone ->.
    destruct d0 as [rows cfg tms]. unfold with_config, register_stmt. simpl in *.
    f_equal. rewrite delete_insert_eq. by apply delete_id.
Qed.

Lemma unregister_forgets_witness :
  let d1 := with_config (register_stmt 5000 "g1" "Inugoya" "c9" "awards") empty_db in
  WeeklyAwardConfig.unregister "g1" [failing 1 busy_error; ok_at 2] d1
  = ([Slept], Returned empty_db)
  /\ WeeklyAwardConfig.get "g1" empty_db = None.
Proof.
  intros d1. split; [reflexivity|].
  exact (proj1 (unregister_forgets "g1" [failing 1 busy_error; ok_at 2] d1 empty_db
                  [Slept] eq_refl)).
Defined.

(** The times table stores what it is given, without any range check:
    after [set] has returned, [get] gives back the hour and the minute as
    they were passed and the weekday through [fromNumber]; other tenants'
    rows and the other tables are unchanged; and after [delete] has
    returned [get] finds nothing. *)
Theorem time_set_then_get {C : Collaborators} (g : string) (wd h mi : Z)
    (atts : list Attempt) (d d' : Db) (tr : list StoreEvent) :
  WeeklyAwardTime.set g wd h mi atts d = (tr, Returned d') ->
  (exists now,
      In (ok_at now) atts
      /\ WeeklyAwardTime.get g d'
         = Some {| t_weekday := fromNumber wd; t_hour := h; t_minute := mi;
                   t_created_at :=
                     from_option t_created_at (datetime_now now) (times d !! g);
                   t_updated_at := datetime_now now |})
  /\ (forall g', g' <> g -> WeeklyAwardTime.get g' d' = WeeklyAwardTime.get g' d)
  /\ reacted_messages d' = reacted_messages d /\ post_target d' = post_target d
  /\ (forall atts2 d2 tr2,
         WeeklyAwardTime.delete g atts2 d' = (tr2, Returned d2) ->
         WeeklyAwardTime.get g d2 = None
         /\ forall g', g' <> g -> WeeklyAwardTime.get g' d2 = WeeklyAwardTime.get g' d).
Proof.
  intros (prefix & now & rest & -> & _ & -> & _)%stmt_run_retry_returned.
  unfold WeeklyAwardTime.get, time_set_stmt. simpl.
  split; [|split; [|split; [done|split; [done|]]]].
  - exists now. split; [apply in_app_iff; right; by left|].
    by rewrite lookup_insert_eq.
  - intros g' Hne. by rewrite lookup_insert_ne.
  - intros atts2 d2 tr2 (prefix2 & now2 & rest2 & _ & _ & -> & _)%stmt_run_retry_returned.
    simpl. split; [by rewrite lookup_delete_eq|].
    intros g' Hne. by rewrite lookup_delete_ne, lookup_insert_ne.
Qed.

Lemma time_set_then_get_witness :
  WeeklyAwardTime.set "g1" 9 99 (-5) [ok_at 4321] empty_db
  = ([], Returned (with_times (time_set_stmt 4321 "g1" 9 99 (-5)) empty_db))
  /\ WeeklyAwardTime.get (C:=demo) "g1"
       (with_times (time_set_stmt 4321 "g1" 9 99 (-5)) empty_db)
     = Some {| t_weekday := 9; t_hour := 99; t_minute := -5;
               t_created_at := 4000; t_updated_at := 4000 |}.
Proof.
  split; [reflexivity|].
  destruct (time_set_then_get (C:=demo) "g1" 9 99 (-5) [ok_at 4321] empty_db _ [] eq_refl)
    as ((now & [Hnow|[]] & Hget) & _).
  injection Hnow as <-. exact Hget.
Defined.

(** * Further properties of the scheduler *)

(** ** What a tick leaves alone *)

(** A tick that returns never touches another tenant: the rows of other
    tenants, the two registration tables, the registry entries of other
    tenants and every timeout already pending are as before.  The only
    rows it can remove are rows of its own tenant that are older than seven
    days at the clock at which the delete statement of its clean-up ran;
    the rows that stay keep their order.  A tick that does not match, or
    whose names do not resolve, leaves the whole store as it was. *)
Theorem tick_leaves_other_tenants_alone {C : Collaborators} (args : TickArgs) (now : Z)
    (world : list Guild) (atts : list Attempt) (st st' : State) (effs : list Effect) :
  tick args now world atts st = (effs, Returned st') ->
  filter (fun r => guild_id r <> a_guildId args) (reacted_messages (db st'))
  = filter (fun r => guild_id r <> a_guildId args) (reacted_messages (db st))
  /\ reacted_messages (db st') `sublist_of` reacted_messages (db st)
  /\ (forall r, r ∈ reacted_messages (db st) -> r ∉ reacted_messages (db st') ->
                guild_id r = a_guildId args
                /\ exists now2, deleted_at (a_guildId args) 7 (db st) atts now2
                                 /\ 7 * day_ms < now2 - timestamp r)
  /\ post_target (db st') = post_target (db st)
  /\ times (db st') = times (db st)
  /\ (forall g', g' <> a_guildId args -> instances st' !! g' = instances st !! g')
  /\ (forall h, h <> next_timeout st -> timers st' !! h = timers st !! h)
  /\ (matches now args = false \/ target world args = None -> db st' = db st).
Proof.
  intros Htick.
  assert (Hsame : forall ms, st' = arm args ms st ->
            filter (fun r => guild_id r <> a_guildId args) (reacted_messages (db st'))
            = filter (fun r => guild_id r <> a_guildId args) (reacted_messages (db st))
            /\ reacted_messages (db st') `sublist_of` reacted_messages (db st)
            /\ (forall r, r ∈ reacted_messages (db st) -> r ∉ reacted_messages (db st') ->
                  guild_id r = a_guildId args
                  /\ exists now2, deleted_at (a_guildId args) 7 (db st) atts now2
                                   /\ 7 * day_ms < now2 - timestamp r)
            /\ post_target (db st') = post_target (db st)
            /\ times (db st') = times (db st)
            /\ (forall g', g' <> a_guildId args -> instances st' !! g' = instances st !! g')
            /\ (forall h, h <> next_timeout st -> timers st' !! h = timers st !! h)
            /\ (matches now args = false \/ target world args = None -> db st' = db st)).
  { intros ms ->. simpl. split; [done|]. split; [done|]. split; [done|].
    split; [done|]. split; [done|].
    split; [intros g' Hne; by apply lookup_insert_ne|].
    split; [intros h Hne; by apply lookup_insert_ne | done]. }
  destruct (matches now args) eqn:Hm.
  - destruct (target world args) as [ch|] eqn:Ht.
    + rewrite (tick_resolved _ _ _ _ _ _ Hm Ht) in Htick. simpl in Htick.
      destruct (WeeklyAward.deleteOutdated (a_guildId args) 7 atts (db st))
        as [evs [d|e|]] eqn:Hclean; simpl in Htick; [|done|done].
      injection Htick as _ <-. simpl.
      destruct (deleteOutdated_changes _ _ _ _ _ _ Hclean)
        as (Hother & Hsub & _ & Hcfg & Htms & _).
      split; [done|]. split; [done|]. split.
      * intros r Hin Hout.
        destruct (deleteOutdated_returned_rounds _ _ _ _ _ _ _ (le_n _) Hclean)
          as (now1 & tail & Hat & Hres).
        destruct (0 <? count_outdated_stmt now1 (a_guildId args) 7
                         (reacted_messages (db st))) eqn:Hpos.
        -- destruct Hres as (now2 & rest & -> & ->). simpl in Hout.
           apply delete_outdated_stmt_gone in Hout as [Hg Hage]; [|done].
           split; [done|]. exists now2. split; [|done].
           exists now1, rest. split; [done | by apply Z.ltb_lt].
        -- subst d. done.
      * split; [done|]. split; [done|].
        split; [intros g' Hne; by apply lookup_insert_ne|].
        split; [intros h Hne; by apply lookup_insert_ne|].
        by intros [|].
    + rewrite (tick_unresolved _ _ _ _ _ Hm Ht) in Htick.
      injection Htick as _ <-. by eapply Hsame.
  - rewrite (tick_unmatched _ _ _ _ _ Hm) in Htick.
    injection Htick as _ <-. by eapply Hsame.
Qed.

Lemma tick_leaves_other_tenants_alone_witness :
  let rows := [demo_row "old" "g2" 4 0; demo_row "m1" "g1" 2 0;
               demo_row "m2" "g1" 1 (report_time - day_ms)] in
  let run := tick (C:=demo) demo_args report_time demo_world
               [ok_at report_time; ok_at report_time] (demo_state rows) in
  run.2 = Returned (arm demo_args almost_a_week
                      (demo_state [demo_row "old" "g2" 4 0;
                                   demo_row "m2" "g1" 1 (report_time - day_ms)]))
  /\ filter (fun r => guild_id r <> "g1")
       [demo_row "old" "g2" 4 0; demo_row "m2" "g1" 1 (report_time - day_ms)]
     = filter (fun r => guild_id r <> "g1") rows.
Proof.
  intros rows run. split; [reflexivity|].
  exact (proj1 (tick_leaves_other_tenants_alone (C:=demo) demo_args report_time
                  demo_world [ok_at report_time; ok_at report_time] (demo_state rows)
                  (arm demo_args almost_a_week
                     (demo_state [demo_row "old" "g2" 4 0;
                                  demo_row "m2" "g1" 1 (report_time - day_ms)]))
                  run.1 eq_refl)).
Defined.

(** ** Starting and removing a tenant *)

Lemma tick_arms {C : Collaborators} (args : TickArgs) (now : Z) (world : list Guild)
    (atts : list Attempt) (st st' : State) (effs : list Effect) :
  tick args now world atts st = (effs, Returned st') ->
  instances st' = <[ a_guildId args := next_timeout st ]> (instances st)
  /\ timers st'
     = <[ next_timeout st :=
            {| delay := if matches now args then almost_a_week else 1000;
               callback := args |} ]> (timers st)
  /\ next_timeout st' = S (next_timeout st).
Proof.
  intros Htick. destruct (matches now args) eqn:Hm.
  - destruct (target world args) as [ch|] eqn:Ht.
    + rewrite (tick_resolved _ _ _ _ _ _ Hm Ht) in Htick. simpl in Htick.
      destruct (WeeklyAward.deleteOutdated (a_guildId args) 7 atts (db st))
        as [evs [d|e|]]; simpl in Htick; [|done|done].
      by injection Htick as _ <-.
    + rewrite (tick_unresolved _ _ _ _ _ Hm Ht) in Htick. by injection Htick as _ <-.
  - rewrite (tick_unmatched _ _ _ _ _ Hm) in Htick. by injection Htick as _ <-.
Qed.

(** [startAward] does nothing but log when the tenant lacks a row in
    post_target or in times.  When both rows are there and the call
    returns, the registry holds a fresh timeout for the tenant, pending
    with the tick's delay and re-arming the tick with the stored names
    and time; the timeout the registry held before is no longer pending;
    other tenants' registry entries and timeouts are as before. *)
Theorem startAward_replaces_the_loop {C : Collaborators} (g : string) (now : Z)
    (world : list Guild) (atts : list Attempt) (st : State) :
  (WeeklyAwardConfig.get g (db st) = None \/ WeeklyAwardTime.get g (db st) = None ->
   startAward g now world atts st = ([Logged None (StartNotRegistered g)], Returned st))
  /\ (forall configRecord timeRecord effs st',
         WeeklyAwardConfig.get g (db st) = Some configRecord ->
         WeeklyAwardTime.get g (db st) = Some timeRecord ->
         startAward g now world atts st = (effs, Returned st') ->
         let args := {| a_guildId := g;
                        a_guildName := c_guild_name configRecord;
                        a_channelName := c_channel_name configRecord;
                        a_weekday := t_weekday timeRecord;
                        a_hour := t_hour timeRecord;
                        a_minute := t_minute timeRecord |} in
         instances st' !! g = Some (next_timeout st)
         /\ timers st' !! next_timeout st
            = Some {| delay := if matches now args then almost_a_week else 1000;
                      callback := args |}
         /\ (forall h0, instances st !! g = Some h0 -> h0 <> next_timeout st ->
                        timers st' !! h0 = None)
         /\ (forall g', g' <> g -> instances st' !! g' = instances st !! g')
         /\ (forall h, h <> next_timeout st -> instances st !! g <> Some h ->
                       timers st' !! h = timers st !! h)).
Proof.
  unfold startAward. split.
  - intros [-> | Ht]; [done|].
    destruct (WeeklyAwardConfig.get g (db st)); [by rewrite Ht | done].
  - intros configRecord timeRecord effs st' Hcfg Htime Hr. cbv zeta.
    rewrite Hcfg, Htime in Hr.
    set (args := {| a_guildId := g; a_guildName := c_guild_name configRecord |}) in *.
    destruct (tick args now world atts _) as [effs' c] eqn:Htick.
    simpl in Hr. injection Hr as _ ->.
    destruct (tick_arms _ _ _ _ _ _ _ Htick) as (Hi & Ht & _).
    assert (Hstop : exists stopped,
               (match instances st !! g with
                | Some _ => stopAward g st
                | None => ([], st)
                end).2 = stopped
               /\ instances stopped = instances st
               /\ next_timeout stopped = next_timeout st
               /\ timers stopped
                  = match instances st !! g with
                    | Some h0 => base.delete h0 (timers st)
                    | None => timers st
                    end).
    { eexists. split; [reflexivity|]. unfold stopAward.
      destruct (instances st !! g) as [h0|] eqn:Hreg; [|done].
      by rewrite Hcfg. }
    destruct Hstop as (stopped & Hs & Hsi & Hsn & Hst).
    rewrite Hs in Hi, Ht. rewrite Hsi in Hi. rewrite Hsn in Hi, Ht. rewrite Hst in Ht.
    rewrite Hi, Ht. simpl.
    split; [apply lookup_insert_eq|]. split; [apply lookup_insert_eq|].
    split; [|split].
    + intros h0 -> Hne. rewrite lookup_insert_ne by done. apply lookup_delete_eq.
    + intros g' Hne. by apply lookup_insert_ne.
    + intros h Hne Hreg. rewrite lookup_insert_ne by done.
      destruct (instances st !! g) as [h0|]; [|done].
      apply lookup_delete_ne. congruence.
Qed.

Lemma startAward_replaces_the_loop_witness :
  let st := with_db waiting_unregistered
              (with_times (time_set_stmt 0 "g1" 3 9 0)
                 (with_config (fun _ => {[ "g1" := demo_config ]}) empty_db)) in
  WeeklyAwardTime.get (C:=demo) "g1" (db waiting_registered) = None
  /\ startAward (C:=demo) "g1" 5 demo_world [] waiting_registered
     = ([Logged None (StartNotRegistered "g1")], Returned waiting_registered)
  /\ (startAward (C:=demo) "g1" 5 demo_world [] st).2
     = Returned (arm demo_args 1000 (clearTimeout 0 st))
  /\ instances st !! "g1" = Some 0%nat
  /\ timers (arm demo_args 1000 (clearTimeout 0 st)) !! 0%nat = None
  /\ timers (arm demo_args 1000 (clearTimeout 0 st)) !! 1%nat
     = Some {| delay := 1000; callback := demo_args |}.
Proof.
  intros st.
  destruct (startAward_replaces_the_loop (C:=demo) "g1" 5 demo_world [] waiting_registered)
    as (Hmissing & _).
  destruct (startAward_replaces_the_loop (C:=demo) "g1" 5 demo_world [] st)
    as (_ & Hstart).
  destruct (Hstart demo_config _ _ (arm demo_args 1000 (clearTimeout 0 st))
              eq_refl eq_refl eq_refl) as (_ & Hnew & Hold & _).
  split; [reflexivity|]. split; [exact (Hmissing (or_intror eq_refl))|].
  split; [reflexivity|]. split; [reflexivity|].
  split; [exact (Hold 0%nat eq_refl ltac:(discriminate)) | exact Hnew].
Defined.

(** What [stopAward] does to the state, in one equation for each part. *)
Lemma stopAward_state {C : Collaborators} (g : string) (st : State) :
  instances (stopAward g st).2 = instances st
  /\ db (stopAward g st).2 = db st
  /\ timers (stopAward g st).2
     = match WeeklyAwardConfig.get g (db st), instances st !! g with
       | Some _, Some h => base.delete h (timers st)
       | _, _ => timers st
       end.
Proof.
  unfold stopAward.
  destruct (WeeklyAwardConfig.get g (db st)); [|done].
  by destruct (instances st !! g).
Qed.

(** When a guild is removed and the handler returns: the guild has no row
    in post_target any more; its row in times, its tracked records and its
    registry entry all stay.  If the guild was registered, the timeout the
    registry holds for it has been cleared; if it was not, that timeout is
    left pending. *)
Theorem onGuildDelete_effect {C : Collaborators} (g : string) (atts : list Attempt)
    (st st' : State) (effs : list Effect) :
  onGuildDelete g atts st = (effs, Returned st') ->
  WeeklyAwardConfig.get g (db st') = None
  /\ (forall g', g' <> g ->
                 WeeklyAwardConfig.get g' (db st') = WeeklyAwardConfig.get g' (db st))
  /\ times (db st') = times (db st)
  /\ reacted_messages (db st') = reacted_messages (db st)
  /\ instances st' = instances st
  /\ (forall h, instances st !! g = Some h ->
                timers st' !! h
                = match WeeklyAwardConfig.get g (db st) with
                  | Some _ => None
                  | None => timers st !! h
                  end)
  /\ (forall h, instances st !! g <> Some h -> timers st' !! h = timers st !! h).
Proof.
  unfold onGuildDelete. intros Hr.
  destruct (stopAward_state g st) as (Hi & Hd & Ht).
  destruct (WeeklyAwardConfig.unregister g atts (db (stopAward g st).2))
    as [evs [d'|e|]] eqn:Hun; simpl in Hr; [|done|done].
  injection Hr as _ <-. simpl.
  apply stmt_run_retry_returned in Hun as (prefix & now & rest & _ & _ & -> & _).
  simpl. rewrite Hd.
  split; [apply lookup_delete_eq|].
  split; [intros g' Hne; by apply lookup_delete_ne|].
  split; [done|]. split; [done|].
  split; [done|]. rewrite Ht. split.
  - intros h Hreg. rewrite Hreg.
    destruct (WeeklyAwardConfig.get g (db st)); [apply lookup_delete_eq | done].
  - intros h Hreg.
    destruct (WeeklyAwardConfig.get g (db st)); [|done].
    destruct (instances st !! g) as [h0|]; [|done].
    apply lookup_delete_ne. congruence.
Qed.

Lemma onGuildDelete_effect_witness :
  onGuildDelete (C:=demo) "g1" [ok_at 77] waiting_registered
  = ([Logged None (Stopping demo_config)],
     Returned (clearTimeout 0 waiting_unregistered))
  /\ WeeklyAwardConfig.get "g1" (db (clearTimeout 0 waiting_unregistered)) = None
  /\ instances (clearTimeout 0 waiting_unregistered) !! "g1" = Some 0%nat.
Proof.
  split; [reflexivity|]. split; [|reflexivity].
  exact (proj1 (onGuildDelete_effect (C:=demo) "g1" [ok_at 77] waiting_registered
                  (clearTimeout 0 waiting_unregistered)
                  [Logged None (Stopping demo_config)] eq_refl)).
Defined.

(** ** One loop for each tenant *)

Section OneLoop.
Context {C : Collaborators}.

Lemma one_loop_same_timers (st st' : State) :
  instances st' = instances st -> timers st' = timers st ->
  next_timeout st' = next_timeout st ->
  one_loop_per_tenant st -> one_loop_per_tenant st'.
Proof. unfold one_loop_per_tenant. intros -> -> ->. done. Qed.

Lemma one_loop_clearTimeout (h : nat) (st : State) :
  one_loop_per_tenant st -> one_loop_per_tenant (clearTimeout h st).
Proof.
  intros Hinv h' timer Hp. simpl in *.
  apply lookup_delete_Some in Hp as [_ Hp]. by apply Hinv.
Qed.

Lemma one_loop_tick (args : TickArgs) (now : Z) (world : list Guild)
    (atts : list Attempt) (st st' : State) (effs : list Effect) :
  one_loop_per_tenant st ->
  (forall h timer, timers st !! h = Some timer ->
                   a_guildId (callback timer) <> a_guildId args) ->
  tick args now world atts st = (effs, Returned st') ->
  one_loop_per_tenant st'.
Proof.
  intros Hinv Hnone (Hi & Ht & Hn)%tick_arms h timer Hp.
  rewrite Hi, Hn. rewrite Ht in Hp.
  destruct (decide (h = next_timeout st)) as [->|Hne].
  - rewrite lookup_insert_eq in Hp. injection Hp as <-. simpl.
    rewrite lookup_insert_eq. split; [done | lia].
  - rewrite lookup_insert_ne in Hp by done.
    destruct (Hinv h timer Hp) as [Hreg Hlt].
    rewrite lookup_insert_ne; [split; [done | lia]|].
    intros Heq. by apply (Hnone h timer Hp).
Qed.

Lemma one_loop_await_store (st st' : State) (r : StoreRun Db) (effs : list Effect) :
  one_loop_per_tenant st ->
  await_store st r = (effs, Returned st') ->
  one_loop_per_tenant st'.
Proof.
  unfold await_store. intros Hinv Hr. destruct r as [evs [d|e|]]; simpl in Hr; [|done|done].
  injection Hr as _ <-. by eapply one_loop_same_timers.
Qed.
End OneLoop.

(** Taking handler bodies as run one after another (no handler starts
    while a tick is suspended), the scheduler keeps this invariant: every
    pending timeout is the one the registry holds for the tenant of its
    callback.  It holds after [startAward], after a timeout fires and its
    tick returns, after [stopAward], after a guild is removed and after a
    reaction event.  As a consequence two pending timeouts are never for
    the same tenant. *)
Theorem one_loop_per_tenant_kept {C : Collaborators} (st : State) :
  one_loop_per_tenant st ->
  (forall g now world atts effs st',
      startAward g now world atts st = (effs, Returned st') -> one_loop_per_tenant st')
  /\ (forall h now world atts effs st',
         fire h now world atts st = (effs, Returned st') -> one_loop_per_tenant st')
  /\ (forall g, one_loop_per_tenant (stopAward g st).2)
  /\ (forall g atts effs st',
         onGuildDelete g atts st = (effs, Returned st') -> one_loop_per_tenant st')
  /\ (forall message atts effs st',
         onMessageReactionAdd message atts st = (effs, Returned st')
         \/ onMessageReactionRemove message atts st = (effs, Returned st') ->
         one_loop_per_tenant st')
  /\ (forall h1 h2 timer1 timer2,
         timers st !! h1 = Some timer1 -> timers st !! h2 = Some timer2 ->
         a_guildId (callback timer1) = a_guildId (callback timer2) -> h1 = h2).
Proof.
  intros Hinv.
  assert (Hstop : forall g, one_loop_per_tenant (stopAward g st).2).
  { intros g. unfold stopAward.
    destruct (WeeklyAwardConfig.get g (db st)); [|done].
    destruct (instances st !! g); [by apply one_loop_clearTimeout | done]. }
  split; [|split; [|split; [done|split; [|split]]]].
  - intros g now world atts effs st' Hr. unfold startAward in Hr.
    destruct (WeeklyAwardConfig.get g (db st)) as [configRecord|] eqn:Hcfg;
      [|by injection Hr as _ <-].
    destruct (WeeklyAwardTime.get g (db st)) as [timeRecord|];
      [|by injection Hr as _ <-].
    destruct (tick _ now world atts _) as [effs' c] eqn:Htick.
    simpl in Hr. injection Hr as _ ->.
    eapply one_loop_tick; [| |exact Htick].
    + destruct (instances st !! g); [apply Hstop | done].
    + simpl. intros h timer Hp Hg.
      destruct (instances st !! g) as [h0|] eqn:Hreg.
      * unfold stopAward in Hp. rewrite Hcfg, Hreg in Hp. simpl in Hp.
        apply lookup_delete_Some in Hp as [Hne Hp].
        destruct (Hinv h timer Hp) as [Hreg' _]. congruence.
      * simpl in Hp. destruct (Hinv h timer Hp) as [Hreg' _]. congruence.
  - intros h now world atts effs st' Hr. unfold fire in Hr.
    destruct (timers st !! h) as [timer|] eqn:Hp; [|by injection Hr as _ <-].
    eapply one_loop_tick; [by apply one_loop_clearTimeout| |exact Hr].
    simpl. intros h' timer' [Hne Hp']%lookup_delete_Some Hg.
    destruct (Hinv h timer Hp) as [Hreg _]. destruct (Hinv h' timer' Hp') as [Hreg' _].
    congruence.
  - intros g atts effs st' Hr. unfold onGuildDelete in Hr.
    destruct (await_store _ _) as [effs' c] eqn:Haw. simpl in Hr. injection Hr as _ ->.
    eapply one_loop_await_store; [apply Hstop | exact Haw].
  - intros message atts effs st' [Hr|Hr];
      unfold onMessageReactionAdd, onMessageReactionRemove in Hr.
    + destruct (bot (author message) || negb (inGuild message));
        [by injection Hr as _ <-|].
      destruct (WeeklyAwardConfig.get _ _); [|by injection Hr as _ <-].
      by eapply one_loop_await_store.
    + destruct (bot (author message) || negb (inGuild message));
        [by injection Hr as _ <-|].
      destruct (0 <? total_count message); by eapply one_loop_await_store.
  - intros h1 h2 timer1 timer2 Hp1 Hp2 Hg.
    destruct (Hinv h1 timer1 Hp1) as [Hreg1 _]. destruct (Hinv h2 timer2 Hp2) as [Hreg2 _].
    congruence.
Qed.

Lemma one_loop_per_tenant_kept_witness :
  one_loop_per_tenant waiting_unregistered
  /\ fire (C:=demo) 0 5 demo_world [] waiting_unregistered
     = ([], Returned (arm demo_args 1000 (clearTimeout 0 waiting_unregistered)))
  /\ one_loop_per_tenant (arm demo_args 1000 (clearTimeout 0 waiting_unregistered)).
Proof.
  assert (Hinv : one_loop_per_tenant waiting_unregistered).
  { intros h timer Hp. simpl in Hp.
    apply lookup_singleton_Some in Hp as [<- <-]. split; [reflexivity | simpl; lia]. }
  split; [exact Hinv|]. split; [reflexivity|].
  exact (proj1 (proj2 (one_loop_per_tenant_kept (C:=demo) waiting_unregistered Hinv))
           0%nat 5 demo_world [] [] _ eq_refl).
Defined.

(** ** Shape of a report *)

Section ReportShape.
Context {C : Collaborators}.






End ReportShape.



(** ** Counts stay positive *)

Lemma upsert_stmt_Forall (P : Row -> Prop) (p : Row) (tbl : list Row) :
  P p -> (forall r, P r -> P (on_conflict p r)) ->
  Forall P tbl -> Forall P (upsert_stmt p tbl).
Proof.
  intros Hp Hc. induction 1 as [|r tbl Hr Htbl IH]; simpl.
  - by constructor.
  - destruct (bool_decide _); constructor; auto.
Qed.

Lemma total_count_bounds (counts : list Z) (acc : Z) :
  Forall (fun c => 0 <= c) counts ->
  acc <= fold_left Z.add counts acc
  /\ (Forall (fun c => 0 < c) counts -> counts <> [] -> acc < fold_left Z.add counts acc).
Proof.
  intros Hnn. revert acc. induction Hnn as [|c counts Hc Hnn IH]; intros acc; simpl.
  - split; [lia | done].
  - destruct (IH (acc + c)) as [Hle Hlt]. split; [lia|].
    intros Hpos _. apply Forall_cons in Hpos as [Hcpos Hpos]. lia.
Qed.

Lemma tick_keeps_a_sublist {C : Collaborators} (args : TickArgs) (now : Z)
    (world : list Guild) (atts : list Attempt) (st st' : State) (effs : list Effect) :
  tick args now world atts st = (effs, Returned st') ->
  reacted_messages (db st') `sublist_of` reacted_messages (db st).
Proof.
  intros Htick. destruct (matches now args) eqn:Hm.
  - destruct (target world args) as [ch|] eqn:Ht.
    + rewrite (tick_resolved _ _ _ _ _ _ Hm Ht) in Htick. simpl in Htick.
      destruct (WeeklyAward.deleteOutdated (a_guildId args) 7 atts (db st))
        as [evs [d|e|]] eqn:Hclean; simpl in Htick; [|done|done].
      injection Htick as _ <-. simpl.
      by destruct (deleteOutdated_changes _ _ _ _ _ _ Hclean) as (_ & Hsub & _).
    + rewrite (tick_unresolved _ _ _ _ _ Hm Ht) in Htick. by injection Htick as _ <-.
  - rewrite (tick_unmatched _ _ _ _ _ Hm) in Htick. by injection Htick as _ <-.
Qed.

(** If every tracked record has a positive count, it is still so after a
    reaction-removed event, after a tick, and after a reaction-added
    event whose message has a positive total; the add handler itself does
    not test the total.  The total of non-negative reaction counts is
    non-negative, and positive when every count is and there is one. *)
Theorem counts_stay_positive {C : Collaborators} (st : State) :
  counts_positive (db st) ->
  (forall message atts effs st',
      onMessageReactionRemove message atts st = (effs, Returned st') ->
      counts_positive (db st'))
  /\ (forall message atts effs st',
         0 < total_count message ->
         onMessageReactionAdd message atts st = (effs, Returned st') ->
         counts_positive (db st'))
  /\ (forall args now world atts effs st',
         tick args now world atts st = (effs, Returned st') ->
         counts_positive (db st'))
  /\ (forall message,
         Forall (fun c => 0 <= c) (reactions message) ->
         0 <= total_count message
         /\ (Forall (fun c => 0 < c) (reactions message) -> reactions message <> [] ->
             0 < total_count message)).
Proof.
  intros Hpos.
  assert (Hset : forall message count atts effs st',
             0 < count ->
             await_store st (WeeklyAward.set message count atts (db st)) = (effs, Returned st') ->
             counts_positive (db st')).
  { intros message count atts effs st' Hc Hr. unfold await_store in Hr.
    destruct (WeeklyAward.set message count atts (db st)) as [evs [d|e|]] eqn:Hs;
      simpl in Hr; [|done|done].
    injection Hr as _ <-. apply set_returned in Hs as (now & _ & ->).
    unfold counts_positive. simpl. by apply upsert_stmt_Forall. }
  split; [|split; [|split]].
  - intros message atts effs st' Hr. unfold onMessageReactionRemove in Hr.
    destruct (bot (author message) || negb (inGuild message));
      [by injection Hr as _ <-|].
    destruct (Z.ltb_spec 0 (total_count message)) as [Hc|Hc]; [by eapply Hset|].
    unfold await_store in Hr.
    destruct (WeeklyAward.delete _ _ _ atts (db st)) as [evs [d|e|]] eqn:Hd;
      simpl in Hr; [|done|done].
    injection Hr as _ <-. apply delete_returned in Hd as ->.
    unfold counts_positive, delete_stmt in *. simpl. rewrite Forall_forall in *.
    intros r [_ Hin]%list_elem_of_filter. by apply Hpos.
  - intros message atts effs st' Hc Hr. unfold onMessageReactionAdd in Hr.
    destruct (bot (author message) || negb (inGuild message));
      [by injection Hr as _ <-|].
    destruct (WeeklyAwardConfig.get _ _); [by eapply Hset | by injection Hr as _ <-].
  - intros args now world atts effs st' Hr.
    pose proof (tick_keeps_a_sublist _ _ _ _ _ _ _ Hr) as Hsub.
    unfold counts_positive in *. rewrite Forall_forall in *.
    intros r Hin. apply Hpos. by eapply elem_of_sublist.
  - intros message Hnn. unfold total_count. by apply total_count_bounds.
Qed.

Lemma counts_stay_positive_witness :
  let message := demo_message "m1" "g1" false 500 [2; 1] in
  let st := demo_state [demo_row "m0" "g2" 4 100] in
  counts_positive (db st)
  /\ onMessageReactionRemove (C:=demo) message [ok_at 7000] st
     = ([], Returned (demo_state [demo_row "m0" "g2" 4 100; set_params message 3 7000]))
  /\ counts_positive
       (db (demo_state [demo_row "m0" "g2" 4 100; set_params message 3 7000])).
Proof.
  intros message st.
  assert (Hpos : counts_positive (db st)).
  { apply Forall_cons. split; [reflexivity | apply Forall_nil_2]. }
  split; [exact Hpos|]. split; [reflexivity|].
  exact (proj1 (counts_stay_positive (C:=demo) st Hpos) message [ok_at 7000] [] _ eq_refl).
Defined.

(** * Further properties of the tally *)

Lemma concat_obj_set (k : Z) (m : Message) (o : list (Z * list Message)) :
  concat (map snd (obj_set k (default [] (obj_get k o) ++ [m]) o))
  ≡ₚ concat (map snd o) ++ [m].
Proof.
  induction o as [|[k' v'] o IH]; simpl; [done|].
  destruct (Z.eqb_spec k k') as [->|Hne]; simpl.
  - rewrite <- !app_assoc. f_equiv. apply Permutation_app_comm.
  - by rewrite IH, app_assoc.
Qed.

Lemma talliedMessages_partition (messages : list (Message * Z)) :
  concat (map snd (talliedMessages messages)) ≡ₚ map fst messages.
Proof.
  induction messages as [|mr messages IH] using rev_ind; [done|].
  rewrite talliedMessages_snoc, concat_obj_set, IH, map_app. done.
Qed.

Lemma items_above_grows (groups : list (Z * list Message)) (i : nat)
    (count : Z) (group : list Message) :
  groups !! i = Some (count, group) ->
  items_above (S i) groups = items_above i groups + Z.of_nat (length group).
Proof.
  intros Hi. unfold items_above. rewrite (take_S_r _ _ _ Hi).
  rewrite map_app, concat_app, length_app. simpl. rewrite app_nil_r. lia.
Qed.

Lemma items_above_mono (groups : list (Z * list Message)) (i j : nat) :
  (forall count group, (count, group) ∈ groups -> group <> []) ->
  (i < j)%nat -> (j < length groups)%nat ->
  items_above i groups < items_above j groups.
Proof.
  intros Hne Hij Hj. induction Hij as [|j Hij IH].
  - destruct (lookup_lt_is_Some_2 groups i ltac:(lia)) as [[count group] Hi].
    rewrite (items_above_grows _ _ _ _ Hi).
    assert (group <> []) by (eapply Hne, list_elem_of_lookup_2, Hi).
    destruct group; [done | simpl; lia].
  - destruct (lookup_lt_is_Some_2 groups j ltac:(lia)) as [[count group] Hjj].
    rewrite (items_above_grows _ _ _ _ Hjj). specialize (IH ltac:(lia)). lia.
Qed.

(** The tally loses no message and repeats none: the groups taken
    together are the resolved messages, each once.  Among the kept groups
    the ranks increase strictly with the position, so only the first block
    has rank 1 and is titled with the superlative, and no two blocks show
    the same rank. *)
Theorem tally_partitions_and_ranks_increase (messages : list (Message * Z)) :
  concat (map snd (messagesArray messages)) ≡ₚ map fst messages
  /\ (forall i j,
         (i < j)%nat -> (j < length (take3 (messagesArray messages)))%nat ->
         1 + items_above i (take3 (messagesArray messages))
         < 1 + items_above j (take3 (messagesArray messages)))
  /\ (forall i,
         (i < length (take3 (messagesArray messages)))%nat ->
         (rankText (1 + items_above i (take3 (messagesArray messages))) = "最も"
          <-> i = 0%nat)).
Proof.
  assert (Hne : forall count group,
             (count, group) ∈ take3 (messagesArray messages) -> group <> []).
  { intros count group Hin. rewrite take3_take in Hin.
    eapply elem_of_sublist in Hin; [|apply sublist_take].
    by apply messagesArray_elem in Hin as [_ ?]. }
  split; [|split].
  - assert (map snd (messagesArray messages) ≡ₚ map snd (talliedMessages messages)) as ->
      by (apply Permutation_map, messagesArray_perm).
    apply talliedMessages_partition.
  - intros i j Hij Hj. pose proof (items_above_mono _ i j Hne Hij Hj). lia.
  - intros i Hi. unfold rankText. split.
    + destruct i as [|i]; [done|]. intros Htext.
      pose proof (items_above_mono _ 0 (S i) Hne ltac:(lia) Hi) as Hlt.
      unfold items_above at 1 in Hlt. simpl in Hlt.
      destruct (Z.eqb_spec (1 + items_above (S i) (take3 (messagesArray messages))) 1);
        [lia|].
      exfalso. revert Htext. unfold number_to_string.
      destruct (NilZero.string_of_int _); discriminate.
    + intros ->. by unfold items_above.
Qed.

Lemma tally_partitions_and_ranks_increase_witness :
  let messages := [(msg_c, 3); (msg_a, 5); (msg_d, 1); (msg_b, 5)] in
  (1 < length (take3 (messagesArray messages)))%nat
  /\ 1 + items_above 0 (take3 (messagesArray messages))
     < 1 + items_above 1 (take3 (messagesArray messages))
  /\ length (concat (map snd (messagesArray messages))) = 4%nat.
Proof.
  intros messages.
  destruct (tally_partitions_and_ranks_increase messages) as (Hperm & Hranks & _).
  assert (Hlen : (1 < length (take3 (messagesArray messages)))%nat) by (simpl; lia).
  split; [exact Hlen|]. split; [exact (Hranks 0%nat 1%nat ltac:(lia) Hlen)|].
  by rewrite Hperm.
Defined.

(** * Further properties of message resolution *)

Lemma fetchMessageByIds_found (world : list Guild) (g c m : string) (message : Message) :
  fetchMessageByIds world g c m = Some message ->
  id message = m
  /\ exists guild channel,
      guild ∈ world /\ g_id guild = g
      /\ channel ∈ g_channels guild /\ ch_id channel = c
      /\ isTextBased channel = true /\ isVoiceBased channel = false
      /\ message ∈ ch_messages channel.
Proof.
  unfold fetchMessageByIds. intros Hf.
  destruct (find _ world) as [guild|] eqn:Hg; [|done].
  destruct (find _ (g_channels guild)) as [channel|] eqn:Hc; [|done].
  destruct (isTextBased channel) eqn:Ht; [|done].
  destruct (isVoiceBased channel) eqn:Hv; [done|]. simpl in Hf.
  apply find_some in Hg as [Hgin Hgid%bool_decide_eq_true].
  apply find_some in Hc as [Hcin Hcid%bool_decide_eq_true].
  apply find_some in Hf as [Hmin Hmid%bool_decide_eq_true].
  split; [done|]. exists guild, channel.
  rewrite !list_elem_of_In. done.
Qed.

Lemma omap_filter_None {A B : Type} (f : A -> option B) (P : A -> Prop)
    `{!forall x, Decision (P x)} (l : list A) :
  (forall x, ~ P x -> f x = None) ->
  omap f l = omap f (filter P l).
Proof.
  intros Hnone. induction l as [|x l IH]; [done|].
  destruct (decide (P x)) as [Hx|Hx].
  - rewrite filter_cons_True by done.
    change (match f x with Some y => y :: omap f l | None => omap f l end
            = match f x with
              | Some y => y :: omap f (filter P l)
              | None => omap f (filter P l)
              end).
    by rewrite IH.
  - rewrite filter_cons_False by done.
    change (match f x with Some y => y :: omap f l | None => omap f l end
            = omap f (filter P l)).
    by rewrite (Hnone x Hx).
Qed.

Lemma omap_length_le {A B : Type} (f : A -> option B) (l : list A) :
  (length (omap f l) <= length l)%nat.
Proof.
  induction l as [|x l IH]; [done|].
  change (length (match f x with Some y => y :: omap f l | None => omap f l end)
          <= S (length l))%nat.
  destruct (f x); simpl; lia.
Qed.

(** Every entry of a tenant's tally comes from a record of that tenant:
    its message has the record's message id and sits in a text channel
    that is not a voice channel, with the record's channel id, in the
    guild with the tenant's id; and the count it is ranked by is the one
    stored in the record, not the message's live reactions.  Records of
    other tenants contribute nothing, so the tallied list is the same as
    the one computed from the tenant's own records alone. *)
Theorem tally_uses_only_tenant_records (world : list Guild)
    (g : string) (records : list WeeklyAwardRecord) :
  (forall message count,
      (message, count) ∈ omap (fetchesMessage world g) records ->
      exists record,
        record ∈ records /\ rec_guildId record = g
        /\ count = reactionsCount record
        /\ id message = rec_messageId record
        /\ exists guild channel,
            guild ∈ world /\ g_id guild = g
            /\ channel ∈ g_channels guild /\ ch_id channel = rec_channelId record
            /\ isTextBased channel = true /\ isVoiceBased channel = false
            /\ message ∈ ch_messages channel)
  /\ omap (fetchesMessage world g) records
     = omap (fetchesMessage world g) (filter (fun r => rec_guildId r = g) records)
  /\ (length (omap (fetchesMessage world g) records)
      <= length (filter (fun r => rec_guildId r = g) records))%nat.
Proof.
  assert (Heq : omap (fetchesMessage world g) records
                = omap (fetchesMessage world g) (filter (fun r => rec_guildId r = g) records)).
  { apply omap_filter_None. intros r Hr. unfold fetchesMessage.
    by rewrite bool_decide_true. }
  split; [|split; [done|]].
  - intros message count (record & Hin & Hf)%list_elem_of_omap.
    unfold fetchesMessage in Hf.
    destruct (decide (rec_guildId record <> g)) as [Hne|Heg];
      [by rewrite bool_decide_true in Hf|].
    rewrite bool_decide_false in Hf by done.
    destruct (fetchMessageByIds _ _ _ _) as [message'|] eqn:Hfetch; [|done].
    injection Hf as <- <-. exists record.
    apply fetchMessageByIds_found in Hfetch as (Hid & Hwhere).
    split; [done|]. split; [by apply dec_stable|]. done.
  - rewrite Heq. apply omap_length_le.
Qed.

Lemma tally_uses_only_tenant_records_witness :
  let records := map to_record [demo_row "m9" "g2" 4 0; demo_row "m1" "g1" 7 0] in
  omap (fetchesMessage demo_world "g1") records
  = [(demo_message "m1" "g1" false 0 [2], 7)]
  /\ (length (omap (fetchesMessage demo_world "g1") records)
      <= length (filter (fun r => rec_guildId r = "g1") records))%nat.
Proof.
  intros records. split; [reflexivity|].
  exact (proj2 (proj2 (tally_uses_only_tenant_records demo_world "g1" records))).
Defined.

(** * Colour of an embed *)

Lemma to_int32_small (z : Z) : - 2 ^ 31 <= z < 2 ^ 31 -> to_int32 z = z.
Proof. unfold to_int32. intros Hz. rewrite Z.mod_small; lia. Qed.

(** For colour channels between 0 and 255 the packed number is
    65536 red + 256 green + blue: it lies between 0 and 0xFFFFFF and each
    channel can be read back from it.  [getColorAsInt] gives black when
    the library fails, and [getAverageColor] gives nothing for a missing
    avatar url. *)
Theorem rgb_number_packs (red green blue : Z) :
  0 <= red <= 255 -> 0 <= green <= 255 -> 0 <= blue <= 255 ->
  rgb_number red green blue = 65536 * red + 256 * green + blue
  /\ 0 <= rgb_number red green blue <= 16777215
  /\ rgb_number red green blue / 65536 = red
  /\ (rgb_number red green blue / 256) mod 256 = green
  /\ rgb_number red green blue mod 256 = blue
  /\ getColorAsInt (Some (red, green, blue)) = rgb_number red green blue
  /\ getColorAsInt None = 0
  /\ (forall average, getAverageColor average None = None)
  /\ (forall average resource,
         average resource = (red, green, blue) ->
         getAverageColor average (Some resource) = Some (rgb_number red green blue)).
Proof.
  intros Hr Hg Hb.
  assert (Heq : rgb_number red green blue = 65536 * red + 256 * green + blue).
  { unfold rgb_number, shift_left.
    rewrite (to_int32_small red), (to_int32_small green) by lia.
    change (16 mod 32) with 16. change (8 mod 32) with 8.
    rewrite !Z.shiftl_mul_pow2 by lia.
    rewrite !to_int32_small by lia. lia. }
  split; [exact Heq|]. rewrite Heq.
  split; [lia|]. split; [|split; [|split]].
  - Z.div_mod_to_equations. lia.
  - Z.div_mod_to_equations. lia.
  - Z.div_mod_to_equations. lia.
  - split; [by rewrite <- Heq|]. split; [done|]. split; [done|].
    intros average resource Havg. unfold getAverageColor. by rewrite Havg, Heq.
Qed.

Lemma rgb_number_packs_witness :
  rgb_number 255 128 7 = 16744455
  /\ rgb_number 255 128 7 / 65536 = 255
  /\ getColorAsInt (Some (255, 255, 255)) = 16777215.
Proof.
  destruct (rgb_number_packs 255 128 7) as (Heq & _ & Hred & _); [lia | lia | lia |].
  destruct (rgb_number_packs 255 255 255) as (Hw & _ & _ & _ & _ & Hc & _);
    [lia | lia | lia |].
  split; [rewrite Heq; reflexivity|]. split; [exact Hred|].
  rewrite Hc, Hw. reflexivity.
Defined.

(** * The report does not depend on the order of the records *)

Lemma group_of_perm (k : Z) (messages messages' : list (Message * Z)) :
  messages ≡ₚ messages' -> group_of k messages ≡ₚ group_of k messages'.
Proof. unfold group_of. intros Hp. apply Permutation_map. by rewrite Hp. Qed.

Lemma messagesArray_keys (messages : list (Message * Z)) (k : Z) :
  k ∈ map fst (messagesArray messages) <-> group_of k messages <> [].
Proof.
  rewrite list_elem_of_fmap. split.
  - intros ([k' g] & -> & Hin). simpl. by apply messagesArray_elem in Hin as [<- ?].
  - intros Hne. exists (k, group_of k messages). split; [done|].
    by apply messagesArray_elem.
Qed.

Lemma messagesArray_keys_sorted (messages : list (Message * Z)) :
  StronglySorted (fun a b => b < a) (map fst (messagesArray messages)).
Proof.
  apply (StronglySorted_fmap fst (fun a b : Z * list Message => b.1 < a.1)); [done|].
  apply sorted_desc_strict; [apply messagesArray_NoDup | apply Array_sort_desc].
Qed.

Lemma messagesArray_from_keys (messages : list (Message * Z)) :
  messagesArray messages
  = map (fun k => (k, group_of k messages)) (map fst (messagesArray messages)).
Proof.
  assert (Hall : Forall (fun e => e.2 = group_of e.1 messages) (messagesArray messages)).
  { apply Forall_forall. intros [k g] Hin. by apply messagesArray_elem in Hin as [-> _]. }
  induction Hall as [|[k g] l Hg Hl IH]; [done|]. simpl in *. by rewrite <- IH, Hg.
Qed.

Lemma contents_titles_by_shape {C : Collaborators} (rank : Z)
    (groups groups' : list (Z * list Message)) :
  map (fun e => (e.1, length e.2)) groups = map (fun e => (e.1, length e.2)) groups' ->
  map title (contents_from rank groups) = map title (contents_from rank groups').
Proof.
  revert rank groups'. induction groups as [|[k g] groups IH];
    intros rank [|[k' g'] groups'] Hshape; try done.
  simpl in Hshape. injection Hshape as -> Hlen Hrest. simpl.
  unfold title_of. rewrite Hlen. f_equal. by apply IH.
Qed.

(** When the same resolved messages are tallied in another order, the
    groups come with the same counts in the same order, each group holds
    the same messages up to their order, and the blocks, as many as
    before, carry the same titles: ranks, counts and plural marks. *)
Theorem report_ignores_record_order {C : Collaborators}
    (messages messages' : list (Message * Z)) :
  messages ≡ₚ messages' ->
  map fst (messagesArray messages) = map fst (messagesArray messages')
  /\ (forall k g g',
         (k, g) ∈ messagesArray messages -> (k, g') ∈ messagesArray messages' -> g ≡ₚ g')
  /\ map title (contents messages) = map title (contents messages')
  /\ length (contents messages) = length (contents messages').
Proof.
  intros Hp.
  assert (Hkeys : map fst (messagesArray messages) = map fst (messagesArray messages')).
  { apply (StronglySorted_unique_strong (fun a b => b < a)).
    - intros; lia.
    - apply messagesArray_keys_sorted.
    - apply messagesArray_keys_sorted.
    - apply NoDup_Permutation; [apply messagesArray_NoDup..|].
      intros k. rewrite !messagesArray_keys.
      pose proof (group_of_perm k _ _ Hp) as Hg.
      split; intros Hne Hnil; apply Hne.
      + rewrite Hnil in Hg. by apply Permutation_nil_r in Hg.
      + rewrite Hnil in Hg. by apply Permutation_nil in Hg. }
  assert (Hshape : map (fun e : Z * list Message => (e.1, length e.2))
                     (take 3 (messagesArray messages))
                   = map (fun e : Z * list Message => (e.1, length e.2))
                       (take 3 (messagesArray messages'))).
  { rewrite <- !firstn_map. f_equal.
    pose proof (messagesArray_from_keys messages) as E.
    pose proof (messagesArray_from_keys messages') as E'.
    rewrite <- Hkeys in E'. rewrite E, E', !map_map. apply map_ext.
    intros k. simpl. f_equal. apply Permutation_length. by apply group_of_perm. }
  split; [done|]. split; [|split].
  - intros k g g' [-> _]%messagesArray_elem [-> _]%messagesArray_elem.
    by apply group_of_perm.
  - unfold contents. rewrite !take3_take. by apply contents_titles_by_shape.
  - unfold contents. rewrite !contents_from_length, !take3_take.
    rewrite <- (length_map (fun e : Z * list Message => (e.1, length e.2))
                  (take 3 (messagesArray messages))).
    by rewrite Hshape, length_map.
Qed.

Lemma report_ignores_record_order_witness :
  let messages := [(msg_c, 3); (msg_a, 5); (msg_d, 1); (msg_b, 5)] in
  let messages' := [(msg_b, 5); (msg_d, 1); (msg_a, 5); (msg_c, 3)] in
  messages ≡ₚ messages'
  /\ map title (contents (C:=demo) messages) = map title (contents (C:=demo) messages')
  /\ messagesArray messages' = [(5, [msg_b; msg_a]); (3, [msg_c]); (1, [msg_d])].
Proof.
  intros messages messages'.
  assert (Hp : messages ≡ₚ messages').
  { unfold messages, messages'.
    apply (Permutation_cons_app [(msg_b, 5); (msg_d, 1); (msg_a, 5)] []). simpl.
    apply (Permutation_cons_app [(msg_b, 5); (msg_d, 1)] []). simpl.
    apply (Permutation_cons_app [(msg_b, 5)] []). simpl. done. }
  split; [exact Hp|].
  split; [exact (proj1 (proj2 (proj2 (report_ignores_record_order (C:=demo) _ _ Hp))))|].
  reflexivity.
Defined.

(** * Which failures count as busy *)

Lemma prefix_spec (n s : string) :
  String.prefix n s = true <-> exists post, s = n +:+ post.
Proof.
  revert s. induction n as [|a n IH]; intros [|b s]; simpl.
  - split; [by exists "" | done].
  - split; [by exists (String b s) | done].
  - split; [done | by intros [post ?]].
  - destruct (Ascii.ascii_dec a b) as [->|Hne].
    + rewrite IH. split; intros [post Hp]; exists post; [by rewrite Hp | by injection Hp].
    + split; [done|]. intros [post Hp]. by injection Hp as ? _.
Qed.

Lemma includes_unfold (s n : string) :
  includes s n
  = String.prefix n s
    || match s with EmptyString => false | String _ s' => includes s' n end.
Proof. by destruct s. Qed.

Lemma includes_spec (s n : string) :
  includes s n = true <-> exists pre post, s = pre +:+ n +:+ post.
Proof.
  induction s as [|a s IH]; rewrite includes_unfold.
  - rewrite orb_false_r, prefix_spec. split.
    + intros [post Hp]. by exists "", post.
    + intros (pre & post & Hp). destruct pre; [by exists post|discriminate].
  - rewrite orb_true_iff, prefix_spec, IH. split.
    + intros [[post Hp] | (pre & post & Hp)].
      * by exists "", post.
      * exists (String a pre), post. simpl. by rewrite Hp.
    + intros (pre & post & Hp). destruct pre as [|b pre]; simpl in Hp.
      * left. by exists post.
      * right. injection Hp as _ Hp. by exists pre, post.
Qed.

(** A failure is taken for the busy one, and retried, exactly when it is a
    [TypeError] whose message has the words "database connection is busy"
    somewhere in it.  An error of another class is rethrown whatever its
    message says. *)
Theorem is_busy_spec (e : JsError) :
  (is_busy e = true
   <-> e_class e = TypeError
       /\ exists pre post,
            e_message e = pre +:+ "database connection is busy" +:+ post)
  /\ (e_class e <> TypeError ->
      forall now rest (stmt : Z -> Db -> Db) (d : Db),
        stmt_run_retry stmt (failing now e :: rest) d = ([], Thrown e)).
Proof.
  split.
  - unfold is_busy. destruct (e_class e); rewrite ?includes_spec;
      (split; [intros Hb; first [discriminate Hb | by split]
              | intros [Hc Hb]; first [discriminate Hc | exact Hb]]).
  - intros Hc now rest stmt d. simpl.
    assert (is_busy e = false) as ->; [|done].
    unfold is_busy. by destruct (e_class e).
Qed.

Lemma is_busy_spec_witness :
  is_busy busy_error = true
  /\ is_busy {| e_class := SqliteError; e_message := "database connection is busy" |} = false
  /\ WeeklyAward.delete "g1" "c1" "m1"
       [failing 1 {| e_class := SqliteError; e_message := "database connection is busy" |}]
       empty_db
     = ([], Thrown {| e_class := SqliteError; e_message := "database connection is busy" |}).
Proof.
  split; [|split; [reflexivity|]].
  - apply (proj1 (is_busy_spec busy_error)). split; [reflexivity|].
    by exists "This ", " executing a query".
  - exact (proj2 (is_busy_spec {| e_class := SqliteError;
                                  e_message := "database connection is busy" |})
             ltac:(discriminate) 1 [] (fun _ => with_messages (delete_stmt ("g1", "c1", "m1")))
             empty_db).
Defined.


(** * Links to Discord messages *)

Lemma append_cons (x : Ascii.ascii) (a b : string) :
  String x a +:+ b = String x (a +:+ b).
Proof. reflexivity. Qed.

Lemma append_assoc (a b c : string) : (a +:+ b) +:+ c = a +:+ b +:+ c.
Proof. induction a as [|x a IH]; [done|]. by rewrite !append_cons, IH. Qed.

Lemma append_length (a b : string) :
  String.length (a +:+ b) = (String.length a + String.length b)%nat.
Proof. induction a as [|x a IH]; [done|]. rewrite append_cons. simpl. by rewrite IH. Qed.

Lemma strip_prefix_spec (p s r : string) :
  strip_prefix p s = Some r <-> s = p +:+ r.
Proof.
  revert s. induction p as [|a p IH]; intros s; simpl.
  - split; [by intros [= ->] | by intros ->].
  - rewrite append_cons. destruct s as [|b s]; [done|].
    destruct (Ascii.eqb_spec a b) as [->|Hne].
    + rewrite IH. split; [by intros -> | by intros [= ->]].
    + split; [done | by intros [= ? _]].
Qed.

Lemma span_digits_spec (s : string) :
  s = (span_digits s).1 +:+ (span_digits s).2
  /\ all_digits (span_digits s).1 = true
  /\ match (span_digits s).2 with
     | EmptyString => True
     | String next _ => is_digit next = false
     end.
Proof.
  induction s as [|c s (IH1 & IH2 & IH3)]; simpl; [done|].
  destruct (is_digit c) eqn:Hc; simpl.
  - rewrite append_cons. split; [by rewrite <- IH1|]. by rewrite Hc, IH2.
  - done.
Qed.

Lemma match_here_spec (s g c m rest : string) :
  match_here s = Some (g, c, m, rest) ->
  s = message_url g c m +:+ rest
  /\ g <> EmptyString /\ c <> EmptyString /\ m <> EmptyString
  /\ all_digits g = true /\ all_digits c = true /\ all_digits m = true
  /\ match rest with
     | EmptyString => True
     | String next _ => is_word_char next = false
     end.
Proof.
  unfold match_here, message_url. intros Hm.
  destruct (strip_prefix message_url_prefix s) as [s0|] eqn:H0; [|done].
  apply strip_prefix_spec in H0 as ->.
  destruct (span_digits_spec s0) as (Hs0 & Hg & Hg').
  case_bool_decide as Hgne; [done|].
  destruct (strip_prefix "/" (span_digits s0).2) as [s1|] eqn:H1; [|done].
  apply strip_prefix_spec in H1.
  destruct (span_digits_spec s1) as (Hs1 & Hc & Hc').
  case_bool_decide as Hcne; [done|].
  destruct (strip_prefix "/" (span_digits s1).2) as [s2|] eqn:H2; [|done].
  apply strip_prefix_spec in H2.
  destruct (span_digits_spec s2) as (Hs2 & Hmd & Hm').
  case_bool_decide as Hmne; [done|].
  assert (Hrest : Some ((span_digits s0).1, (span_digits s1).1, (span_digits s2).1,
                        (span_digits s2).2) = Some (g, c, m, rest)
                  /\ match (span_digits s2).2 with
                     | EmptyString => True
                     | String next _ => is_word_char next = false
                     end).
  { destruct (span_digits s2).2 as [|next tail]; [done|].
    by destruct (is_word_char next). }
  destruct Hrest as [[= <- <- <- <-] Hb].
  split; [|done].
  rewrite !append_assoc. f_equal. rewrite Hs0 at 1. f_equal.
  rewrite H1. rewrite append_cons. f_equal. change ("" +:+ s1) with s1.
  rewrite Hs1 at 1. f_equal.
  rewrite H2. rewrite append_cons. f_equal. change ("" +:+ s2) with s2.
  rewrite Hs2 at 1. done.
Qed.

Lemma match_here_shorter (s g c m rest : string) :
  match_here s = Some (g, c, m, rest) -> (String.length rest < String.length s)%nat.
Proof.
  intros (-> & _)%match_here_spec. unfold message_url.
  rewrite !append_length. simpl. lia.
Qed.

Lemma matchAll_fuel_enough (n n' : nat) (s : string) :
  (String.length s < n)%nat -> (String.length s < n')%nat ->
  matchAll_fuel n s = matchAll_fuel n' s.
Proof.
  revert n' s. induction n as [|n IH]; intros [|n'] s Hn Hn'; try lia. simpl.
  destruct (match_here s) as [[[[g c] m] rest]|] eqn:Hm.
  - apply match_here_shorter in Hm. f_equal. apply IH; lia.
  - destruct s as [|a s]; [done|]. simpl in *. apply IH; lia.
Qed.

Lemma matchAll_unfold (s : string) :
  matchAll s
  = match match_here s with
    | Some (g, c, m, rest) => (g, c, m) :: matchAll rest
    | None =>
        match s with
        | EmptyString => []
        | String _ s' => matchAll s'
        end
    end.
Proof.
  unfold matchAll at 1. simpl.
  destruct (match_here s) as [[[[g c] m] rest]|] eqn:Hm.
  - apply match_here_shorter in Hm. f_equal. apply matchAll_fuel_enough; lia.
  - destruct s as [|a s]; [done|]. apply matchAll_fuel_enough; simpl; lia.
Qed.

Lemma matchAll_sound (s g c m : string) :
  (g, c, m) ∈ matchAll s ->
  (exists pre post, s = pre +:+ message_url g c m +:+ post)
  /\ g <> EmptyString /\ c <> EmptyString /\ m <> EmptyString
  /\ all_digits g = true /\ all_digits c = true /\ all_digits m = true.
Proof.
  unfold matchAll. generalize (S (String.length s)) as n. intros n. revert s.
  induction n as [|n IH]; intros s Hin; simpl in Hin; [by apply elem_of_nil in Hin|].
  destruct (match_here s) as [[[[g0 c0] m0] rest]|] eqn:Hm.
  - apply match_here_spec in Hm as (-> & Hg & Hc & Hmm & Hgd & Hcd & Hmd & _).
    apply elem_of_cons in Hin as [[= -> -> ->]|Hin].
    + split; [by exists "", rest | repeat split; assumption].
    + destruct (IH rest Hin) as ((pre & post & ->) & Hfacts'). split; [|done].
      exists (message_url g0 c0 m0 +:+ pre), post. by rewrite append_assoc.
  - destruct s as [|a s]; [by apply elem_of_nil in Hin|].
    destruct (IH s Hin) as ((pre & post & ->) & Hfacts'). split; [|done].
    by exists (String a pre), post.
Qed.

Lemma matchAll_without_prefix (s : string) :
  includes s message_url_prefix = false -> matchAll s = [].
Proof.
  unfold matchAll. generalize (S (String.length s)) as n. intros n. revert s.
  induction n as [|n IH]; intros s Hno; simpl; [done|].
  destruct (match_here s) as [[[[g c] m] rest]|] eqn:Hm.
  - apply match_here_spec in Hm as (-> & _). exfalso.
    assert (includes (message_url g c m +:+ rest) message_url_prefix = true) as Hyes;
      [|by rewrite Hyes in Hno].
    apply includes_spec. exists "", (g +:+ "/" +:+ c +:+ "/" +:+ m +:+ rest).
    unfold message_url. by rewrite !append_assoc.
  - destruct s as [|a s]; [done|]. apply IH.
    rewrite includes_unfold in Hno. by apply orb_false_iff in Hno as [_ ?].
Qed.

Lemma strip_prefix_app (p r : string) : strip_prefix p (p +:+ r) = Some r.
Proof. by apply strip_prefix_spec. Qed.

Lemma span_digits_app (d r : string) :
  all_digits d = true ->
  match r with EmptyString => True | String next _ => is_digit next = false end ->
  span_digits (d +:+ r) = (d, r).
Proof.
  intros Hd Hr. induction d as [|x d IH].
  - change (span_digits r = (EmptyString, r)).
    destruct r as [|next r]; [done|]. simpl. by rewrite Hr.
  - simpl in Hd. apply andb_true_iff in Hd as [Hx Hd]. rewrite append_cons.
    change (span_digits (String x (d +:+ r)))
      with (if is_digit x
            then (String x (span_digits (d +:+ r)).1, (span_digits (d +:+ r)).2)
            else (EmptyString, String x (d +:+ r))).
    by rewrite Hx, (IH Hd).
Qed.

Lemma is_word_char_digit (c : Ascii.ascii) : is_digit c = true -> is_word_char c = true.
Proof. unfold is_word_char. by intros ->. Qed.

Lemma match_here_head (g c m rest : string) :
  g <> EmptyString -> c <> EmptyString -> m <> EmptyString ->
  all_digits g = true -> all_digits c = true -> all_digits m = true ->
  match rest with EmptyString => True | String next _ => is_digit next = false end ->
  match_here (message_url g c m +:+ rest)
  = match rest with
    | EmptyString => Some (g, c, m, rest)
    | String next _ => if is_word_char next then None else Some (g, c, m, rest)
    end.
Proof.
  intros Hg Hc Hm Hgd Hcd Hmd Hrest.
  unfold match_here, message_url. rewrite !append_assoc, strip_prefix_app.
  rewrite (span_digits_app g) by done. cbn [fst snd].
  rewrite bool_decide_false by done. rewrite (strip_prefix_app "/").
  rewrite (span_digits_app c) by done. cbn [fst snd].
  rewrite bool_decide_false by done. rewrite (strip_prefix_app "/").
  rewrite (span_digits_app m) by done. cbn [fst snd].
  by rewrite bool_decide_false by done.
Qed.

(** The search for links in a message text.  Every triple it returns is
    made of three non-empty runs of digits and the link spelled with them
    occurs in the text.  A text that does not contain
    https://discord.com/channels/ gives no triple.  A link at the head of
    the text that is followed by the end of the text or by a character that
    is not a word character is found, and the search goes on behind it; a
    link followed by a letter or an underscore is not matched there. *)
Theorem matchAll_finds_links (s : string) :
  (forall g c m,
      (g, c, m) ∈ matchAll s ->
      includes s (message_url g c m) = true
      /\ g <> EmptyString /\ c <> EmptyString /\ m <> EmptyString
      /\ all_digits g = true /\ all_digits c = true /\ all_digits m = true)
  /\ (includes s message_url_prefix = false -> matchAll s = [])
  /\ (forall g c m rest,
         s = message_url g c m +:+ rest ->
         g <> EmptyString -> c <> EmptyString -> m <> EmptyString ->
         all_digits g = true -> all_digits c = true -> all_digits m = true ->
         match rest with
         | EmptyString => matchAll s = [(g, c, m)]
         | String next _ =>
             is_digit next = false ->
             if is_word_char next then match_here s = None
             else matchAll s = (g, c, m) :: matchAll rest
         end).
Proof.
  split; [|split].
  - intros g c m ((pre & post & Hs) & Hfacts)%matchAll_sound.
    split; [|done]. apply includes_spec. by exists pre, post.
  - apply matchAll_without_prefix.
  - intros g c m rest -> Hg Hc Hm Hgd Hcd Hmd. destruct rest as [|next tail].
    + rewrite matchAll_unfold, match_here_head by done. by rewrite matchAll_unfold.
    + intros Hnext. pose proof (match_here_head g c m (String next tail)
                                  Hg Hc Hm Hgd Hcd Hmd Hnext) as Hhead.
      cbv beta iota in Hhead.
      destruct (is_word_char next); [done|]. by rewrite matchAll_unfold, Hhead.
Qed.

Lemma matchAll_finds_links_witness :
  let s := "see https://discord.com/channels/10/20/30, not https://discord.com/channels/4/5/6x" in
  matchAll s = [("10", "20", "30")]
  /\ includes s (message_url "10" "20" "30") = true
  /\ includes "no link here" message_url_prefix = false
  /\ matchAll "no link here" = [].
Proof.
  intros s.
  destruct (matchAll_finds_links s) as (Hsound & _).
  destruct (matchAll_finds_links "no link here") as (_ & Hnone & _).
  assert (E : matchAll s = [("10", "20", "30")]) by (vm_compute; reflexivity).
  assert (N : includes "no link here" message_url_prefix = false)
    by (vm_compute; reflexivity).
  split; [exact E|].
  split; [apply (Hsound "10" "20" "30"); rewrite E; by left|].
  split; [exact N | exact (Hnone N)].
Defined.

Lemma flat_map_length_le {A B : Type} (f : A -> list B) (l : list A) :
  (forall x, (length (f x) <= 1)%nat) -> (length (flat_map f l) <= length l)%nat.
Proof.
  intros Hf. induction l as [|x l IH]; [done|]. simpl. rewrite length_app.
  specialize (Hf x). lia.
Qed.

(** The link handler sends nothing for a message written by a bot or
    posted in a voice channel, and nothing when the text holds no link.
    Each thing it sends is the non-empty rendering, with the reactions
    field, of a message found under the ids of a link that occurs in the
    text; a link whose message cannot be found or renders to nothing is
    skipped, so there are at most as many sends as links. *)
Theorem urlExpand_sends_only_links {C : Collaborators} (world : list Guild)
    (message : Message) (channelIsVoiceBased : bool) :
  (bot (author message) = true \/ channelIsVoiceBased = true ->
   onMessageCreate_urlExpand world message channelIsVoiceBased = [])
  /\ (includes (content message) message_url_prefix = false ->
      onMessageCreate_urlExpand world message channelIsVoiceBased = [])
  /\ (forall embeds,
         embeds ∈ onMessageCreate_urlExpand world message channelIsVoiceBased ->
         embeds <> []
         /\ exists g c m referredMessage,
             (g, c, m) ∈ matchAll (content message)
             /\ includes (content message) (message_url g c m) = true
             /\ fetchMessageByIds world g c m = Some referredMessage
             /\ id referredMessage = m
             /\ embeds = messageToEmbeds referredMessage true)
  /\ (length (onMessageCreate_urlExpand world message channelIsVoiceBased)
      <= length (matchAll (content message)))%nat.
Proof.
  unfold onMessageCreate_urlExpand. split; [|split; [|split]].
  - intros [-> | ->]; [done|]. by rewrite orb_true_r.
  - intros Hno. rewrite (matchAll_without_prefix _ Hno).
    by destruct (bot (author message) || channelIsVoiceBased).
  - intros embeds Hin.
    destruct (bot (author message) || channelIsVoiceBased);
      [by apply elem_of_nil in Hin|].
    apply list_elem_of_In, in_flat_map in Hin as ([[g c] m] & Hids & Hin).
    simpl in Hin. apply list_elem_of_In in Hids.
    destruct (fetchMessageByIds world g c m) as [referredMessage|] eqn:Hf; [|done].
    destruct (Nat.ltb_spec 0 (length (messageToEmbeds referredMessage true)))
      as [Hlen|Hlen]; [|done].
    destruct Hin as [<-|[]]. split.
    + intros Hnil. rewrite Hnil in Hlen. simpl in Hlen. lia.
    + exists g, c, m, referredMessage. split; [done|].
      split; [by apply (matchAll_sound _ _ _ _ Hids) || (apply includes_spec;
                destruct (matchAll_sound _ _ _ _ Hids) as ((pre & post & ?) & _);
                by exists pre, post)|].
      split; [done|]. split; [|done].
      by apply fetchMessageByIds_found in Hf as [? _].
  - destruct (bot (author message) || channelIsVoiceBased); [simpl; lia|].
    apply flat_map_length_le. intros [[g c] m]. simpl.
    destruct (fetchMessageByIds world g c m); [|simpl; lia].
    destruct (0 <? _)%nat; simpl; lia.
Qed.

Lemma urlExpand_sends_only_links_witness :
  let message :=
    {| id := "m7"; channelId := "c1"; guildId := "g1"; inGuild := true;
       guildName := Some "Inugoya"; channelName := Some "general";
       content := "look: https://discord.com/channels/g/1/2 https://discord.com/channels/1/2/3";
       author := {| username := "pochi"; bot := false |};
       url := "https://discord.com/channels/g1/c1/m7";
       createdTimestamp := 0; reactions := [] |} in
  onMessageCreate_urlExpand (C:=demo) demo_world message false = []
  /\ matchAll (content message) = [("1", "2", "3")]
  /\ (length (onMessageCreate_urlExpand (C:=demo) demo_world message false) <= 1)%nat.
Proof.
  intros message. split; [vm_compute; reflexivity|]. split; [vm_compute; reflexivity|].
  exact (proj2 (proj2 (proj2 (urlExpand_sends_only_links (C:=demo) demo_world message false)))).
Defined.

(** * Previews for links left unexpanded *)

Lemma strip_prefix_prefix (p s : string) :
  String.prefix p s = false -> strip_prefix p s = None.
Proof.
  intros Hp. destruct (strip_prefix p s) as [r|] eqn:Hs; [|done].
  apply strip_prefix_spec in Hs as ->.
  assert (String.prefix p (p +:+ r) = true) as Hyes by (apply prefix_spec; by exists r).
  by rewrite Hyes in Hp.
Qed.

Lemma targetUrls_elem (urls embedUrls : list string) (url : string) :
  url ∈ targetUrls urls embedUrls
  <-> url ∈ urls /\ (url ∉ embedUrls) /\ String.prefix message_url_prefix url = false.
Proof.
  unfold targetUrls. rewrite !list_elem_of_In, !filter_In, <- !list_elem_of_In.
  rewrite !negb_true_iff, bool_decide_eq_false. tauto.
Qed.

Lemma sublist_filter_bool {A : Type} (p : A -> bool) (l : list A) :
  List.filter p l `sublist_of` l.
Proof.
  induction l as [|x l IH]; [done|]. simpl.
  destruct (p x); [by apply sublist_skip | by apply sublist_cons].
Qed.

Section NoExpandedFacts.
Context {C : Collaborators} {Attachment : Type}.
Context (urlsOfText : string -> list string).
Context (core : string -> nat -> list Embed * option Attachment).

(** The preview handler does not reply to a message written by a bot, nor
    to one that already has at least as many embeds as its text has urls.
    When it replies, the embeds are not empty and every one of them was
    rendered for a url of the text that none of the message's embeds has
    and that is not a link to a Discord message, the url being numbered by
    its place among those; there is at most one file for each such url.
    A url it renders is never matched as a message link at its head, so a
    text made of message links alone gets no reply. *)
Theorem noExpanded_replies_for_bare_urls (message : Message)
    (messageEmbeds : list (option string)) :
  let urls := urlsOfText (content message) in
  let targets := targetUrls urls (omap (fun url => url) messageEmbeds) in
  (bot (author message) = true \/ (length urls <= length messageEmbeds)%nat ->
   onMessageCreate_noExpanded urlsOfText core message messageEmbeds = None)
  /\ (forall embeds files,
         onMessageCreate_noExpanded urlsOfText core message messageEmbeds
         = Some (embeds, files) ->
         embeds <> []
         /\ (length files <= length targets)%nat
         /\ forall e, In e embeds ->
              exists index url,
                targets !! index = Some url
                /\ In e (core url index).1
                /\ url ∈ urls
                /\ (Some url ∉ messageEmbeds)
                /\ String.prefix message_url_prefix url = false
                /\ match_here url = None)
  /\ (targets `sublist_of` urls)
  /\ ((forall url, url ∈ urls -> String.prefix message_url_prefix url = true) ->
      onMessageCreate_noExpanded urlsOfText core message messageEmbeds = None).
Proof.
  intros urls targets. unfold onMessageCreate_noExpanded. fold urls. fold targets.
  split; [|split; [|split]].
  - intros [-> | Hlen]; [done|]. destruct (bot (author message)); [done|].
    destruct (Nat.ltb_spec (length messageEmbeds) (length urls)); [lia | done].
  - intros embeds files Hr.
    destruct (bot (author message)); [done|].
    destruct (length messageEmbeds <? length urls)%nat; [|done].
    destruct (Nat.ltb_spec 0 (length (flat_map fst
                (imap (fun index url => core url index) targets)))) as [Hlen|Hlen];
      [|done].
    injection Hr as <- <-. split; [|split].
    + intros Hnil. rewrite Hnil in Hlen. simpl in Hlen. lia.
    + etransitivity; [apply omap_length_le|]. by rewrite length_imap.
    + intros e (r & Hr & He)%in_flat_map.
      apply list_elem_of_In, list_elem_of_lookup in Hr as [index Hr].
      rewrite list_lookup_imap in Hr.
      destruct (targets !! index) as [url|] eqn:Hurl; [|done].
      injection Hr as <-. exists index, url. split; [done|]. split; [done|].
      apply list_elem_of_lookup_2, targetUrls_elem in Hurl as (Hin & Hnot & Hpre).
      split; [done|]. split.
      * intros Hemb. apply Hnot. apply list_elem_of_omap. by exists (Some url).
      * split; [done|]. unfold match_here. by rewrite strip_prefix_prefix.
  - unfold targets, targetUrls.
    etransitivity; apply sublist_filter_bool.
  - intros Hall.
    assert (targets = []) as ->.
    { destruct targets as [|url rest] eqn:Ht; [done|].
      assert (url ∈ targets) as Hin by (rewrite Ht; by left).
      apply targetUrls_elem in Hin as (Hin & _ & Hpre).
      by rewrite (Hall url Hin) in Hpre. }
    simpl. destruct (bot (author message)); [done|].
    by destruct (length messageEmbeds <? length urls)%nat.
Qed.
End NoExpandedFacts.

Lemma noExpanded_replies_for_bare_urls_witness :
  let urlsOfText := fun _ : string =>
    ["https://example.com/a"; "https://discord.com/channels/1/2/3"; "https://example.com/b"] in
  let core := fun (url : string) (index : nat) =>
    ([url +:+ "#" +:+ number_to_string (Z.of_nat index)], @None unit) in
  let message := demo_message "m1" "g1" false 0 [] in
  onMessageCreate_noExpanded (C:=demo) urlsOfText core message [Some "https://example.com/a"]
  = Some (["https://example.com/b#0"], [])
  /\ onMessageCreate_noExpanded (C:=demo) urlsOfText core message
       [Some "x"; None; Some "y"] = None.
Proof.
  intros urlsOfText core message. split; [vm_compute; reflexivity|].
  apply (proj1 (noExpanded_replies_for_bare_urls (C:=demo) urlsOfText core message
                  [Some "x"; None; Some "y"])).
  right. simpl. lia.
Defined.

(** * Reading the head of a page *)

Lemma or_else_never_empty (acc x : option string) :
  or_else (or_else acc x) None <> Some EmptyString.
Proof. by destruct acc as [[|]|], x as [[|]|]. Qed.

(** [getTitle] and [getDescription] give either nothing or a string that
    is not empty: an empty [content] counts as missing and the next
    selector is tried, the page title coming last for the title.  A
    non-empty og:title wins over everything else.  [getImage] only gives
    urls that pass [isUrl]; it stops at the first selector that has a
    [content] at all, so an og:image with an empty or invalid content
    hides a valid twitter:image:src. *)
Theorem head_getters {C : Collaborators} (document : Document) :
  getTitle document <> Some EmptyString
  /\ getDescription document <> Some EmptyString
  /\ (forall t, content_of document (meta_property "og:title") = Some t ->
                t <> EmptyString -> getTitle document = Some t)
  /\ (getTitle document = None -> doc_title document = EmptyString)
  /\ (forall u, getImage document = Some u -> isUrl u = true)
  /\ (forall u, content_of document (meta_property "og:image") = Some u ->
                getImage document = if isUrl u then Some u else None)
  /\ (content_of document (meta_property "og:image") = None ->
      getImage document
      = match content_of document (meta_name "twitter:image:src") with
        | Some u => if isUrl u then Some u else None
        | None => None
        end).
Proof.
  unfold getTitle, getDescription, getImage. cbn [fold_left].
  split; [apply or_else_never_empty|]. split; [apply or_else_never_empty|].
  split; [|split; [|split; [|split]]].
  - intros t -> Ht. by destruct t.
  - destruct (content_of document (meta_property "og:title")) as [[|]|],
      (content_of document (meta_name "twitter:title")) as [[|]|],
      (doc_title document); done.
  - intros u.
    destruct (nullish_else _ _) as [u'|]; [|done].
    destruct (isUrl u') eqn:Hu; [|done]. by intros [= <-].
  - by intros u ->.
  - by intros ->.
Qed.

Lemma head_getters_witness :
  let document :=
    {| content_of := fun selector =>
         if bool_decide (selector = meta_property "og:title") then Some "Inugoya"
         else if bool_decide (selector = meta_property "og:image") then Some ""
         else if bool_decide (selector = meta_name "twitter:image:src")
              then Some "https://example.com/i.png"
         else None;
       doc_title := "fallback" |} in
  getTitle document = Some "Inugoya"
  /\ getDescription document = None
  /\ getImage (C:=demo) document = None.
Proof.
  intros document.
  destruct (head_getters (C:=demo) document) as (_ & _ & Htitle & _ & _ & Himage & _).
  split; [apply Htitle; [vm_compute; reflexivity | discriminate]|].
  split; [vm_compute; reflexivity|].
  rewrite (Himage "" ltac:(vm_compute; reflexivity)). reflexivity.
Defined.


(** * The report time *)

Lemma matches_in_range {C : Collaborators} (now : Z) (args : TickArgs) :
  matches now args = true ->
  0 <= a_weekday args <= 6 /\ 0 <= a_hour args <= 23 /\ 0 <= a_minute args <= 59.
Proof.
  intros (Hd & Hh & Hm)%matches_spec.
  unfold now_day, now_hour, now_minute in *.
  rewrite <- Hd, <- Hh, <- Hm.
  repeat split; try (apply Z.mod_pos_bound; lia);
    match goal with
    | |- ?x mod ?n <= _ => pose proof (Z.mod_pos_bound x n ltac:(lia)); lia
    end.
Qed.

Lemma next_occurrence_matches {C : Collaborators} (now : Z) (args : TickArgs) :
  0 <= a_weekday args <= 6 -> 0 <= a_hour args <= 23 -> 0 <= a_minute args <= 59 ->
  now <= next_occurrence now args < now + 7 * day_ms
  /\ matches (next_occurrence now args) args = true.
Proof.
  intros Hd Hh Hm. unfold next_occurrence, day_ms. cbv zeta.
  set (q := local_ms now / 60000).
  set (wanted := (a_weekday args - 4) mod 7 * 1440 + a_hour args * 60 + a_minute args).
  set (k := (wanted - q) mod 10080).
  assert (Hk : 0 <= k < 10080) by (apply Z.mod_pos_bound; lia).
  split; [lia|].
  apply matches_spec. unfold now_day, now_hour, now_minute, local_ms, day_ms in *.
  replace (now + k * 60000 + tzOffset) with ((now + tzOffset) + k * 60000) by lia.
  assert (Hq : (now + tzOffset + k * 60000) / 60000 = q + k).
  { unfold q. rewrite Z.div_add by lia. done. }
  assert (Hqk : (q + k) mod 10080 = wanted mod 10080).
  { unfold k. rewrite Zplus_mod_idemp_r. f_equal. ring. }
  assert (Hw : 0 <= wanted < 10080).
  { unfold wanted. pose proof (Z.mod_pos_bound (a_weekday args - 4) 7 ltac:(lia)). lia. }
  rewrite (Z.mod_small wanted) in Hqk by lia.
  assert (E1 : (now + tzOffset + k * 60000) / 3600000 = (q + k) / 60).
  { rewrite <- Hq. rewrite Z.div_div by lia. done. }
  assert (E2 : (now + tzOffset + k * 60000) / (86400 * 1000) = (q + k) / 1440).
  { rewrite <- Hq. rewrite Z.div_div by lia. done. }
  rewrite E1, E2, Hq. clear E1 E2 Hq.
  generalize dependent (q + k). intros n Hn.
  unfold wanted in *. clear wanted k q Hk.
  Z.div_mod_to_equations. lia.
Qed.

(** A tick can only match a weekday from 0 to 6, an hour from 0 to 23 and
    a minute from 0 to 59: a time stored outside these ranges never
    matches, so the loop polls every second for ever and never reports.
    For a time inside the ranges there is a matching instant within each
    week.  Whether an instant matches depends only on the minute it
    falls in. *)
Theorem report_time_ranges {C : Collaborators} (now : Z) (args : TickArgs) :
  (matches now args = true ->
   0 <= a_weekday args <= 6 /\ 0 <= a_hour args <= 23 /\ 0 <= a_minute args <= 59)
  /\ (0 <= a_weekday args <= 6 -> 0 <= a_hour args <= 23 -> 0 <= a_minute args <= 59 ->
      now <= next_occurrence now args < now + 7 * day_ms
      /\ matches (next_occurrence now args) args = true)
  /\ (forall now',
         local_ms now' / 60000 = local_ms now / 60000 ->
         matches now' args = matches now args)
  /\ (~ (0 <= a_weekday args <= 6 /\ 0 <= a_hour args <= 23 /\ 0 <= a_minute args <= 59) ->
      forall world atts st, tick args now world atts st = ([], Returned (arm args 1000 st))).
Proof.
  split; [apply matches_in_range|]. split; [apply next_occurrence_matches|]. split.
  - intros now' Hsame. unfold matches, now_day, now_hour, now_minute, day_ms.
    replace (local_ms now' / 3600000) with (local_ms now' / 60000 / 60)
      by (rewrite Z.div_div by lia; done).
    replace (local_ms now / 3600000) with (local_ms now / 60000 / 60)
      by (rewrite Z.div_div by lia; done).
    replace (local_ms now' / (86400 * 1000)) with (local_ms now' / 60000 / 1440)
      by (rewrite Z.div_div by lia; done).
    replace (local_ms now / (86400 * 1000)) with (local_ms now / 60000 / 1440)
      by (rewrite Z.div_div by lia; done).
    by rewrite Hsame.
  - intros Hout world atts st. apply tick_unmatched.
    destruct (matches now args) eqn:Hm; [|done].
    by apply matches_in_range in Hm.
Qed.

Lemma report_time_ranges_witness :
  let odd := {| a_guildId := "g1"; a_guildName := "Inugoya"; a_channelName := "awards";
                a_weekday := 3; a_hour := 24; a_minute := 0 |} in
  matches (C:=demo) report_time demo_args = true
  /\ next_occurrence (C:=demo) (report_time + 60000) demo_args = report_time + 7 * day_ms
  /\ matches (C:=demo) (report_time + 7 * day_ms) demo_args = true
  /\ tick (C:=demo) odd report_time demo_world [] (demo_state [])
     = ([], Returned (arm odd 1000 (demo_state []))).
Proof.
  intros odd.
  destruct (report_time_ranges (C:=demo) (report_time + 60000) demo_args) as (_ & Hnext & _).
  destruct (report_time_ranges (C:=demo) report_time odd) as (_ & _ & _ & Hnever).
  assert (E : next_occurrence (C:=demo) (report_time + 60000) demo_args
              = report_time + 7 * day_ms) by reflexivity.
  split; [reflexivity|]. split; [exact E|]. split.
  - rewrite <- E. apply Hnext; simpl; lia.
  - apply Hnever. simpl. lia.
Defined.


(** * Vacuum follows deletion *)






(** * Resolving the report channel by name *)

Lemma find_first {A : Type} (p : A -> bool) (before : list A) (x : A) (after : list A) :
  Forall (fun y => p y = false) before -> p x = true ->
  find p (before ++ x :: after) = Some x.
Proof.
  intros Hb Hx. induction Hb as [|y before Hy _ IH]; simpl.
  - by rewrite Hx.
  - by rewrite Hy.
Qed.

(** The tick looks its channel up by the two configured names only: it
    takes the first guild with the configured guild name and, in it, the
    first channel with the configured channel name, and reports there
    exactly when that channel is a guild text channel.  Guilds and channels
    that come later are never looked at, even when the one taken is not a
    text channel, and the tenant id of the loop plays no part. *)
Theorem target_takes_first_namesake (args : TickArgs)
    (world1 world2 : list Guild) (guild : Guild)
    (chans1 chans2 : list Channel) (channel : Channel) :
  Forall (fun g => g_name g <> a_guildName args) world1 ->
  g_name guild = a_guildName args ->
  g_channels guild = chans1 ++ channel :: chans2 ->
  Forall (fun c => ch_name c <> a_channelName args) chans1 ->
  ch_name channel = a_channelName args ->
  target (world1 ++ guild :: world2) args
  = (if is_GuildText (ch_type channel) then Some (g_id guild, ch_id channel) else None)
  /\ (forall guildId,
        target (world1 ++ guild :: world2)
          {| a_guildId := guildId; a_guildName := a_guildName args;
             a_channelName := a_channelName args; a_weekday := a_weekday args;
             a_hour := a_hour args; a_minute := a_minute args |}
        = target (world1 ++ guild :: world2) args).
Proof.
  intros Hw Hg Hcs Hc1 Hc. split; [|done].
  unfold target, resolve.
  rewrite (find_first _ world1 guild world2).
  - rewrite Hcs, (find_first _ chans1 channel chans2); [done| |by apply bool_decide_eq_true].
    eapply Forall_impl; [exact Hc1|]. intros c Hne. by apply bool_decide_eq_false.
  - eapply Forall_impl; [exact Hw|]. intros g Hne. by apply bool_decide_eq_false.
  - by apply bool_decide_eq_true.
Qed.

Lemma target_takes_first_namesake_witness :
  let voice := {| ch_id := "c7"; ch_name := "awards"; ch_type := GuildVoice;
                  isTextBased := true; isVoiceBased := true; ch_messages := [] |} in
  let first := {| g_id := "g7"; g_name := "Inugoya"; g_channels := [voice] |} in
  target (first :: demo_world) demo_args = None
  /\ target demo_world demo_args = Some ("g1", "c9").
Proof.
  intros voice first. split; [|reflexivity].
  exact (proj1 (target_takes_first_namesake demo_args [] demo_world first [] [] voice
                  (List.Forall_nil _) eq_refl eq_refl (List.Forall_nil _) eq_refl)).
Defined.
